(** * FocusFlow: the attention-tracking front end

    A shallow embedding of the two React components that consume the
    [emotions] feed, [VideoAttentionTracker] and [EmotionsViewer], and the
    properties of the attention session they implement; then of what
    carries the feed to them: the [WebSocketService] singleton, the [App]
    that connects it, and the [SignalViewer] window on the raw signal.

    Conventions of the embedding.
    - A JavaScript [number] is a rational ([Q]).  The code only compares
      times, subtracts a tolerance, takes [Math.max] and [Math.round]; none of
      the statements below depends on rounding of binary floating point.
    - [undefined] and [null] are [None].
    - A string is a [string] of bytes.
    - A [useState] cell and a [useRef] cell are both fields of the component
      state.  What distinguishes them in the source is what a closure sees:
      a callback registered by an effect or by [setInterval] keeps the
      [useState] values of the render that created it, while it reads the
      current content of a ref.  Captured values are stored with the callback.
    - [window.setInterval] and [clearInterval] act on a table of live
      intervals, a [gmap] from handles to callbacks. *)

From stdpp Require Import gmap strings list fin_maps.
From Stdlib Require Import Ascii QArith Qround Qminmax.
From Stdlib Require Import DecimalString DecimalZ DecimalPos Lqa.
Close Scope Q_scope.

(** ** Numbers *)

(** [x < y] on JavaScript numbers. *)
Definition Qltb (x y : Q) : bool :=
  match (x ?= y)%Q with Lt => true | _ => false end.

(** [x >= y]. *)
Definition Qgeb (x y : Q) : bool := Qle_bool y x.

(** [Math.round]: the nearest integer, halves rounded up. *)
Definition Math_round (x : Q) : Z := Qfloor (x + (1 # 2))%Q.

(** [Math.max] on two numbers. *)
Definition Math_max (x y : Q) : Q := Qmax x y.

(** Truthiness of [number | null] (interval handles) and of
    [string | null]. *)
Definition truthy_handle (r : option nat) : bool :=
  match r with Some (S _) => true | _ => false end.

Definition truthy_string (r : option string) : bool :=
  match r with Some (String _ _) => true | _ => false end.

(** ** Types of the feed (types/index.ts) *)

Module Types.

Record EmotionsData := {
rel_relaxation : option Q;
rel_attention : option Q;
inst_relaxation : option Q;
inst_attention : option Q;
calibration_percent : option Q;
is_both_sides_artifacted : option bool;
is_sequence_artifacted : option bool }.

Inductive MessageType := signal | resist | status | emotions | pong.

(** The handlers cast [message.data] to [EmotionsData] and read it only
  under [message.type === 'emotions']; a payload of another shape has
  none of the fields they read. *)
Record WebSocketMessage := {
type : MessageType;
data : EmotionsData }.

Global Instance MessageType_eq_dec : EqDecision MessageType.
Proof. solve_decision. Defined.

End Types.

(** ** extractVideoId *)

Module VideoUrl.

(** The character class [[^&\n?#]]. *)
Definition idChar (c : Ascii.ascii) : bool :=
  negb (Ascii.eqb c "&" || Ascii.eqb c "010" || Ascii.eqb c "?"
        || Ascii.eqb c "#")%char.

(** The greedy run [[^&\n?#]+] read from the head of [s] (empty when the
    head is excluded). *)
Fixpoint takeId (s : string) : string :=
  match s with
  | EmptyString => EmptyString
  | String c r => if idChar c then String c (takeId r) else EmptyString
  end.

Fixpoint dropPrefix (p s : string) : option string :=
  match p, s with
  | EmptyString, _ => Some s
  | String a p', String b s' =>
      if Ascii.eqb a b then dropPrefix p' s' else None
  | String _ _, EmptyString => None
  end.

(** The three alternatives of the non-capturing group, in order. *)
Definition alternatives : list string :=
  ["youtube.com/watch?v="; "youtu.be/"; "youtube.com/embed/"]%string.

(** One alternative followed by the capture group, at the head of [s]. *)
Definition matchAlt (s p : string) : option string :=
  match dropPrefix p s with
  | Some rest =>
      match takeId rest with
      | EmptyString => None
      | id => Some id
      end
  | None => None
  end.

Fixpoint firstSome {A B} (f : A -> option B) (l : list A) : option B :=
  match l with
  | [] => None
  | a :: l' => match f a with Some b => Some b | None => firstSome f l' end
  end.

Definition matchHere (s : string) : option string :=
  firstSome (matchAlt s) alternatives.

(** [url.match(pattern)]: the leftmost position where the pattern
    matches; the result is capture group 1. *)
Fixpoint regexMatch (url : string) : option string :=
  match matchHere url with
  | Some id => Some id
  | None =>
      match url with
      | EmptyString => None
      | String _ r => regexMatch r
      end
  end.

(** [extractVideoId]: the single pattern of [patterns] is tried;
    [match && match[1]] holds when the capture is a non-empty string. *)
Definition extractVideoId (url : string) : option string :=
  match regexMatch url with
  | Some id => if truthy_string (Some id) then Some id else None
  | None => None
  end.

End VideoUrl.

(** ** VideoAttentionTracker *)

Module VideoAttentionTracker.

Import VideoUrl.

Record AttentionDataPoint := {
  time : Z;
  attention : Q }.

Inductive VideoMode := youtube | file.

Global Instance VideoMode_eq_dec : EqDecision VideoMode.
Proof. solve_decision. Defined.

(** Constants for seeking prevention. *)
Definition SEEK_TOLERANCE : Q := 0.5.
Definition YOUTUBE_SEEK_THRESHOLD : Q := 1.

(** [YT.PlayerState]. *)
Module PlayerState.
Definition UNSTARTED : Z := -1.
Definition ENDED : Z := 0.
Definition PLAYING : Z := 1.
Definition PAUSED : Z := 2.
Definition BUFFERING : Z := 3.
Definition CUED : Z := 5.
End PlayerState.

(** The [useState] values a registered callback reads from the render
    that created it. *)
Record Closure := {
  c_videoMode : VideoMode;
  c_player : option nat }.

(** The two callbacks handed to [window.setInterval]: the sampling
    callback of [startAttentionTracking] and the seek check of
    [onPlayerReady].  Real time is not modelled: a live interval may fire
    at any moment. *)
Inductive Callback :=
| TrackingTick (c : Closure)
| SeekCheck (c : Closure).

(** A [YT.Player] that was created and not destroyed: the target of the
    last [seekTo] it received, and what its [onReady] and [onStateChange]
    handlers captured. *)
Record YTPlayer := {
  yt_id : nat;
  yt_seekedTo : option Q;
  yt_isStreaming : bool;
  yt_closure : Closure }.

(** The [<video>] element. *)
Record HTMLVideoElement := {
  currentTime : Q;
  seeking : bool }.

(** The listeners attached by the HTML5 video effect, with the local
    [lastValidTime] they share. *)
Record VideoListeners := {
  lastValidTime : Q;
  vl_closure : Closure }.

(** The selected file ([e.target.files?.[0]]). *)
Record File := { type : string }.

(** The component: [useState] cells, [useRef] cells, and the part of the
    browser the component acts on. *)
Record State := mkState {
  (* useState *)
  youtubeUrl : string;
  videoId : option string;
  player : option nat;
  isStreaming : bool;
  isCalibrated : bool;
  calibrationPercent : Q;
  attentionData : list AttentionDataPoint;
  showGraph : bool;
  currentAttention : option Q;
  errorMessage : option string;
  videoMode : VideoMode;
  uploadedVideoUrl : option string;
  (* useRef *)
  playerRef : option nat;
  trackingIntervalRef : option nat;
  currentAttentionRef : option Q;
  lastYouTubeTimeRef : Q;
  youtubeSeekCheckIntervalRef : option nat;
  (* browser *)
  timers : gmap nat Callback;
  nextTimer : nat;
  windowYT : bool;
  nextPlayer : nat;
  ytPlayer : option YTPlayer;
  video : HTMLVideoElement;
  videoListeners : option VideoListeners }.

(** Field updates. *)
Definition set_youtubeUrl (v : string) (s : State) : State :=
  let '(mkState _ x2 x3 x4 x5 x6 x7 x8 x9 x10 x11 x12 x13 x14 x15 x16
      x17 x18 x19 x20 x21 x22 x23 x24) := s in
  mkState v x2 x3 x4 x5 x6 x7 x8 x9 x10 x11 x12 x13 x14 x15 x16 x17 x18
      x19 x20 x21 x22 x23 x24.

Definition set_videoId (v : option string) (s : State) : State :=
  let '(mkState x1 _ x3 x4 x5 x6 x7 x8 x9 x10 x11 x12 x13 x14 x15 x16
      x17 x18 x19 x20 x21 x22 x23 x24) := s in
  mkState x1 v x3 x4 x5 x6 x7 x8 x9 x10 x11 x12 x13 x14 x15 x16 x17 x18
      x19 x20 x21 x22 x23 x24.

Definition set_player (v : option nat) (s : State) : State :=
  let '(mkState x1 x2 _ x4 x5 x6 x7 x8 x9 x10 x11 x12 x13 x14 x15 x16
      x17 x18 x19 x20 x21 x22 x23 x24) := s in
  mkState x1 x2 v x4 x5 x6 x7 x8 x9 x10 x11 x12 x13 x14 x15 x16 x17 x18
      x19 x20 x21 x22 x23 x24.

Definition set_isStreaming (v : bool) (s : State) : State :=
  let '(mkState x1 x2 x3 _ x5 x6 x7 x8 x9 x10 x11 x12 x13 x14 x15 x16
      x17 x18 x19 x20 x21 x22 x23 x24) := s in
  mkState x1 x2 x3 v x5 x6 x7 x8 x9 x10 x11 x12 x13 x14 x15 x16 x17 x18
      x19 x20 x21 x22 x23 x24.

Definition set_isCalibrated (v : bool) (s : State) : State :=
  let '(mkState x1 x2 x3 x4 _ x6 x7 x8 x9 x10 x11 x12 x13 x14 x15 x16
      x17 x18 x19 x20 x21 x22 x23 x24) := s in
  mkState x1 x2 x3 x4 v x6 x7 x8 x9 x10 x11 x12 x13 x14 x15 x16 x17 x18
      x19 x20 x21 x22 x23 x24.

Definition set_calibrationPercent (v : Q) (s : State) : State :=
  let '(mkState x1 x2 x3 x4 x5 _ x7 x8 x9 x10 x11 x12 x13 x14 x15 x16
      x17 x18 x19 x20 x21 x22 x23 x24) := s in
  mkState x1 x2 x3 x4 x5 v x7 x8 x9 x10 x11 x12 x13 x14 x15 x16 x17 x18
      x19 x20 x21 x22 x23 x24.

Definition set_attentionData (v : list AttentionDataPoint) (s : State) :
    State :=
  let '(mkState x1 x2 x3 x4 x5 x6 _ x8 x9 x10 x11 x12 x13 x14 x15 x16
      x17 x18 x19 x20 x21 x22 x23 x24) := s in
  mkState x1 x2 x3 x4 x5 x6 v x8 x9 x10 x11 x12 x13 x14 x15 x16 x17 x18
      x19 x20 x21 x22 x23 x24.

Definition set_showGraph (v : bool) (s : State) : State :=
  let '(mkState x1 x2 x3 x4 x5 x6 x7 _ x9 x10 x11 x12 x13 x14 x15 x16
      x17 x18 x19 x20 x21 x22 x23 x24) := s in
  mkState x1 x2 x3 x4 x5 x6 x7 v x9 x10 x11 x12 x13 x14 x15 x16 x17 x18
      x19 x20 x21 x22 x23 x24.

Definition set_currentAttention (v : option Q) (s : State) : State :=
  let '(mkState x1 x2 x3 x4 x5 x6 x7 x8 _ x10 x11 x12 x13 x14 x15 x16
      x17 x18 x19 x20 x21 x22 x23 x24) := s in
  mkState x1 x2 x3 x4 x5 x6 x7 x8 v x10 x11 x12 x13 x14 x15 x16 x17 x18
      x19 x20 x21 x22 x23 x24.

Definition set_errorMessage (v : option string) (s : State) : State :=
  let '(mkState x1 x2 x3 x4 x5 x6 x7 x8 x9 _ x11 x12 x13 x14 x15 x16 x17
      x18 x19 x20 x21 x22 x23 x24) := s in
  mkState x1 x2 x3 x4 x5 x6 x7 x8 x9 v x11 x12 x13 x14 x15 x16 x17 x18
      x19 x20 x21 x22 x23 x24.

Definition set_videoMode (v : VideoMode) (s : State) : State :=
  let '(mkState x1 x2 x3 x4 x5 x6 x7 x8 x9 x10 _ x12 x13 x14 x15 x16 x17
      x18 x19 x20 x21 x22 x23 x24) := s in
  mkState x1 x2 x3 x4 x5 x6 x7 x8 x9 x10 v x12 x13 x14 x15 x16 x17 x18
      x19 x20 x21 x22 x23 x24.

Definition set_uploadedVideoUrl (v : option string) (s : State) : State :=
  let '(mkState x1 x2 x3 x4 x5 x6 x7 x8 x9 x10 x11 _ x13 x14 x15 x16 x17
      x18 x19 x20 x21 x22 x23 x24) := s in
  mkState x1 x2 x3 x4 x5 x6 x7 x8 x9 x10 x11 v x13 x14 x15 x16 x17 x18
      x19 x20 x21 x22 x23 x24.

Definition set_playerRef (v : option nat) (s : State) : State :=
  let '(mkState x1 x2 x3 x4 x5 x6 x7 x8 x9 x10 x11 x12 _ x14 x15 x16 x17
      x18 x19 x20 x21 x22 x23 x24) := s in
  mkState x1 x2 x3 x4 x5 x6 x7 x8 x9 x10 x11 x12 v x14 x15 x16 x17 x18
      x19 x20 x21 x22 x23 x24.

Definition set_trackingIntervalRef (v : option nat) (s : State) : State :=
  let '(mkState x1 x2 x3 x4 x5 x6 x7 x8 x9 x10 x11 x12 x13 _ x15 x16 x17
      x18 x19 x20 x21 x22 x23 x24) := s in
  mkState x1 x2 x3 x4 x5 x6 x7 x8 x9 x10 x11 x12 x13 v x15 x16 x17 x18
      x19 x20 x21 x22 x23 x24.

Definition set_currentAttentionRef (v : option Q) (s : State) : State :=
  let '(mkState x1 x2 x3 x4 x5 x6 x7 x8 x9 x10 x11 x12 x13 x14 _ x16 x17
      x18 x19 x20 x21 x22 x23 x24) := s in
  mkState x1 x2 x3 x4 x5 x6 x7 x8 x9 x10 x11 x12 x13 x14 v x16 x17 x18
      x19 x20 x21 x22 x23 x24.

Definition set_lastYouTubeTimeRef (v : Q) (s : State) : State :=
  let '(mkState x1 x2 x3 x4 x5 x6 x7 x8 x9 x10 x11 x12 x13 x14 x15 _ x17
      x18 x19 x20 x21 x22 x23 x24) := s in
  mkState x1 x2 x3 x4 x5 x6 x7 x8 x9 x10 x11 x12 x13 x14 x15 v x17 x18
      x19 x20 x21 x22 x23 x24.

Definition set_youtubeSeekCheckIntervalRef (v : option nat) (s : State)
    : State :=
  let '(mkState x1 x2 x3 x4 x5 x6 x7 x8 x9 x10 x11 x12 x13 x14 x15 x16 _
      x18 x19 x20 x21 x22 x23 x24) := s in
  mkState x1 x2 x3 x4 x5 x6 x7 x8 x9 x10 x11 x12 x13 x14 x15 x16 v x18
      x19 x20 x21 x22 x23 x24.

Definition set_timers (v : gmap nat Callback) (s : State) : State :=
  let '(mkState x1 x2 x3 x4 x5 x6 x7 x8 x9 x10 x11 x12 x13 x14 x15 x16
      x17 _ x19 x20 x21 x22 x23 x24) := s in
  mkState x1 x2 x3 x4 x5 x6 x7 x8 x9 x10 x11 x12 x13 x14 x15 x16 x17 v
      x19 x20 x21 x22 x23 x24.

Definition set_nextTimer (v : nat) (s : State) : State :=
  let '(mkState x1 x2 x3 x4 x5 x6 x7 x8 x9 x10 x11 x12 x13 x14 x15 x16
      x17 x18 _ x20 x21 x22 x23 x24) := s in
  mkState x1 x2 x3 x4 x5 x6 x7 x8 x9 x10 x11 x12 x13 x14 x15 x16 x17 x18
      v x20 x21 x22 x23 x24.

Definition set_windowYT (v : bool) (s : State) : State :=
  let '(mkState x1 x2 x3 x4 x5 x6 x7 x8 x9 x10 x11 x12 x13 x14 x15 x16
      x17 x18 x19 _ x21 x22 x23 x24) := s in
  mkState x1 x2 x3 x4 x5 x6 x7 x8 x9 x10 x11 x12 x13 x14 x15 x16 x17 x18
      x19 v x21 x22 x23 x24.

Definition set_nextPlayer (v : nat) (s : State) : State :=
  let '(mkState x1 x2 x3 x4 x5 x6 x7 x8 x9 x10 x11 x12 x13 x14 x15 x16
      x17 x18 x19 x20 _ x22 x23 x24) := s in
  mkState x1 x2 x3 x4 x5 x6 x7 x8 x9 x10 x11 x12 x13 x14 x15 x16 x17 x18
      x19 x20 v x22 x23 x24.

Definition set_ytPlayer (v : option YTPlayer) (s : State) : State :=
  let '(mkState x1 x2 x3 x4 x5 x6 x7 x8 x9 x10 x11 x12 x13 x14 x15 x16
      x17 x18 x19 x20 x21 _ x23 x24) := s in
  mkState x1 x2 x3 x4 x5 x6 x7 x8 x9 x10 x11 x12 x13 x14 x15 x16 x17 x18
      x19 x20 x21 v x23 x24.

Definition set_video (v : HTMLVideoElement) (s : State) : State :=
  let '(mkState x1 x2 x3 x4 x5 x6 x7 x8 x9 x10 x11 x12 x13 x14 x15 x16
      x17 x18 x19 x20 x21 x22 _ x24) := s in
  mkState x1 x2 x3 x4 x5 x6 x7 x8 x9 x10 x11 x12 x13 x14 x15 x16 x17 x18
      x19 x20 x21 x22 v x24.

Definition set_videoListeners (v : option VideoListeners) (s : State) :
    State :=
  let '(mkState x1 x2 x3 x4 x5 x6 x7 x8 x9 x10 x11 x12 x13 x14 x15 x16
      x17 x18 x19 x20 x21 x22 x23 _) := s in
  mkState x1 x2 x3 x4 x5 x6 x7 x8 x9 x10 x11 x12 x13 x14 x15 x16 x17 x18
      x19 x20 x21 x22 x23 v.

(** What a callback created during the render of [s] captures. *)
Definition capture (s : State) : Closure :=
  {| c_videoMode := videoMode s; c_player := player s |}.

(** The state after mounting: the [useState] and [useRef] initial values,
    no interval, no player, the IFrame API not loaded yet.  Handles returned
    by [setInterval] are positive. *)
Definition init : State :=
  {| youtubeUrl := ""; videoId := None; player := None;
     isStreaming := false; isCalibrated := false; calibrationPercent := 0;
     attentionData := []; showGraph := false; currentAttention := None;
     errorMessage := None; videoMode := youtube; uploadedVideoUrl := None;
     playerRef := None; trackingIntervalRef := None;
     currentAttentionRef := None; lastYouTubeTimeRef := 0;
     youtubeSeekCheckIntervalRef := None;
     timers := ∅; nextTimer := 1; windowYT := false; nextPlayer := 0;
     ytPlayer := None;
     video := {| currentTime := 0; seeking := false |};
     videoListeners := None |}.

(** *** Intervals *)

Definition setInterval (cb : Callback) (s : State) : nat * State :=
  let h := nextTimer s in
  (h, set_nextTimer (S h) (set_timers (<[h := cb]> (timers s)) s)).

Definition clearInterval (h : nat) (s : State) : State :=
  set_timers (delete h (timers s)) s.

(** [if (ref.current) { body(ref.current) }] for a handle ref. *)
Definition ifHandle (r : option nat) (body : nat -> State -> State)
    (s : State) : State :=
  match r with
  | Some h => if truthy_handle (Some h) then body h s else s
  | None => s
  end.

(** [htmlVideoRef.current] is the [<video>] element, which is rendered
    under [videoMode === 'file' && uploadedVideoUrl]. *)
Definition htmlVideoRef (s : State) : bool :=
  bool_decide (videoMode s = file) && truthy_string (uploadedVideoUrl s).

(** *** Sampling timer *)

Definition startAttentionTracking (c : Closure) (s : State) : State :=
  let s1 := ifHandle (trackingIntervalRef s) clearInterval s in
  let '(h, s2) := setInterval (TrackingTick c) s1 in
  set_trackingIntervalRef (Some h) s2.

Definition stopAttentionTracking (s : State) : State :=
  ifHandle (trackingIntervalRef s)
    (fun h s => set_trackingIntervalRef None (clearInterval h s)) s.

(** The body of the sampling callback.  [t] is what
    [player.getCurrentTime()] returns if it is called. *)
Definition trackingTick (c : Closure) (t : Q) (s : State) : State :=
  match currentAttentionRef s with
  | None => s
  | Some a =>
      let append ct :=
        set_attentionData
          (attentionData s ++ [{| time := Math_round ct; attention := a |}]) s in
      if bool_decide (c_videoMode c = youtube) && bool_decide (is_Some (c_player c))
      then append t
      else if bool_decide (c_videoMode c = file) && htmlVideoRef s
      then append (currentTime (video s))
      else s
  end.

(** *** YouTube player *)

Definition seekTo (t : Q) (s : State) : State :=
  match ytPlayer s with
  | Some p =>
      set_ytPlayer (Some {| yt_id := yt_id p; yt_seekedTo := Some t;
                            yt_isStreaming := yt_isStreaming p;
                            yt_closure := yt_closure p |}) s
  | None => s
  end.

(** The body of the seek check.  [t] is what
    [playerRef.current.getCurrentTime()] returns. *)
Definition seekCheck (c : Closure) (t : Q) (s : State) : State :=
  if bool_decide (is_Some (playerRef s)) && bool_decide (c_videoMode c = youtube)
  then
    if Qltb t (lastYouTubeTimeRef s - YOUTUBE_SEEK_THRESHOLD)%Q
    then seekTo (lastYouTubeTimeRef s) s
    else set_lastYouTubeTimeRef (Math_max (lastYouTubeTimeRef s) t) s
  else s.

(** [if (!isStreaming) { try { await startDataStream('emotions');
    setIsStreaming(true) } catch { setErrorMessage(...) } }], with the
    outcome [ok] of the request. *)
Definition startEmotionsStream (streaming ok : bool) (s : State) : State :=
  if negb streaming then
    if ok then set_isStreaming true s
    else set_errorMessage (Some "Ошибка при запуске отслеживания эмоций") s
  else s.

Definition onPlayerReady (p : YTPlayer) (ok : bool) (s : State) : State :=
  let s1 := startEmotionsStream (yt_isStreaming p) ok s in
  let s2 := ifHandle (youtubeSeekCheckIntervalRef s1) clearInterval s1 in
  let '(h, s3) := setInterval (SeekCheck (yt_closure p)) s2 in
  set_youtubeSeekCheckIntervalRef (Some h) s3.

Definition onPlayerStateChange (p : YTPlayer) (state : Z) (s : State) : State :=
  if bool_decide (state = PlayerState.PLAYING) then
    startAttentionTracking (yt_closure p) s
  else if bool_decide (state = PlayerState.PAUSED)
          || bool_decide (state = PlayerState.BUFFERING) then
    stopAttentionTracking s
  else if bool_decide (state = PlayerState.ENDED) then
    let s1 := set_showGraph true (stopAttentionTracking s) in
    ifHandle (youtubeSeekCheckIntervalRef s1)
      (fun h s => set_youtubeSeekCheckIntervalRef None (clearInterval h s)) s1
  else s.

(** *** Emotions feed *)

Definition handler (message : Types.WebSocketMessage) (s : State) : State :=
  if bool_decide (Types.type message = Types.emotions) then
    let data := Types.data message in
    match Types.calibration_percent data with
    | Some percent =>
        let s1 := set_calibrationPercent percent s in
        if Qgeb percent 100 then set_isCalibrated true s1 else s1
    | None =>
        match Types.rel_attention data with
        | Some a =>
            set_currentAttentionRef (Some a)
              (set_currentAttention (Some a) (set_isCalibrated true s))
        | None => s
        end
    end
  else s.

(** *** Local file *)

Definition handleFileUpload (f : option File) (url : string) (ok : bool)
    (s : State) : State :=
  match f with
  | None => s
  | Some f =>
      if negb (String.prefix "video/" (type f)) then
        set_errorMessage (Some "Пожалуйста, выберите видео файл.") s
      else
        (* [url] is what [URL.createObjectURL(file)] returns *)
        let s1 := set_uploadedVideoUrl (Some url) s in
        let s2 := set_videoMode file s1 in
        let s3 := set_videoId None s2 in
        let s4 := set_showGraph false s3 in
        let s5 := set_attentionData [] s4 in
        let s6 := set_errorMessage None s5 in
        startEmotionsStream (isStreaming s) ok s6
  end.

Definition handlePlay (l : VideoListeners) (s : State) : State :=
  startAttentionTracking (vl_closure l) s.

Definition handlePause (s : State) : State :=
  stopAttentionTracking s.

Definition handleEnded (s : State) : State :=
  set_showGraph true (stopAttentionTracking s).

Definition handleSeeking (l : VideoListeners) (s : State) : State :=
  let currentTime' := currentTime (video s) in
  if Qltb currentTime' (lastValidTime l - SEEK_TOLERANCE)%Q
  then set_video {| currentTime := lastValidTime l;
                    seeking := seeking (video s) |} s
  else s.

Definition handleTimeUpdate (l : VideoListeners) (s : State) : State :=
  if negb (seeking (video s))
  then set_videoListeners
         (Some {| lastValidTime := currentTime (video s);
                  vl_closure := vl_closure l |}) s
  else s.

(** *** URL form and mode buttons *)

Definition handleUrlSubmit (s : State) : State :=
  let s1 := set_errorMessage None s in
  let id := extractVideoId (youtubeUrl s) in
  if truthy_string id then
    set_attentionData [] (set_showGraph false (set_videoId id s1))
  else
    set_errorMessage
      (Some "Неверная ссылка на YouTube. Пожалуйста, введите корректную ссылку.")
      s1.

Definition clickYoutubeMode (s : State) : State :=
  set_attentionData []
    (set_showGraph false (set_uploadedVideoUrl None (set_videoMode youtube s))).

Definition clickFileMode (s : State) : State :=
  set_attentionData []
    (set_showGraph false (set_videoId None (set_videoMode file s))).

(** *** Effects

    After a render React runs, for every effect whose dependencies changed,
    first the cleanup its previous run returned, then its body; cleanups
    before bodies, each in the order of declaration.  [r] is the state that
    was rendered: the bodies take the [useState] values from it. *)

(** [if (playerRef.current) { playerRef.current.destroy() }]. *)
Definition destroyPlayer (s : State) : State :=
  match playerRef s with
  | Some _ => set_ytPlayer None s
  | None => s
  end.

(** [useEffect(..., [videoId])].  The cleanup destroys the player the
    previous run created; after a run that returned early there is no
    cleanup, and no player alive either. *)
Definition playerCleanup (s : State) : State := destroyPlayer s.

Definition playerEffect (r s : State) : State :=
  if negb (truthy_string (videoId r)) || negb (windowYT s) then s
  else
    let s1 := destroyPlayer s in
    let s2 := set_lastYouTubeTimeRef 0 s1 in
    let p := nextPlayer s2 in
    let newPlayer :=
      {| yt_id := p; yt_seekedTo := None; yt_isStreaming := isStreaming r;
         yt_closure := capture r |} in
    let s3 := set_nextPlayer (S p) (set_ytPlayer (Some newPlayer) s2) in
    let s4 := set_playerRef (Some p) s3 in
    let s5 := set_player (Some p) s4 in
    let s6 := set_showGraph false s5 in
    set_attentionData [] s6.

(** [useEffect(..., [uploadedVideoUrl, videoMode])]. *)
Definition videoCleanup (s : State) : State :=
  set_videoListeners None s.

Definition videoEffect (r s : State) : State :=
  if negb (htmlVideoRef r) || negb (bool_decide (videoMode r = file)) then s
  else set_videoListeners
         (Some {| lastValidTime := 0; vl_closure := capture r |}) s.

(** [useEffect(() => () => {...}, [uploadedVideoUrl])]: the body only
    returns the cleanup.  Its requests to the backend and
    [URL.revokeObjectURL] change nothing in the component. *)
Definition unmountCleanup (s : State) : State :=
  let s1 := stopAttentionTracking s in
  ifHandle (youtubeSeekCheckIntervalRef s1) clearInterval s1.

Definition runEffects (prev r : State) : State :=
  let dVideoId := negb (bool_decide (videoId prev = videoId r)) in
  let dUrl := negb (bool_decide (uploadedVideoUrl prev = uploadedVideoUrl r)) in
  let dMode := negb (bool_decide (videoMode prev = videoMode r)) in
  let s1 := if dVideoId then playerCleanup r else r in
  let s2 := if dUrl || dMode then videoCleanup s1 else s1 in
  let s3 := if dUrl then unmountCleanup s2 else s2 in
  let s4 := if dVideoId then playerEffect r s3 else s3 in
  if dUrl || dMode then videoEffect r s4 else s4.

(** *** Events

    What reaches the mounted component.  A form control acts only while it
    is rendered, a player or element callback only while the player is
    alive or the listeners are attached, an interval only while it is in the
    table. *)
Inductive Event :=
| SetYoutubeUrl (url : string)
| UrlSubmit
| FileChange (f : option File) (url : string) (ok : bool)
| ClickYoutubeMode
| ClickFileMode
| YTApiLoaded
| PlayerReady (ok : bool)
| PlayerStateChange (state : Z)
| WsMessage (message : Types.WebSocketMessage)
| IntervalFire (h : nat) (t : Q)
| VideoPlay
| VideoPause
| VideoEnded
| VideoSeeking (t : Q)
| VideoSeeked
| VideoTimeUpdate (t : Q).

Definition withPlayer (k : YTPlayer -> State -> State) (s : State) : State :=
  match ytPlayer s with Some p => k p s | None => s end.

Definition withListeners (k : VideoListeners -> State -> State) (s : State)
    : State :=
  match videoListeners s with Some l => k l s | None => s end.

Definition step (e : Event) (s : State) : State :=
  match e with
  | SetYoutubeUrl url =>
      if bool_decide (videoMode s = youtube) then set_youtubeUrl url s else s
  | UrlSubmit =>
      if bool_decide (videoMode s = youtube)
      then runEffects s (handleUrlSubmit s) else s
  | FileChange f url ok =>
      if bool_decide (videoMode s = file)
      then runEffects s (handleFileUpload f url ok s) else s
  | ClickYoutubeMode => runEffects s (clickYoutubeMode s)
  | ClickFileMode => runEffects s (clickFileMode s)
  | YTApiLoaded => set_windowYT true s
  | PlayerReady ok => withPlayer (fun p => onPlayerReady p ok) s
  | PlayerStateChange state =>
      withPlayer (fun p => onPlayerStateChange p state) s
  | WsMessage message => handler message s
  | IntervalFire h t =>
      match timers s !! h with
      | Some (TrackingTick c) => trackingTick c t s
      | Some (SeekCheck c) => seekCheck c t s
      | None => s
      end
  | VideoPlay => withListeners handlePlay s
  | VideoPause => withListeners (fun _ => handlePause) s
  | VideoEnded => withListeners (fun _ => handleEnded) s
  | VideoSeeking t =>
      withListeners
        (fun l s => handleSeeking l
                      (set_video {| currentTime := t; seeking := true |} s)) s
  | VideoSeeked =>
      withListeners
        (fun _ s => set_video {| currentTime := currentTime (video s);
                                 seeking := false |} s) s
  | VideoTimeUpdate t =>
      withListeners
        (fun l s => handleTimeUpdate l
                      (set_video {| currentTime := t;
                                    seeking := seeking (video s) |} s)) s
  end.

(** The state after a sequence of events, oldest first. *)
Definition run (evs : list Event) (s : State) : State :=
  foldl (fun s e => step e s) s evs.

(** The live sampling intervals. *)
Definition isTracking (cb : Callback) : bool :=
  match cb with TrackingTick _ => true | SeekCheck _ => false end.

Definition samplingTimers (s : State) : gmap nat Callback :=
  filter (fun kv => isTracking kv.2 = true) (timers s).

(** The live seek-check intervals. *)
Definition seekCheckTimers (s : State) : gmap nat Callback :=
  filter (fun kv => isTracking kv.2 = false) (timers s).

(** *** formatTime

    The chart passes the [time] of a data point, an integer
    ([Math.round]).  [Number.prototype.toString] of an integer is its
    decimal notation; [padStart(2, '0')] fills on the left up to two
    characters. *)
Definition Number_toString (n : Z) : string :=
  NilZero.string_of_int (Z.to_int n).

Fixpoint repeatChar (n : nat) (c : Ascii.ascii) : string :=
  match n with
  | O => EmptyString
  | S n' => String c (repeatChar n' c)
  end.

Definition padStart (targetLength : nat) (c : Ascii.ascii) (s : string)
    : string :=
  String.append (repeatChar (targetLength - String.length s) c) s.

(** [Math.floor(seconds / 60)] is the floor quotient, [seconds % 60] the
    remainder with the sign of [seconds]. *)
Definition formatTime (seconds : Z) : string :=
  let mins := (seconds / 60)%Z in
  let secs := Z.rem seconds 60 in
  String.append (Number_toString mins)
    (String ":" (padStart 2 "0" (Number_toString secs))).

(** *** What is rendered *)

(** [{isStreaming && !isCalibrated && ...}]: the calibration bar. *)
Definition showsCalibration (s : State) : bool :=
  isStreaming s && negb (isCalibrated s).

(** [{isCalibrated && currentAttention !== null && ...}]. *)
Definition showsCurrentAttention (s : State) : bool :=
  isCalibrated s && bool_decide (is_Some (currentAttention s)).

End VideoAttentionTracker.

(** ** EmotionsViewer *)

Module EmotionsViewer.

Record State := mkState {
  isStreaming : bool;
  emotionsData : option Types.EmotionsData;
  isCalibrating : bool }.

Definition init : State :=
  {| isStreaming := false; emotionsData := None; isCalibrating := false |}.

Definition set_isCalibrating (v : bool) (s : State) : State :=
  {| isStreaming := isStreaming s; emotionsData := emotionsData s;
     isCalibrating := v |}.

Definition set_emotionsData (v : option Types.EmotionsData) (s : State)
    : State :=
  {| isStreaming := isStreaming s; emotionsData := v;
     isCalibrating := isCalibrating s |}.

Definition handler (message : Types.WebSocketMessage) (s : State)
    : State :=
  if bool_decide (Types.type message = Types.emotions) then
    let data := Types.data message in
    let s1 := set_emotionsData (Some data) s in
    if bool_decide (is_Some (Types.calibration_percent data)) then
      set_isCalibrating true s1
    else if bool_decide (is_Some (Types.rel_relaxation data))
            || bool_decide (is_Some (Types.rel_attention data)) then
      set_isCalibrating false s1
    else s1
  else s.

(** [handleStartStop], with the outcome [ok] of the request. *)
Definition handleStartStop (ok : bool) (s : State) : State :=
  if negb ok then s
  else if isStreaming s then
    {| isStreaming := false; emotionsData := None; isCalibrating := false |}
  else
    {| isStreaming := true; emotionsData := emotionsData s;
       isCalibrating := isCalibrating s |}.

Definition run (ms : list Types.WebSocketMessage) (s : State) : State :=
  foldl (fun s m => handler m s) s ms.

(** [RELAXATION_CONFIG]. *)
Record Level := {
  threshold : option Q;
  label : string;
  color : string }.

Definition tension : Level :=
  {| threshold := Some 0.3%Q; label := "Напряжен"; color := "#ff4444" |}.
Definition normal : Level :=
  {| threshold := Some 0.7%Q; label := "Норма"; color := "#ffaa00" |}.
Definition relaxed : Level :=
  {| threshold := None; label := "Расслаблен"; color := "#44ff44" |}.

(** [value < level.threshold], for a level that has a threshold. *)
Definition below (v : Q) (l : Level) : bool :=
  match threshold l with Some t => Qltb v t | None => false end.

Definition getRelaxationLevel (value : option Q) : string :=
  match value with
  | None => "N/A"
  | Some v =>
      if below v tension then label tension
      else if below v normal then label normal
      else label relaxed
  end.

Definition getRelaxationColor (value : option Q) : string :=
  match value with
  | None => "#666"
  | Some v =>
      if below v tension then color tension
      else if below v normal then color normal
      else color relaxed
  end.

(** Two blocks of the view: the calibration panel
    ([isCalibrating && emotionsData?.calibration_percent !== undefined])
    and the metrics ([!isCalibrating && emotionsData]). *)
Definition showsCalibration (s : State) : bool :=
  isCalibrating s
  && match emotionsData s with
     | Some d => bool_decide (is_Some (Types.calibration_percent d))
     | None => false
     end.

Definition showsMetrics (s : State) : bool :=
  negb (isCalibrating s) && bool_decide (is_Some (emotionsData s)).

(** The data of the last emotions message of [ms]. *)
Definition lastEmotions (ms : list Types.WebSocketMessage)
    : option Types.EmotionsData :=
  foldl (fun acc m =>
           if bool_decide (Types.type m = Types.emotions)
           then Some (Types.data m) else acc) None ms.

End EmotionsViewer.

(** ** WebSocketService (services/websocket.ts)

    The class with the part of the browser it drives: the sockets it
    created with their [readyState], the promise each [connect()] returned,
    and the pending [setTimeout] handles.  A message handler is a function
    and is known by its identity, a number; the [Set] of handlers keeps
    insertion order, which is the order of [forEach].  What the class does
    to the outside is recorded: the frames handed to [ws.send] and the
    handler calls.  Handlers are taken to return normally. *)

Module WebSocketService.

Inductive ReadyState := CONNECTING | OPEN | CLOSING | CLOSED.

Global Instance ReadyState_eq_dec : EqDecision ReadyState.
Proof. solve_decision. Defined.

(** A promise settles once: the first [resolve] or [reject] wins. *)
Inductive Promise := Pending | Resolved | Rejected.

Global Instance Promise_eq_dec : EqDecision Promise.
Proof. solve_decision. Defined.

Record Service := mkService {
  (* fields of the class *)
  ws : option nat;
  messageHandlers : list nat;
  reconnectInterval : nat;
  reconnectTimer : option nat;
  shouldReconnect : bool;
  (* browser *)
  sockets : gmap nat ReadyState;
  promises : gmap nat Promise;
  nextSocket : nat;
  timeouts : gmap nat nat;
  nextTimeout : nat;
  (* effects on the outside *)
  sent : list (nat * string);
  calls : list (nat * Types.WebSocketMessage) }.

Definition set_ws (v : option nat) (s : Service) : Service :=
  let '(mkService _ x2 x3 x4 x5 x6 x7 x8 x9 x10 x11 x12) := s in
  mkService v x2 x3 x4 x5 x6 x7 x8 x9 x10 x11 x12.

Definition set_messageHandlers (v : list nat) (s : Service) : Service :=
  let '(mkService x1 _ x3 x4 x5 x6 x7 x8 x9 x10 x11 x12) := s in
  mkService x1 v x3 x4 x5 x6 x7 x8 x9 x10 x11 x12.

Definition set_reconnectInterval (v : nat) (s : Service) : Service :=
  let '(mkService x1 x2 _ x4 x5 x6 x7 x8 x9 x10 x11 x12) := s in
  mkService x1 x2 v x4 x5 x6 x7 x8 x9 x10 x11 x12.

Definition set_reconnectTimer (v : option nat) (s : Service) : Service :=
  let '(mkService x1 x2 x3 _ x5 x6 x7 x8 x9 x10 x11 x12) := s in
  mkService x1 x2 x3 v x5 x6 x7 x8 x9 x10 x11 x12.

Definition set_shouldReconnect (v : bool) (s : Service) : Service :=
  let '(mkService x1 x2 x3 x4 _ x6 x7 x8 x9 x10 x11 x12) := s in
  mkService x1 x2 x3 x4 v x6 x7 x8 x9 x10 x11 x12.

Definition set_sockets (v : gmap nat ReadyState) (s : Service) : Service :=
  let '(mkService x1 x2 x3 x4 x5 _ x7 x8 x9 x10 x11 x12) := s in
  mkService x1 x2 x3 x4 x5 v x7 x8 x9 x10 x11 x12.

Definition set_promises (v : gmap nat Promise) (s : Service) : Service :=
  let '(mkService x1 x2 x3 x4 x5 x6 _ x8 x9 x10 x11 x12) := s in
  mkService x1 x2 x3 x4 x5 x6 v x8 x9 x10 x11 x12.

Definition set_nextSocket (v : nat) (s : Service) : Service :=
  let '(mkService x1 x2 x3 x4 x5 x6 x7 _ x9 x10 x11 x12) := s in
  mkService x1 x2 x3 x4 x5 x6 x7 v x9 x10 x11 x12.

Definition set_timeouts (v : gmap nat nat) (s : Service) : Service :=
  let '(mkService x1 x2 x3 x4 x5 x6 x7 x8 _ x10 x11 x12) := s in
  mkService x1 x2 x3 x4 x5 x6 x7 x8 v x10 x11 x12.

Definition set_nextTimeout (v : nat) (s : Service) : Service :=
  let '(mkService x1 x2 x3 x4 x5 x6 x7 x8 x9 _ x11 x12) := s in
  mkService x1 x2 x3 x4 x5 x6 x7 x8 x9 v x11 x12.

Definition set_sent (v : list (nat * string)) (s : Service) : Service :=
  let '(mkService x1 x2 x3 x4 x5 x6 x7 x8 x9 x10 _ x12) := s in
  mkService x1 x2 x3 x4 x5 x6 x7 x8 x9 x10 v x12.

Definition set_calls (v : list (nat * Types.WebSocketMessage)) (s :
    Service) : Service :=
  let '(mkService x1 x2 x3 x4 x5 x6 x7 x8 x9 x10 x11 _) := s in
  mkService x1 x2 x3 x4 x5 x6 x7 x8 x9 x10 x11 v.


(** The singleton after construction.  Timeout handles are positive. *)
Definition init : Service :=
  {| ws := None; messageHandlers := []; reconnectInterval := 5000;
     reconnectTimer := None; shouldReconnect := true;
     sockets := ∅; promises := ∅; nextSocket := 0;
     timeouts := ∅; nextTimeout := 1; sent := []; calls := [] |}.

Definition setTimeout (delay : nat) (s : Service) : nat * Service :=
  let h := nextTimeout s in
  (h, set_nextTimeout (S h) (set_timeouts (<[h := delay]> (timeouts s)) s)).

Definition clearTimeout (h : nat) (s : Service) : Service :=
  set_timeouts (delete h (timeouts s)) s.

(** [resolve()] or [reject(error)] of the promise of socket [id]. *)
Definition settle (id : nat) (r : Promise) (s : Service) : Service :=
  match promises s !! id with
  | Some Pending => set_promises (<[id := r]> (promises s)) s
  | _ => s
  end.

(** [if (this.reconnectTimer) { clearTimeout(this.reconnectTimer);
    this.reconnectTimer = null }]. *)
Definition clearReconnectTimer (s : Service) : Service :=
  match reconnectTimer s with
  | Some h =>
      if truthy_handle (Some h)
      then set_reconnectTimer None (clearTimeout h s)
      else s
  | None => s
  end.

(** [connect()]: a new socket, in state CONNECTING, becomes [this.ws]; its
    four callbacks are the definitions below. *)
Definition connect (s : Service) : Service :=
  let id := nextSocket s in
  set_nextSocket (S id)
    (set_promises (<[id := Pending]> (promises s))
       (set_sockets (<[id := CONNECTING]> (sockets s))
          (set_ws (Some id) s))).

Definition onopen (id : nat) (s : Service) : Service :=
  settle id Resolved (clearReconnectTimer s).

(** [parsed] is the outcome of [JSON.parse(event.data)]; [None] when it
    throws. *)
Definition onmessage (parsed : option Types.WebSocketMessage) (s : Service)
    : Service :=
  match parsed with
  | Some message =>
      set_calls
        (calls s ++ map (fun handler => (handler, message)) (messageHandlers s))
        s
  | None => s
  end.

Definition onerror (id : nat) (s : Service) : Service :=
  settle id Rejected s.

Definition onclose (s : Service) : Service :=
  let s1 := set_ws None s in
  if shouldReconnect s1 then
    let '(h, s2) := setTimeout (reconnectInterval s1) s1 in
    set_reconnectTimer (Some h) s2
  else s1.

(** [WebSocket.close()]: a socket that is connecting or open starts
    closing. *)
Definition close (id : nat) (s : Service) : Service :=
  match sockets s !! id with
  | Some CONNECTING | Some OPEN =>
      set_sockets (<[id := CLOSING]> (sockets s)) s
  | _ => s
  end.

Definition disconnect (s : Service) : Service :=
  let s1 := set_shouldReconnect false s in
  let s2 := clearReconnectTimer s1 in
  match ws s2 with
  | Some id => set_ws None (close id s2)
  | None => s2
  end.

Definition isConnected (s : Service) : bool :=
  match ws s with
  | Some id => bool_decide (sockets s !! id = Some OPEN)
  | None => false
  end.

(** [json] is [JSON.stringify(message)]. *)
Definition send (json : string) (s : Service) : Service :=
  match ws s with
  | Some id =>
      if bool_decide (sockets s !! id = Some OPEN)
      then set_sent (sent s ++ [(id, json)]) s
      else s
  | None => s
  end.

Definition addMessageHandler (handler : nat) (s : Service) : Service :=
  if bool_decide (handler ∈ messageHandlers s) then s
  else set_messageHandlers (messageHandlers s ++ [handler]) s.

Definition removeMessageHandler (handler : nat) (s : Service) : Service :=
  set_messageHandlers
    (filter (fun h => h ≠ handler) (messageHandlers s)) s.

(** Calls of the methods, and what the browser does: a connecting socket
    opens, an open socket receives a message, a socket that is not closed
    fails or closes, a pending timeout fires.  The timeout callback of
    [onclose] calls [connect()]. *)
Inductive Event :=
| Connect
| Disconnect
| Send (json : string)
| AddMessageHandler (handler : nat)
| RemoveMessageHandler (handler : nat)
| SockOpen (id : nat)
| SockMessage (id : nat) (parsed : option Types.WebSocketMessage)
| SockError (id : nat)
| SockClose (id : nat)
| TimeoutFire (h : nat).

Definition step (e : Event) (s : Service) : Service :=
  match e with
  | Connect => connect s
  | Disconnect => disconnect s
  | Send json => send json s
  | AddMessageHandler h => addMessageHandler h s
  | RemoveMessageHandler h => removeMessageHandler h s
  | SockOpen id =>
      match sockets s !! id with
      | Some CONNECTING =>
          onopen id (set_sockets (<[id := OPEN]> (sockets s)) s)
      | _ => s
      end
  | SockMessage id parsed =>
      match sockets s !! id with
      | Some OPEN => onmessage parsed s
      | _ => s
      end
  | SockError id =>
      match sockets s !! id with
      | Some CLOSED | None => s
      | Some _ => onerror id s
      end
  | SockClose id =>
      match sockets s !! id with
      | Some CLOSED | None => s
      | Some _ => onclose (set_sockets (<[id := CLOSED]> (sockets s)) s)
      end
  | TimeoutFire h =>
      match timeouts s !! h with
      | Some _ => connect (clearTimeout h s)
      | None => s
      end
  end.

Definition run (evs : list Event) (s : Service) : Service :=
  foldl (fun s e => step e s) s evs.

(** The sockets that are not closed, and what the browser does on its
    own (everything but the method calls). *)
Definition liveSockets (s : Service) : gmap nat ReadyState :=
  filter (fun kv => kv.2 ≠ CLOSED) (sockets s).

Definition isBrowserEvent (e : Event) : bool :=
  match e with
  | SockOpen _ | SockMessage _ _ | SockError _ | SockClose _
  | TimeoutFire _ => true
  | _ => false
  end.

(** Whether [handler] is in the set after the calls of [evs]: the last
    [addMessageHandler] or [removeMessageHandler] of it decides. *)
Definition registered (handler : nat) (evs : list Event) : bool :=
  foldl (fun b e =>
           match e with
           | AddMessageHandler h => if decide (h = handler) then true else b
           | RemoveMessageHandler h =>
               if decide (h = handler) then false else b
           | _ => b
           end) false evs.

(** What the connection logic reads and writes. *)
Definition netView (s : Service) :=
  (ws s, reconnectTimer s, shouldReconnect s, sockets s, timeouts s,
   nextTimeout s).

(** The service while [connect()] is called by the application once: a
    pending timeout is the reconnect timer, and waits while every socket is
    closed; a socket that is not closed is the current one, or is closing
    after [disconnect()]; there is one such socket at most. *)
Definition SingleOK (ws reconnectTimer : option nat) (shouldReconnect : bool)
    (sockets : gmap nat ReadyState) (timeouts : gmap nat nat)
    (nextTimeout : nat) : Prop :=
  (∀ h d, timeouts !! h = Some d →
          reconnectTimer = Some h ∧ 1 ≤ h
          ∧ ∀ id st, sockets !! id = Some st → st = CLOSED)
  ∧ 1 ≤ nextTimeout
  ∧ (∀ id st, sockets !! id = Some st → st ≠ CLOSED →
              ws = Some id
              ∨ (ws = None ∧ st = CLOSING ∧ shouldReconnect = false))
  ∧ (∀ id id' st st',
       sockets !! id = Some st → sockets !! id' = Some st' →
       st ≠ CLOSED → st' ≠ CLOSED → id = id')
  ∧ (shouldReconnect = false → timeouts = ∅).

Definition singleInv (s : Service) : Prop :=
  SingleOK (ws s) (reconnectTimer s) (shouldReconnect s) (sockets s)
    (timeouts s) (nextTimeout s).

(** The service after [disconnect()], when no [connect()] follows. *)
Definition offInv (s : Service) : Prop :=
  shouldReconnect s = false ∧ timeouts s = ∅ ∧ ws s = None
  ∧ ∀ id st, sockets s !! id = Some st → st = CLOSING ∨ st = CLOSED.

End WebSocketService.

(** ** App (App.tsx): the WebSocket indicator

    The mount effect calls [wsService.connect()] and sets [wsConnected]
    when the promise of that call resolves; its cleanup calls
    [disconnect()].  The children register and remove their handlers. *)

Module App.

Import WebSocketService.

Inductive Tab := signal | resistance | emotions | video.

Record State := mkState {
  service : Service;
  connected : bool;
  wsConnected : bool;
  activeTab : Tab;
  (* the socket of the [connect()] call the effect waits for *)
  awaited : option nat }.

(** Before the mount effect has run. *)
Definition init : State :=
  {| service := WebSocketService.init; connected := false;
     wsConnected := false; activeTab := signal; awaited := None |}.

Inductive Event :=
| Mount
| Unmount
| Browser (e : WebSocketService.Event)
| ChildMount (handler : nat)
| ChildUnmount (handler : nat)
| DeviceConnected
| DeviceDisconnected
| SetActiveTab (t : Tab).

(** The [then] callback runs when the awaited promise goes from pending
    to resolved. *)
Definition resolvedNow (id : nat) (before after : Service) : bool :=
  bool_decide (promises before !! id = Some Pending)
  && bool_decide (promises after !! id = Some Resolved).

Definition withService (f : Service -> Service) (s : State) : State :=
  let svc := f (service s) in
  let now :=
    match awaited s with
    | Some id => resolvedNow id (service s) svc
    | None => false
    end in
  {| service := svc; connected := connected s;
     wsConnected := if now then true else wsConnected s;
     activeTab := activeTab s; awaited := awaited s |}.

Definition step (e : Event) (s : State) : State :=
  match e with
  | Mount =>
      {| service := connect (service s); connected := connected s;
         wsConnected := wsConnected s; activeTab := activeTab s;
         awaited := Some (nextSocket (service s)) |}
  | Unmount => withService disconnect s
  | Browser e =>
      if isBrowserEvent e then withService (WebSocketService.step e) s else s
  | ChildMount h => withService (addMessageHandler h) s
  | ChildUnmount h => withService (removeMessageHandler h) s
  | DeviceConnected =>
      {| service := service s; connected := true;
         wsConnected := wsConnected s; activeTab := activeTab s;
         awaited := awaited s |}
  | DeviceDisconnected =>
      {| service := service s; connected := false;
         wsConnected := wsConnected s; activeTab := activeTab s;
         awaited := awaited s |}
  | SetActiveTab t =>
      {| service := service s; connected := connected s;
         wsConnected := wsConnected s; activeTab := t;
         awaited := awaited s |}
  end.

(** The life of the mounted application: the mount effect, then anything
    but a second mount. *)
Definition run (evs : list Event) : State :=
  foldl (fun s e => step e s) (step Mount init) evs.

Definition isMount (e : Event) : bool :=
  match e with Mount => true | _ => false end.

(** The call or browser event an event of the application is for the
    service, if any. *)
Definition toService (e : Event) : option WebSocketService.Event :=
  match e with
  | Unmount => Some Disconnect
  | Browser e => if isBrowserEvent e then Some e else None
  | ChildMount h => Some (AddMessageHandler h)
  | ChildUnmount h => Some (RemoveMessageHandler h)
  | _ => None
  end.

(** The promise the mount effect waits for is that of socket 0, and the
    indicator tells whether it has resolved. *)
Definition indicatorInv (s : State) : Prop :=
  awaited s = Some 0 ∧ 1 ≤ nextSocket (service s)
  ∧ is_Some (promises (service s) !! 0)
  ∧ (wsConnected s = true ↔ promises (service s) !! 0 = Some Resolved).

End App.

(** ** SignalViewer (components/SignalViewer.tsx) *)

Module SignalViewer.

Record SignalData := {
  O1 : Q;
  O2 : Q;
  T3 : Q;
  T4 : Q }.

(** [SignalData & { time: number }]. *)
Record Sample := {
  sample : SignalData;
  time : Z }.

(** What the handler reads of a message: its type and, under
    [Array.isArray(message.data)], the array. *)
Record Message := {
  type : Types.MessageType;
  data : option (list SignalData) }.

Record State := mkState {
  isStreaming : bool;
  signalData : list Sample }.

Definition init : State := {| isStreaming := false; signalData := [] |}.

Definition maxDataPoints : nat := 100.

(** [array.slice(-n)], for [n > 0]: the last [n] elements, all of them when
    there are fewer. *)
Definition slice_last (n : nat) {A} (l : list A) : list A :=
  drop (length l - n) l.

(** [data.map((sample, index) => ({...sample, time: now + index}))]. *)
Definition stamp (now : Z) (d : list SignalData) : list Sample :=
  imap (fun index x => {| sample := x; time := now + Z.of_nat index |}) d.

(** The handler; [now] is [Date.now()]. *)
Definition handler (now : Z) (message : Message) (s : State) : State :=
  if bool_decide (type message = Types.signal) then
    match data message with
    | Some d =>
        {| isStreaming := isStreaming s;
           signalData :=
             slice_last maxDataPoints (signalData s ++ stamp now d) |}
    | None => s
    end
  else s.

(** [handleStartStop], with the outcome [ok] of the request. *)
Definition handleStartStop (ok : bool) (s : State) : State :=
  if negb ok then s
  else if isStreaming s then {| isStreaming := false; signalData := [] |}
  else {| isStreaming := true; signalData := signalData s |}.

Definition run (ms : list (Z * Message)) (s : State) : State :=
  foldl (fun s m => handler m.1 m.2 s) s ms.

(** All the samples of a sequence of messages, stamped, oldest first. *)
Definition received (ms : list (Z * Message)) : list Sample :=
  concat
    (map (fun m =>
            if bool_decide (type m.2 = Types.signal)
            then match data m.2 with Some d => stamp m.1 d | None => [] end
            else []) ms).

End SignalViewer.

(** * Properties *)

Import VideoAttentionTracker.

(** ** Notions used in the statements *)

(** The sampling timer is running: a sampling interval is live. *)
Definition timerRunning (s : State) : bool :=
  bool_decide (samplingTimers s ≠ ∅).

(** The event [e] appends no sample in state [s]: afterwards the series
    buffer is what it was, or it has been cleared. *)
Definition noAppend (e : Event) (s : State) : Prop :=
  attentionData (step e s) = attentionData s ∨ attentionData (step e s) = [].

(** The playback state the component was last notified of is "playing". *)
Definition playbackPlaying (evs : list Event) : bool :=
  foldl (fun b e =>
           match e with
           | PlayerStateChange state => bool_decide (state = PlayerState.PLAYING)
           | VideoPlay => true
           | VideoPause | VideoEnded => false
           | _ => b
           end) false evs.

(** The session state Tracking of the specification (calibration complete
    and playback playing), after the events [evs]. *)
Definition Tracking (evs : list Event) : bool :=
  isCalibrated (run evs init) && playbackPlaying evs.

(** The calibration events of the specification: an event that carries a
    percent of at least 100, or a reading event (one without a percent)
    that carries [rel_attention]. *)
Definition fullPercent (d : Types.EmotionsData) : bool :=
  match Types.calibration_percent d with
  | Some p => Qgeb p 100
  | None => false
  end.

Definition readingWithAttention (d : Types.EmotionsData) : bool :=
  bool_decide (Types.calibration_percent d = None)
  && bool_decide (is_Some (Types.rel_attention d)).

Definition completesCalibration (e : Event) : bool :=
  match e with
  | WsMessage m =>
      bool_decide (Types.type m = Types.emotions)
      && (fullPercent (Types.data m) || readingWithAttention (Types.data m))
  | _ => false
  end.

(** Playback starts: the player reports "playing" or the element fires
    [play]. *)
Definition startsPlayback (e : Event) : bool :=
  match e with
  | PlayerStateChange state => bool_decide (state = PlayerState.PLAYING)
  | VideoPlay => true
  | _ => false
  end.

(** The video ends: the live player reports "ended", or the element with
    its listeners attached fires [ended]. *)
Definition finishes (e : Event) (s : State) : Prop :=
  (e = PlayerStateChange PlayerState.ENDED ∧ is_Some (ytPlayer s))
  ∨ (e = VideoEnded ∧ is_Some (videoListeners s)).

(** A video is loaded: a URL with a video id is submitted, or a video
    file is selected. *)
Definition loads (e : Event) (s : State) : Prop :=
  (e = UrlSubmit ∧ videoMode s = youtube
   ∧ is_Some (VideoUrl.extractVideoId (youtubeUrl s)))
  ∨ (∃ f url ok, e = FileChange (Some f) url ok ∧ videoMode s = file
                 ∧ String.prefix "video/" (type f) = true).

(** The feed as the tracker reads it: the percent of the last emotions
    event that carried one, and the [rel_attention] of the last emotions
    event that carried one and no percent. *)
Definition percentOf (e : Event) : option Q :=
  match e with
  | WsMessage m =>
      if bool_decide (Types.type m = Types.emotions)
      then Types.calibration_percent (Types.data m) else None
  | _ => None
  end.

Definition attentionOf (e : Event) : option Q :=
  match e with
  | WsMessage m =>
      if bool_decide (Types.type m = Types.emotions)
      then match Types.calibration_percent (Types.data m) with
           | Some _ => None
           | None => Types.rel_attention (Types.data m)
           end
      else None
  | _ => None
  end.

Definition lastOf {A} (f : Event → option A) (evs : list Event) : option A :=
  foldl (fun acc e => match f e with Some a => Some a | None => acc end)
    None evs.

(** The events after which React renders with new dependencies, and the
    events of the [<video>] element that change it. *)
Definition rendersAnew (e : Event) : bool :=
  match e with
  | UrlSubmit | FileChange _ _ _ | ClickYoutubeMode | ClickFileMode => true
  | _ => false
  end.

Definition isElementEvent (e : Event) : bool :=
  match e with
  | VideoSeeking _ | VideoSeeked | VideoTimeUpdate _ => true
  | _ => false
  end.

(** The video ends (whether or not anything listens). *)
Definition isEnd (e : Event) : bool :=
  match e with
  | PlayerStateChange state => bool_decide (state = PlayerState.ENDED)
  | VideoEnded => true
  | _ => false
  end.

(** The live seek checks are the one [youtubeSeekCheckIntervalRef]
    holds, and that handle is positive. *)
Definition seekInv (s : State) : Prop :=
  (∀ h c, timers s !! h = Some (SeekCheck c) →
          youtubeSeekCheckIntervalRef s = Some h)
  ∧ (∀ h, youtubeSeekCheckIntervalRef s = Some h → 0 < h).

(** No sampling callback made in YouTube mode holds a player. *)
Definition noPlayerCaptured (tm : gmap nat Callback) : Prop :=
  ∀ h c, tm !! h = Some (TrackingTick c) →
         c_videoMode c = youtube → c_player c = None.

(** What the callbacks have captured while at most one player has been
    created: no YouTube-mode closure holds a player; and with no file
    loaded the buffer is empty. *)
Definition firstPlayerInv (s : State) : Prop :=
  (nextPlayer s = 0 → player s = None)
  ∧ (nextPlayer s ≤ 1 →
     ∀ p, ytPlayer s = Some p → c_player (yt_closure p) = None)
  ∧ (nextPlayer s ≤ 1 → noPlayerCaptured (timers s))
  ∧ (∀ l, videoListeners s = Some l → c_videoMode (vl_closure l) = file)
  ∧ (uploadedVideoUrl s = None → nextPlayer s ≤ 1 → attentionData s = []).

(** The listeners of the element are attached exactly while the element
    is rendered, and their closure was made in file mode. *)
Definition listenersInv (s : State) : Prop :=
  (is_Some (videoListeners s) ↔ htmlVideoRef s = true)
  ∧ (∀ l, videoListeners s = Some l → c_videoMode (vl_closure l) = file).

Definition listenersView (s : State) :=
  (videoListeners s, videoMode s, uploadedVideoUrl s).

(** ** Invariants of the interval table *)

(** Handles are fresh and positive; the sampling intervals that are live
    are exactly the one [trackingIntervalRef] holds; the handle kept in
    [youtubeSeekCheckIntervalRef] (possibly already cleared) never names a
    sampling interval. *)
Record TimerOK (tm : gmap nat Callback) (nx : nat) (tr sk : option nat)
  : Prop := {
  ok_next : 0 < nx;
  ok_bound : ∀ h cb, tm !! h = Some cb → h < nx;
  ok_ref_live :
    ∀ h, tr = Some h → 0 < h ∧ ∃ c, tm !! h = Some (TrackingTick c);
  ok_live_ref : ∀ h c, tm !! h = Some (TrackingTick c) → tr = Some h;
  ok_seek :
    ∀ h, sk = Some h → h < nx ∧ ∀ c, tm !! h ≠ Some (TrackingTick c) }.

Definition timerInv (s : State) : Prop :=
  TimerOK (timers s) (nextTimer s) (trackingIntervalRef s)
    (youtubeSeekCheckIntervalRef s).

(** Before calibration completes no attention value is known and the
    series buffer is empty. *)
Definition calInv (s : State) : Prop :=
  isCalibrated s = false →
  currentAttentionRef s = None ∧ attentionData s = [].

Definition timerView (s : State) :=
  (timers s, nextTimer s, trackingIntervalRef s,
   youtubeSeekCheckIntervalRef s).

Definition calView (s : State) :=
  (isCalibrated s, currentAttentionRef s, attentionData s).

(** From [s] to [s'] calibration and the latest attention value are kept,
    and the series buffer is kept or cleared. *)
Definition calFrame (s s' : State) : Prop :=
  isCalibrated s' = isCalibrated s
  ∧ currentAttentionRef s' = currentAttentionRef s
  ∧ (attentionData s' = attentionData s ∨ attentionData s' = []).

(** Reduce a handler on an explicit state and split on its tests. *)
Ltac frame s :=
  destruct s;
  cbn -[Qltb Qgeb VideoUrl.extractVideoId String.prefix Math_round Math_max];
  repeat (case_match;
          cbn -[Qltb Qgeb VideoUrl.extractVideoId String.prefix Math_round
                Math_max]);
  try done.

(** Unfold every handler and effect of the tracker. *)
Ltac unfold_tracker :=
  unfold withPlayer, withListeners, runEffects, playerCleanup, playerEffect,
    destroyPlayer, videoCleanup, videoEffect, unmountCleanup,
    handleUrlSubmit, handleFileUpload, clickYoutubeMode, clickFileMode,
    onPlayerReady, onPlayerStateChange, startEmotionsStream, handler,
    trackingTick, seekCheck, seekTo, handlePlay, handlePause, handleEnded,
    handleSeeking, handleTimeUpdate, startAttentionTracking,
    stopAttentionTracking, ifHandle, setInterval, clearInterval,
    htmlVideoRef, capture in *.

(** Discharge what a handler owes to a relation that only looks at fields
    the handler leaves alone. *)
Ltac prim_frame :=
  intros; simpl in *; try discriminate; simplify_eq; unfold_tracker;
  match goal with s : State |- _ => frame s end.

(** Split the invariant of the first player and try its parts. *)
Ltac first_player :=
  unfold firstPlayerInv; simpl;
  intros (K1 & K2 & K3 & K4 & K5);
  repeat split; simpl; intros;
  simplify_eq;
  try done;
  try (by auto);
  try (by eapply K2; eauto);
  try (by eapply K4; eauto).

Ltac fp_prim :=
  intros; unfold_tracker;
  match goal with H : firstPlayerInv ?s |- _ => revert H; destruct s end;
  repeat match goal with r : State |- _ => destruct r end;
  simpl in *; subst;
  repeat (case_match; simpl in * ); first_player.

Ltac split_bools :=
  repeat match goal with
         | H : _ && _ = true |- _ => apply andb_prop in H as [? ?]
         | H : _ || _ = false |- _ => apply orb_false_elim in H as [? ?]
         | H : negb _ = false |- _ => apply negb_false_iff in H
         | H : negb _ = true |- _ => apply negb_true_iff in H
         | H : bool_decide _ = true |- _ => apply bool_decide_eq_true in H
         | H : bool_decide _ = false |- _ => apply bool_decide_eq_false in H
         end.

(** The same for a goal [calFrame]. *)
Ltac frame_cal s := frame s; unfold calFrame; simpl; auto.

(** Unfolding the methods of the service. *)
Ltac unfold_ws :=
  unfold WebSocketService.connect, WebSocketService.disconnect,
    WebSocketService.send, WebSocketService.addMessageHandler,
    WebSocketService.removeMessageHandler, WebSocketService.onopen,
    WebSocketService.onmessage, WebSocketService.onerror,
    WebSocketService.onclose, WebSocketService.close,
    WebSocketService.settle, WebSocketService.clearReconnectTimer,
    WebSocketService.clearTimeout, WebSocketService.setTimeout in *.

Ltac svc s :=
  unfold_ws; destruct s; simpl in *; repeat case_match; simpl in *;
  simplify_eq; try done.

(** ** The interval table *)

Lemma TimerOK_init : TimerOK ∅ 1 None None.
Proof. split; try done; lia. Qed.

Lemma TimerOK_clear_tracking tm nx h sk :
  TimerOK tm nx (Some h) sk → TimerOK (delete h tm) nx None sk.
Proof.
  intros [Hn Hb Hrl Hlr Hsk]. split; try done.
  - intros h' cb. rewrite lookup_delete_Some. intros [_ Hl]. eauto.
  - intros h' c. rewrite lookup_delete_Some. intros [Hne Hl].
    apply Hlr in Hl. congruence.
  - intros h' ->. destruct (Hsk h' eq_refl) as [? Hno]. split; [done|].
    intros c. rewrite lookup_delete_Some. intros [_ Hl]. by eapply Hno.
Qed.

Lemma TimerOK_set_tracking tm nx sk c :
  TimerOK tm nx None sk →
  TimerOK (<[nx := TrackingTick c]> tm) (S nx) (Some nx) sk.
Proof.
  intros [Hn Hb Hrl Hlr Hsk]. split.
  - lia.
  - intros h cb. rewrite lookup_insert_Some. intros [[<- _]|[_ Hl]]; [lia|].
    apply Hb in Hl. lia.
  - intros h [= <-]. split; [done|]. exists c. by rewrite lookup_insert_eq.
  - intros h c'. rewrite lookup_insert_Some. intros [[<- _]|[_ Hl]]; [done|].
    by apply Hlr in Hl.
  - intros h ->. destruct (Hsk h eq_refl) as [Hlt Hno]. split; [lia|].
    intros c'. rewrite lookup_insert_ne by lia. apply Hno.
Qed.

Lemma TimerOK_clear_seek tm nx tr h sk' :
  TimerOK tm nx tr (Some h) → sk' = None ∨ sk' = Some h →
  TimerOK (delete h tm) nx tr sk'.
Proof.
  intros [Hn Hb Hrl Hlr Hsk] Hsk'. destruct (Hsk h eq_refl) as [Hlt Hno].
  split; try done.
  - intros h' cb. rewrite lookup_delete_Some. intros [_ Hl]. eauto.
  - intros h' ->. destruct (Hrl h' eq_refl) as [? [c Hc]]. split; [done|].
    exists c. rewrite lookup_delete_ne; [done|]. intros ->. by eapply Hno.
  - intros h' c. rewrite lookup_delete_Some. intros [_ Hl]. eauto.
  - intros h' ->. destruct Hsk' as [?|[= <-]]; [done|]. split; [done|].
    intros c. by rewrite lookup_delete_eq.
Qed.

Lemma TimerOK_set_seek tm nx tr sk c :
  TimerOK tm nx tr sk →
  TimerOK (<[nx := SeekCheck c]> tm) (S nx) tr (Some nx).
Proof.
  intros [Hn Hb Hrl Hlr Hsk]. split.
  - lia.
  - intros h cb. rewrite lookup_insert_Some. intros [[<- _]|[_ Hl]]; [lia|].
    apply Hb in Hl. lia.
  - intros h ->. destruct (Hrl h eq_refl) as [? [c' Hc]]. split; [done|].
    exists c'. rewrite lookup_insert_ne; [done|]. apply Hb in Hc. lia.
  - intros h c'. rewrite lookup_insert_Some. intros [[_ ?]|[_ Hl]]; [done|].
    by apply Hlr in Hl.
  - intros h [= <-]. split; [lia|]. intros c'. by rewrite lookup_insert_eq.
Qed.

Lemma timerInv_view s s' :
  timerView s' = timerView s → timerInv s → timerInv s'.
Proof. unfold timerInv, timerView. by intros [= -> -> -> ->]. Qed.

Lemma calInv_view s s' : calView s' = calView s → calInv s → calInv s'.
Proof. unfold calInv, calView. by intros [= -> -> ->]. Qed.

(** ** What each handler leaves alone *)

Lemma timerView_emotionsHandler m s :
  timerView (handler m s) = timerView s.
Proof. unfold handler. frame s. Qed.

Lemma timerView_startEmotionsStream b ok s :
  timerView (startEmotionsStream b ok s) = timerView s.
Proof. unfold startEmotionsStream. frame s. Qed.

Lemma timerView_handleFileUpload f url ok s :
  timerView (handleFileUpload f url ok s) = timerView s.
Proof. unfold handleFileUpload, startEmotionsStream. frame s. Qed.

Lemma timerView_handleUrlSubmit s :
  timerView (handleUrlSubmit s) = timerView s.
Proof. unfold handleUrlSubmit. frame s. Qed.

Lemma timerView_trackingTick c t s :
  timerView (trackingTick c t s) = timerView s.
Proof. unfold trackingTick. frame s. Qed.

Lemma timerView_seekCheck c t s : timerView (seekCheck c t s) = timerView s.
Proof. unfold seekCheck, seekTo. frame s. Qed.

Lemma timerView_handleSeeking l s :
  timerView (handleSeeking l s) = timerView s.
Proof. unfold handleSeeking. frame s. Qed.

Lemma timerView_handleTimeUpdate l s :
  timerView (handleTimeUpdate l s) = timerView s.
Proof. unfold handleTimeUpdate. frame s. Qed.

Lemma timerView_playerCleanup s : timerView (playerCleanup s) = timerView s.
Proof. unfold playerCleanup, destroyPlayer. frame s. Qed.

Lemma timerView_playerEffect r s :
  timerView (playerEffect r s) = timerView s.
Proof. unfold playerEffect, destroyPlayer. frame s. Qed.

Lemma timerView_videoCleanup s : timerView (videoCleanup s) = timerView s.
Proof. unfold videoCleanup. frame s. Qed.

Lemma timerView_videoEffect r s : timerView (videoEffect r s) = timerView s.
Proof. unfold videoEffect. frame s. Qed.

Lemma calView_startAttentionTracking c s :
  calView (startAttentionTracking c s) = calView s.
Proof. unfold startAttentionTracking, ifHandle. frame s. Qed.

Lemma calView_stopAttentionTracking s :
  calView (stopAttentionTracking s) = calView s.
Proof. unfold stopAttentionTracking, ifHandle. frame s. Qed.

Lemma calView_unmountCleanup s : calView (unmountCleanup s) = calView s.
Proof.
  unfold unmountCleanup, stopAttentionTracking, ifHandle. frame s.
Qed.

Lemma calView_onPlayerReady p ok s :
  calView (onPlayerReady p ok s) = calView s.
Proof. unfold onPlayerReady, startEmotionsStream, ifHandle. frame s. Qed.

Lemma calView_onPlayerStateChange p st s :
  calView (onPlayerStateChange p st s) = calView s.
Proof.
  unfold onPlayerStateChange, startAttentionTracking, stopAttentionTracking,
    ifHandle.
  frame s.
Qed.

Lemma calView_seekCheck c t s : calView (seekCheck c t s) = calView s.
Proof. unfold seekCheck, seekTo. frame s. Qed.

Lemma calView_handleSeeking l s : calView (handleSeeking l s) = calView s.
Proof. unfold handleSeeking. frame s. Qed.

Lemma calView_handleTimeUpdate l s :
  calView (handleTimeUpdate l s) = calView s.
Proof. unfold handleTimeUpdate. frame s. Qed.

(** ** The sampling timer *)

Lemma timerInv_start c s : timerInv s → timerInv (startAttentionTracking c s).
Proof.
  unfold timerInv, startAttentionTracking, ifHandle. destruct s; simpl.
  intros H. destruct trackingIntervalRef0 as [[|h]|]; simpl.
  - destruct (ok_ref_live _ _ _ _ H 0 eq_refl). lia.
  - by apply TimerOK_set_tracking, TimerOK_clear_tracking.
  - by apply TimerOK_set_tracking.
Qed.

Lemma timerInv_stop s : timerInv s → timerInv (stopAttentionTracking s).
Proof.
  unfold timerInv, stopAttentionTracking, ifHandle. destruct s; simpl.
  intros H. destruct trackingIntervalRef0 as [[|h]|]; simpl; try done.
  by apply TimerOK_clear_tracking.
Qed.

Lemma stop_ref_None s :
  timerInv s → trackingIntervalRef (stopAttentionTracking s) = None.
Proof.
  unfold timerInv, stopAttentionTracking, ifHandle. destruct s; simpl.
  intros H. destruct trackingIntervalRef0 as [[|h]|]; simpl; try done.
  destruct (ok_ref_live _ _ _ _ H 0 eq_refl). lia.
Qed.

Lemma start_ref_Some c s :
  is_Some (trackingIntervalRef (startAttentionTracking c s)).
Proof.
  unfold startAttentionTracking, ifHandle. destruct s; simpl.
  destruct trackingIntervalRef0 as [[|h]|]; simpl; eauto.
Qed.

(** With the invariant, the live sampling intervals are read off
    [trackingIntervalRef]. *)
Lemma samplingTimers_None s :
  timerInv s → trackingIntervalRef s = None → samplingTimers s = ∅.
Proof.
  intros H Hr. apply map_empty. intros h.
  apply map_lookup_filter_None. right. intros [c|c] Hl; simpl; [|done].
  apply (ok_live_ref _ _ _ _ H) in Hl. congruence.
Qed.

Lemma samplingTimers_Some s h :
  timerInv s → trackingIntervalRef s = Some h →
  ∃ c, samplingTimers s = {[ h := TrackingTick c ]}.
Proof.
  intros H Hr. destruct (ok_ref_live _ _ _ _ H h Hr) as [_ [c Hc]].
  exists c. apply map_eq. intros h'. destruct (decide (h' = h)) as [->|Hne].
  - rewrite lookup_singleton_eq. by apply map_lookup_filter_Some.
  - rewrite lookup_singleton_ne by done.
    apply map_lookup_filter_None. right. intros [c'|c'] Hl; simpl; [|done].
    apply (ok_live_ref _ _ _ _ H) in Hl. congruence.
Qed.

Lemma timerRunning_ref s :
  timerInv s → timerRunning s = bool_decide (is_Some (trackingIntervalRef s)).
Proof.
  intros H. unfold timerRunning.
  destruct (trackingIntervalRef s) as [h|] eqn:Hr.
  - destruct (samplingTimers_Some s h H Hr) as [c ->].
    rewrite !bool_decide_eq_true_2; [done|eauto|].
    apply insert_non_empty.
  - rewrite (samplingTimers_None s H Hr).
    rewrite !bool_decide_eq_false_2; [done| |by intros []].
    intros [? [=]]. 
Qed.

(** ** The invariants hold in every reachable state *)

Lemma timerInv_clear_seek s :
  timerInv s →
  timerInv (ifHandle (youtubeSeekCheckIntervalRef s) clearInterval s).
Proof.
  unfold timerInv, ifHandle, clearInterval. destruct s; simpl. intros H.
  destruct youtubeSeekCheckIntervalRef0 as [[|h]|]; simpl; try done.
  apply TimerOK_clear_seek; auto.
Qed.

Lemma timerInv_unmountCleanup s : timerInv s → timerInv (unmountCleanup s).
Proof.
  intros H. unfold unmountCleanup.
  by apply timerInv_clear_seek, timerInv_stop.
Qed.

Lemma timerInv_onPlayerReady p ok s :
  timerInv s → timerInv (onPlayerReady p ok s).
Proof.
  intros H. unfold onPlayerReady.
  assert (H1 : timerInv (startEmotionsStream (yt_isStreaming p) ok s))
    by (eapply timerInv_view; [apply timerView_startEmotionsStream|done]).
  apply timerInv_clear_seek in H1. revert H1.
  generalize (ifHandle
    (youtubeSeekCheckIntervalRef
       (startEmotionsStream (yt_isStreaming p) ok s)) clearInterval
    (startEmotionsStream (yt_isStreaming p) ok s)).
  intros s'. unfold timerInv, setInterval. destruct s'; simpl.
  apply TimerOK_set_seek.
Qed.

Lemma timerInv_onPlayerStateChange p st s :
  timerInv s → timerInv (onPlayerStateChange p st s).
Proof.
  intros H. unfold onPlayerStateChange. repeat case_match; try done.
  - by apply timerInv_start.
  - by apply timerInv_stop.
  - apply timerInv_stop in H. revert H.
    generalize (stopAttentionTracking s). intros s'.
    unfold timerInv, ifHandle, clearInterval. destruct s'; simpl. intros H.
    destruct youtubeSeekCheckIntervalRef0 as [[|h]|]; simpl; try done.
    apply TimerOK_clear_seek; auto.
Qed.

Lemma timerInv_runEffects prev r : timerInv r → timerInv (runEffects prev r).
Proof.
  intros H. unfold runEffects.
  repeat (case_match; simpl);
    repeat first
      [ done
      | apply timerInv_unmountCleanup
      | eapply timerInv_view;
        [ first [ apply timerView_videoEffect | apply timerView_playerEffect
                | apply timerView_videoCleanup | apply timerView_playerCleanup ]
        | ] ].
Qed.

Lemma timerInv_step e s : timerInv s → timerInv (step e s).
Proof.
  intros H. destruct e; simpl; unfold withPlayer, withListeners;
    repeat case_match; try done.
  - eapply timerInv_view; [|done]. by destruct s.
  - apply timerInv_runEffects.
    eapply timerInv_view; [apply timerView_handleUrlSubmit|done].
  - apply timerInv_runEffects.
    eapply timerInv_view; [apply timerView_handleFileUpload|done].
  - apply timerInv_runEffects. eapply timerInv_view; [|done]. by destruct s.
  - apply timerInv_runEffects. eapply timerInv_view; [|done]. by destruct s.
  - eapply timerInv_view; [|done]. by destruct s.
  - by apply timerInv_onPlayerReady.
  - by apply timerInv_onPlayerStateChange.
  - eapply timerInv_view; [apply timerView_emotionsHandler|done].
  - eapply timerInv_view; [apply timerView_trackingTick|done].
  - eapply timerInv_view; [apply timerView_seekCheck|done].
  - by apply timerInv_start.
  - by apply timerInv_stop.
  - unfold handleEnded. apply timerInv_stop in H.
    eapply timerInv_view; [|done]. by destruct (stopAttentionTracking s).
  - eapply timerInv_view; [apply timerView_handleSeeking|].
    eapply timerInv_view; [|done]. by destruct s.
  - eapply timerInv_view; [|done]. by destruct s.
  - eapply timerInv_view; [apply timerView_handleTimeUpdate|].
    eapply timerInv_view; [|done]. by destruct s.
Qed.

Lemma calFrame_refl s : calFrame s s.
Proof. unfold calFrame. auto. Qed.

Lemma calFrame_trans s1 s2 s3 :
  calFrame s1 s2 → calFrame s2 s3 → calFrame s1 s3.
Proof.
  unfold calFrame. intros (-> & -> & H1) (-> & -> & H2).
  repeat split. destruct H1 as [<-|H1], H2 as [H2|H2]; auto.
  right. congruence.
Qed.

Lemma calFrame_view s s' : calView s' = calView s → calFrame s s'.
Proof. unfold calView, calFrame. intros [= -> -> ->]. auto. Qed.

Lemma calFrame_calInv s s' : calFrame s s' → calInv s → calInv s'.
Proof.
  unfold calFrame, calInv. intros (-> & -> & H) Hi Hc.
  destruct (Hi Hc) as [? Hd]. split; [done|]. destruct H; congruence.
Qed.

Lemma calFrame_handleUrlSubmit s : calFrame s (handleUrlSubmit s).
Proof. unfold handleUrlSubmit. frame_cal s. Qed.

Lemma calFrame_handleFileUpload f url ok s :
  calFrame s (handleFileUpload f url ok s).
Proof. unfold handleFileUpload, startEmotionsStream. frame_cal s. Qed.

Lemma calFrame_clickYoutubeMode s : calFrame s (clickYoutubeMode s).
Proof. unfold clickYoutubeMode. frame_cal s. Qed.

Lemma calFrame_clickFileMode s : calFrame s (clickFileMode s).
Proof. unfold clickFileMode. frame_cal s. Qed.

Lemma calFrame_playerCleanup s : calFrame s (playerCleanup s).
Proof. unfold playerCleanup, destroyPlayer. frame_cal s. Qed.

Lemma calFrame_playerEffect r s : calFrame s (playerEffect r s).
Proof. unfold playerEffect, destroyPlayer. frame_cal s. Qed.

Lemma calFrame_videoCleanup s : calFrame s (videoCleanup s).
Proof. unfold videoCleanup. frame_cal s. Qed.

Lemma calFrame_videoEffect r s : calFrame s (videoEffect r s).
Proof. unfold videoEffect. frame_cal s. Qed.

Lemma calFrame_runEffects prev r : calFrame r (runEffects prev r).
Proof.
  unfold runEffects.
  repeat (case_match; simpl);
    repeat first
      [ apply calFrame_refl
      | eapply calFrame_trans;
        [| first [ apply calFrame_videoEffect | apply calFrame_playerEffect
                 | apply calFrame_videoCleanup | apply calFrame_playerCleanup
                 | apply calFrame_view, calView_unmountCleanup ] ] ].
Qed.

(** Every event other than a feed message and an interval firing keeps
    calibration and the latest attention, and keeps or clears the buffer. *)
Lemma calFrame_step e s :
  (∀ m, e ≠ WsMessage m) → (∀ h t, e ≠ IntervalFire h t) →
  calFrame s (step e s).
Proof.
  intros Hm Hi.
  destruct e; try (exfalso; first [by eapply Hm | by eapply Hi]);
    simpl; unfold withPlayer, withListeners;
    repeat case_match; try apply calFrame_refl.
  - apply calFrame_view. by destruct s.
  - eapply calFrame_trans;
      [apply calFrame_handleUrlSubmit|apply calFrame_runEffects].
  - eapply calFrame_trans;
      [apply calFrame_handleFileUpload|apply calFrame_runEffects].
  - eapply calFrame_trans;
      [apply calFrame_clickYoutubeMode|apply calFrame_runEffects].
  - eapply calFrame_trans;
      [apply calFrame_clickFileMode|apply calFrame_runEffects].
  - apply calFrame_view. by destruct s.
  - apply calFrame_view, calView_onPlayerReady.
  - apply calFrame_view, calView_onPlayerStateChange.
  - apply calFrame_view, calView_startAttentionTracking.
  - apply calFrame_view, calView_stopAttentionTracking.
  - unfold handleEnded. apply calFrame_view.
    rewrite <- (calView_stopAttentionTracking s).
    by destruct (stopAttentionTracking s).
  - apply calFrame_view. rewrite calView_handleSeeking. by destruct s.
  - apply calFrame_view. by destruct s.
  - apply calFrame_view. rewrite calView_handleTimeUpdate. by destruct s.
Qed.

(** ** The feed and the sampling callback *)

Lemma isCalibrated_emotionsHandler m s :
  isCalibrated (handler m s)
  = isCalibrated s || completesCalibration (WsMessage m).
Proof.
  unfold handler, completesCalibration, fullPercent,
    readingWithAttention.
  destruct m as [ty d]; simpl. destruct (bool_decide (ty = Types.emotions));
    simpl; [|by rewrite orb_false_r].
  destruct (Types.calibration_percent d) as [p|]; simpl.
  - rewrite orb_false_r. destruct (Qgeb p 100), s; simpl;
      by rewrite ?orb_true_r, ?orb_false_r.
  - destruct (Types.rel_attention d) as [a|]; simpl.
    + destruct s; simpl. by rewrite orb_true_r.
    + by rewrite orb_false_r.
Qed.

Lemma attentionData_emotionsHandler m s :
  attentionData (handler m s) = attentionData s.
Proof. unfold handler. frame s. Qed.

Lemma currentAttentionRef_emotionsHandler m s :
  currentAttentionRef (handler m s) = currentAttentionRef s
  ∨ isCalibrated (handler m s) = true.
Proof. unfold handler. frame s; auto. Qed.

Lemma calView_trackingTick_None c t s :
  currentAttentionRef s = None → trackingTick c t s = s.
Proof. unfold trackingTick. by intros ->. Qed.

Lemma trackingTick_calibration c t s :
  isCalibrated (trackingTick c t s) = isCalibrated s
  ∧ currentAttentionRef (trackingTick c t s) = currentAttentionRef s.
Proof. unfold trackingTick. frame s. Qed.

Lemma isCalibrated_step e s :
  isCalibrated (step e s) = isCalibrated s || completesCalibration e.
Proof.
  destruct (completesCalibration e) eqn:Hc.
  - destruct e; try done. simpl. rewrite isCalibrated_emotionsHandler.
    by rewrite Hc.
  - rewrite orb_false_r. destruct e;
      try (apply calFrame_step; intros; discriminate).
    + simpl. rewrite isCalibrated_emotionsHandler. rewrite Hc.
      by rewrite orb_false_r.
    + simpl. repeat case_match; try done.
      * apply trackingTick_calibration.
      * apply (f_equal (fun v => v.1.1) (calView_seekCheck _ _ _)).
Qed.

Lemma calInv_step e s : calInv s → calInv (step e s).
Proof.
  intros H. destruct e;
    try (eapply calFrame_calInv; [|done]; apply calFrame_step;
         intros; discriminate).
  - simpl. intros Hc.
    rewrite attentionData_emotionsHandler.
    destruct (currentAttentionRef_emotionsHandler message s) as [->|Ht];
      [|congruence].
    apply H. rewrite isCalibrated_emotionsHandler in Hc.
    by apply orb_false_elim in Hc as [-> _].
  - simpl. repeat case_match; try done.
    + intros Hc. rewrite (proj1 (trackingTick_calibration _ _ _)) in Hc.
      destruct (H Hc) as [Hn Hd].
      by rewrite (calView_trackingTick_None _ _ _ Hn).
    + eapply calInv_view; [apply calView_seekCheck|done].
Qed.

Lemma run_snoc evs e s : run (evs ++ [e]) s = step e (run evs s).
Proof. unfold run. by rewrite foldl_app. Qed.

Lemma run_app evs1 evs2 s : run (evs1 ++ evs2) s = run evs2 (run evs1 s).
Proof. unfold run. by rewrite foldl_app. Qed.

Lemma timerInv_run evs s : timerInv s → timerInv (run evs s).
Proof.
  revert s. induction evs as [|e evs IH]; intros s H; [done|].
  simpl. by apply IH, timerInv_step.
Qed.

Lemma calInv_run evs s : calInv s → calInv (run evs s).
Proof.
  revert s. induction evs as [|e evs IH]; intros s H; [done|].
  simpl. by apply IH, calInv_step.
Qed.

Lemma timerInv_init : timerInv init.
Proof. apply TimerOK_init. Qed.

Lemma calInv_init : calInv init.
Proof. by intros _. Qed.

Lemma isCalibrated_run evs s :
  isCalibrated (run evs s)
  = isCalibrated s || existsb completesCalibration evs.
Proof.
  revert s. induction evs as [|e evs IH]; intros s; simpl.
  - by rewrite orb_false_r.
  - rewrite IH, isCalibrated_step. by rewrite orb_assoc.
Qed.

(** ** Calibration *)

(** C2.  For every sequence of events, [isCalibrated] is true exactly when
    the sequence contains an emotions event that carries a percent of at
    least 100 or is a reading carrying [rel_attention]: it turns true at the
    first such event, not before, and each further event keeps it true. *)
Theorem C2_isCalibrated_latches (evs : list Event) (e : Event) :
  isCalibrated (run evs init) = existsb completesCalibration evs
  ∧ isCalibrated (run (evs ++ [e]) init)
    = isCalibrated (run evs init) || completesCalibration e.
Proof.
  split.
  - by rewrite isCalibrated_run.
  - by rewrite run_snoc, isCalibrated_step.
Qed.

(** ** The playback guard *)

(** C4.  With the listeners of the element attached and
    [lastValidTime = 10.0], a seek to 9.0 is answered by setting the
    position of the element back to 10.0, and a seek to 9.6 changes
    nothing: the tolerance is 0.5 seconds. *)
Theorem C4_seek_guard_tolerance (s : State) (c : Closure) :
  let l := {| lastValidTime := 10; vl_closure := c |} in
  let s0 := set_videoListeners (Some l) s in
  SEEK_TOLERANCE = 0.5%Q
  ∧ step (VideoSeeking 9) s0
    = set_video {| currentTime := 10; seeking := true |} s0
  ∧ step (VideoSeeking 9.6) s0
    = set_video {| currentTime := 9.6; seeking := true |} s0.
Proof. by destruct s. Qed.

Lemma Qltb_lt x y : Qltb x y = true ↔ (x < y)%Q.
Proof.
  unfold Qltb. rewrite Qlt_alt. destruct (x ?= y)%Q; split; congruence.
Qed.

(** The polled YouTube path: every seek check leaves
    [lastYouTubeTimeRef] at the maximum of its value and the reported
    time. *)
Lemma seekCheck_lastYouTubeTime c t s :
  is_Some (playerRef s) → c_videoMode c = youtube →
  lastYouTubeTimeRef (seekCheck c t s)
  = Math_max (lastYouTubeTimeRef s) t.
Proof.
  intros Hp Hm. unfold seekCheck.
  rewrite !bool_decide_eq_true_2 by done. simpl.
  destruct (Qltb t _) eqn:Hlt.
  - apply Qltb_lt in Hlt.
    assert (Hgt : (t < lastYouTubeTimeRef s)%Q).
    { eapply Qlt_trans; [exact Hlt|].
      unfold YOUTUBE_SEEK_THRESHOLD.
      rewrite <- (Qplus_0_r (lastYouTubeTimeRef s)) at 2.
      unfold Qminus. apply Qplus_lt_r. reflexivity. }
    apply Qgt_alt in Hgt. unfold Math_max, Qmax, GenericMinMax.gmax.
    rewrite Hgt. unfold seekTo. by frame s.
  - by destruct s.
Qed.

Lemma seekCheck_lastYouTubeTime_mono c t s :
  (lastYouTubeTimeRef s <= lastYouTubeTimeRef (seekCheck c t s))%Q.
Proof.
  unfold seekCheck. repeat case_match; try apply Qle_refl.
  - unfold seekTo. frame s; apply Qle_refl.
  - destruct s; simpl. apply Q.le_max_l.
Qed.

(** C3.  On the local-file path the claim fails.  After a time update at
    10.0 the guard holds [lastValidTime = 10.0]; a backward seek to 9.6 is
    within the tolerance and is let through, and the time update that
    follows it, with the element no longer seeking, stores 9.6: the value
    went down, and it is not [max(10.0, 9.6)]. *)
Theorem C3_file_lastValidTime_decreases :
  let upload := FileChange (Some {| type := "video/mp4" |}) "blob:a" true in
  let before := [ClickFileMode; upload; VideoPlay; VideoTimeUpdate 10] in
  let after := before ++ [VideoSeeking 9.6; VideoSeeked; VideoTimeUpdate 9.6] in
  lastValidTime <$> videoListeners (run before init) = Some 10%Q
  ∧ seeking (video (run (before ++ [VideoSeeking 9.6; VideoSeeked]) init))
    = false
  ∧ lastValidTime <$> videoListeners (run after init) = Some 9.6%Q
  ∧ ¬ (9.6 == Math_max 10 9.6)%Q.
Proof. by vm_compute. Qed.

(** ** Sampling and playback *)

Lemma trackingIntervalRef_onPlayerStateChange p st s :
  timerInv s →
  trackingIntervalRef (onPlayerStateChange p st s)
  = if bool_decide (st = PlayerState.PLAYING)
    then trackingIntervalRef (startAttentionTracking (yt_closure p) s)
    else if bool_decide (st ∈ [PlayerState.PAUSED; PlayerState.BUFFERING;
                               PlayerState.ENDED])
         then None
         else trackingIntervalRef s.
Proof.
  intros H. unfold onPlayerStateChange.
  destruct (bool_decide (st = PlayerState.PLAYING)); [done|].
  destruct (bool_decide (st = PlayerState.PAUSED)) eqn:E1; simpl.
  { apply bool_decide_eq_true in E1 as ->.
    rewrite bool_decide_eq_true_2 by (rewrite !elem_of_cons; auto). by apply stop_ref_None. }
  destruct (bool_decide (st = PlayerState.BUFFERING)) eqn:E2; simpl.
  { apply bool_decide_eq_true in E2 as ->.
    rewrite bool_decide_eq_true_2 by (rewrite !elem_of_cons; auto). by apply stop_ref_None. }
  destruct (bool_decide (st = PlayerState.ENDED)) eqn:E3; simpl.
  { apply bool_decide_eq_true in E3 as ->.
    rewrite bool_decide_eq_true_2 by (rewrite !elem_of_cons; auto).
    pose proof (stop_ref_None s H) as Hn. revert Hn.
    generalize (stopAttentionTracking s). intros s'. unfold ifHandle.
    by frame s'. }
  apply bool_decide_eq_false in E1, E2, E3.
  rewrite bool_decide_eq_false_2; [done|].
  rewrite !elem_of_cons, elem_of_nil. by intros [?|[?|[?|[]]]].
Qed.

Lemma timerRunning_start c s :
  timerInv s → timerRunning (startAttentionTracking c s) = true.
Proof.
  intros H. rewrite timerRunning_ref by by apply timerInv_start.
  apply bool_decide_eq_true_2, start_ref_Some.
Qed.

Lemma timerRunning_stop s :
  timerInv s → timerRunning (stopAttentionTracking s) = false.
Proof.
  intros H. rewrite timerRunning_ref by by apply timerInv_stop.
  rewrite stop_ref_None by done. done.
Qed.

Lemma timerRunning_handleEnded s :
  timerInv s → timerRunning (handleEnded s) = false.
Proof.
  intros H. rewrite <- (timerRunning_stop s H). unfold handleEnded.
  unfold timerRunning, samplingTimers.
  by destruct (stopAttentionTracking s).
Qed.

(** Only the sampling callback appends, and only when an attention value
    is known. *)
Lemma noAppend_step e s :
  (∀ h t c, e = IntervalFire h t → timers s !! h = Some (TrackingTick c) →
            currentAttentionRef s = None) →
  noAppend e s.
Proof.
  intros Htick. unfold noAppend.
  destruct e;
    try (apply calFrame_step; intros; discriminate).
  - left. apply attentionData_emotionsHandler.
  - left. simpl. destruct (timers s !! h) as [[c|c]|] eqn:Hl; [| |done].
    + by rewrite (calView_trackingTick_None c t s (Htick h t c eq_refl Hl)).
    + apply (f_equal (fun v => v.2) (calView_seekCheck c t s)).
Qed.

Lemma trackingRef_view s s' :
  timerView s' = timerView s →
  trackingIntervalRef s' = trackingIntervalRef s.
Proof. unfold timerView. by intros [= _ _ -> _]. Qed.

Lemma trackingRef_unmountCleanup s :
  trackingIntervalRef s = None →
  trackingIntervalRef (unmountCleanup s) = None.
Proof.
  unfold unmountCleanup, stopAttentionTracking, ifHandle, clearInterval.
  destruct s; simpl. intros ->. simpl. by repeat case_match.
Qed.

Lemma trackingRef_runEffects prev r :
  trackingIntervalRef r = None →
  trackingIntervalRef (runEffects prev r) = None.
Proof.
  intros H. unfold runEffects.
  repeat (case_match; simpl);
    rewrite ?(trackingRef_view _ _ (timerView_videoEffect _ _)),
            ?(trackingRef_view _ _ (timerView_playerEffect _ _));
    try apply trackingRef_unmountCleanup;
    rewrite ?(trackingRef_view _ _ (timerView_videoCleanup _)),
            ?(trackingRef_view _ _ (timerView_playerCleanup _));
    done.
Qed.

Lemma trackingRef_onPlayerReady p ok s :
  trackingIntervalRef (onPlayerReady p ok s) = trackingIntervalRef s.
Proof.
  unfold onPlayerReady, startEmotionsStream, ifHandle, clearInterval,
    setInterval.
  by frame s.
Qed.

(** While no sampling timer runs, an event that does not start playback
    starts none. *)
Lemma trackingRef_step e s :
  timerInv s → startsPlayback e = false →
  trackingIntervalRef s = None → trackingIntervalRef (step e s) = None.
Proof.
  intros Hi Hs Hn. destruct e; simpl in *; unfold withPlayer, withListeners;
    repeat case_match; try done.
  - by destruct s.
  - apply trackingRef_runEffects.
    by rewrite (trackingRef_view _ _ (timerView_handleUrlSubmit s)).
  - apply trackingRef_runEffects.
    by rewrite (trackingRef_view _ _ (timerView_handleFileUpload _ _ _ s)).
  - apply trackingRef_runEffects. by destruct s.
  - apply trackingRef_runEffects. by destruct s.
  - by destruct s.
  - by rewrite trackingRef_onPlayerReady.
  - rewrite trackingIntervalRef_onPlayerStateChange by done.
    rewrite Hs. by case_match.
  - by rewrite (trackingRef_view _ _ (timerView_emotionsHandler _ s)).
  - by rewrite (trackingRef_view _ _ (timerView_trackingTick _ _ s)).
  - by rewrite (trackingRef_view _ _ (timerView_seekCheck _ _ s)).
  - by apply stop_ref_None.
  - unfold handleEnded. rewrite <- (stop_ref_None s Hi).
    by destruct (stopAttentionTracking s).
  - rewrite (trackingRef_view _ _ (timerView_handleSeeking _ _)).
    by destruct s.
  - by destruct s.
  - rewrite (trackingRef_view _ _ (timerView_handleTimeUpdate _ _)).
    by destruct s.
Qed.

Lemma noAppend_idle e s :
  timerInv s → trackingIntervalRef s = None → noAppend e s.
Proof.
  intros Hi Hn. apply noAppend_step. intros h t c _ Hl.
  apply (ok_live_ref _ _ _ _ Hi) in Hl. congruence.
Qed.

(** With no sampling timer and an empty buffer, the buffer stays empty
    until playback starts. *)
Lemma idle_run evs s :
  timerInv s → trackingIntervalRef s = None → attentionData s = [] →
  Forall (fun e => startsPlayback e = false) evs →
  attentionData (run evs s) = [].
Proof.
  revert s. induction evs as [|e evs IH]; intros s Hi Hn Hd Hf; [done|].
  apply Forall_cons in Hf as [He Hf]. simpl. apply IH; try done.
  - by apply timerInv_step.
  - by apply trackingRef_step.
  - destruct (noAppend_idle e s Hi Hn); congruence.
Qed.

Lemma idle_run_ref evs s :
  timerInv s → trackingIntervalRef s = None →
  Forall (fun e => startsPlayback e = false) evs →
  trackingIntervalRef (run evs s) = None.
Proof.
  revert s. induction evs as [|e evs IH]; intros s Hi Hn Hf; [done|].
  apply Forall_cons in Hf as [He Hf]. simpl. apply IH; try done.
  - by apply timerInv_step.
  - by apply trackingRef_step.
Qed.

(** C1, as the code has it.  The sampling timer follows playback alone: a
    "playing" notification starts it and a "paused", "buffering" or "ended"
    notification stops it, whether or not calibration is complete, and any
    other notification leaves it as it is.  No sample is appended while
    [isCalibrated] is false, nor while no sampling timer is running; and
    once stopped, the timer stays stopped until playback starts. *)
Theorem C1_timer_follows_playback (evs : list Event) (p : YTPlayer)
    (st : Z) (l : VideoListeners) (e : Event) (evs' : list Event) :
  let s := run evs init in
  timerRunning (onPlayerStateChange p st s)
  = (if bool_decide (st = PlayerState.PLAYING) then true
     else if bool_decide (st ∈ [PlayerState.PAUSED; PlayerState.BUFFERING;
                                PlayerState.ENDED])
          then false
          else timerRunning s)
  ∧ timerRunning (handlePlay l s) = true
  ∧ timerRunning (handlePause s) = false
  ∧ timerRunning (handleEnded s) = false
  ∧ (isCalibrated s = false ∨ timerRunning s = false → noAppend e s)
  ∧ (timerRunning s = false →
     Forall (fun e => startsPlayback e = false) evs' →
     timerRunning (run evs' s) = false).
Proof.
  intros s.
  assert (Ht : timerInv s) by apply timerInv_run, timerInv_init.
  assert (Hc : calInv s) by apply calInv_run, calInv_init.
  repeat split.
  - rewrite timerRunning_ref by by apply timerInv_onPlayerStateChange.
    rewrite trackingIntervalRef_onPlayerStateChange by done.
    rewrite (timerRunning_ref s Ht).
    repeat case_match; try done.
    apply bool_decide_eq_true_2, start_ref_Some.
  - by apply timerRunning_start.
  - by apply timerRunning_stop.
  - by apply timerRunning_handleEnded.
  - intros Hor. apply noAppend_step. intros h t c _ Hl.
    destruct Hor as [Hcal|Hrun].
    + by apply Hc.
    + rewrite (timerRunning_ref s Ht) in Hrun.
      apply bool_decide_eq_false in Hrun.
      apply (ok_live_ref _ _ _ _ Ht) in Hl. destruct Hrun. eauto.
  - intros Hrun Hf. rewrite (timerRunning_ref s Ht) in Hrun.
    apply bool_decide_eq_false in Hrun.
    rewrite timerRunning_ref by by apply timerInv_run.
    rewrite idle_run_ref; try done.
    destruct (trackingIntervalRef s); [|done]. destruct Hrun. eauto.
Qed.

(** C1 as stated fails: a video is loaded and starts playing before
    any calibration event; the sampling timer runs although the session is
    not in the Tracking state. *)
Lemma C1_counterexample :
  let evs := [YTApiLoaded; SetYoutubeUrl "https://youtu.be/abc"; UrlSubmit;
              PlayerReady true; PlayerStateChange PlayerState.PLAYING] in
  ¬ (timerRunning (run evs init) = true ↔ Tracking evs = true).
Proof.
  intros evs [H _].
  assert (Hr : timerRunning (run evs init) = true) by by vm_compute.
  specialize (H Hr). by vm_compute in H.
Qed.

(** One firing of the sampling interval while playing uncalibrated:
    nothing is appended.  And before any video is played, loading one
    starts no timer. *)
Lemma C1_timer_follows_playback_witness :
  let load := [YTApiLoaded; SetYoutubeUrl "https://youtu.be/abc"; UrlSubmit;
               PlayerReady true] in
  let evs := load ++ [PlayerStateChange PlayerState.PLAYING] in
  (isCalibrated (run evs init) = false
   ∧ timers (run evs init) !! 2 = Some (TrackingTick (capture init))
   ∧ noAppend (IntervalFire 2 5) (run evs init))
  ∧ timerRunning (run load init) = false.
Proof.
  intros load evs.
  pose (p := {| yt_id := 0; yt_seekedTo := None; yt_isStreaming := false;
                yt_closure := capture init |}).
  pose (l := {| lastValidTime := 0; vl_closure := capture init |}).
  split.
  - split; [reflexivity|]. split; [by vm_compute|].
    apply (C1_timer_follows_playback evs p PlayerState.PLAYING l
             (IntervalFire 2 5) []).
    left. reflexivity.
  - apply (C1_timer_follows_playback [] p PlayerState.PLAYING l
             YTApiLoaded load); [reflexivity|].
    repeat constructor.
Defined.

(** ** Loading the next video *)

Lemma finishes_stops e s :
  timerInv s → finishes e s → trackingIntervalRef (step e s) = None.
Proof.
  intros Hi [[-> [p Hp]]|[-> [l Hl]]]; simpl;
    unfold withPlayer, withListeners.
  - rewrite Hp. by rewrite trackingIntervalRef_onPlayerStateChange.
  - rewrite Hl. unfold handleEnded. rewrite <- (stop_ref_None s Hi).
    by destruct (stopAttentionTracking s).
Qed.

Lemma loads_clears e s : loads e s → attentionData (step e s) = [].
Proof.
  intros [(-> & Hm & [id Hid])|(f & url & ok & -> & Hm & Hp)]; unfold step;
    rewrite bool_decide_eq_true_2 by done.
  - destruct (calFrame_runEffects s (handleUrlSubmit s)) as (_ & _ & [->|H]);
      [|done].
    unfold handleUrlSubmit. rewrite Hid.
    assert (Ht : truthy_string (Some id) = true).
    { unfold VideoUrl.extractVideoId in Hid.
      destruct (VideoUrl.regexMatch (youtubeUrl s)); [|done].
      by destruct (truthy_string (Some s0)) eqn:E; simplify_eq. }
    rewrite Ht. by destruct s.
  - destruct (calFrame_runEffects s (handleFileUpload (Some f) url ok s))
      as (_ & _ & [->|H]); [|done].
    unfold handleFileUpload, startEmotionsStream. rewrite Hp. simpl.
    by frame s.
Qed.

Lemma loads_not_start e s : loads e s → startsPlayback e = false.
Proof. by intros [(-> & _)|(f & url & ok & -> & _)]. Qed.

(** C5.  Video A is loaded and tracked (any events [evsA]), it ends
    ([fin]), then (after any events [evsM] that do not start playback) a
    video B is loaded ([ld]): from then on and until playback starts the
    series buffer is empty. *)
Theorem C5_buffer_empty_after_reload
    (evsA : list Event) (fin : Event) (evsM : list Event) (ld : Event)
    (evsB : list Event) :
  finishes fin (run evsA init) →
  Forall (fun e => startsPlayback e = false) evsM →
  loads ld (run (evsA ++ [fin] ++ evsM) init) →
  Forall (fun e => startsPlayback e = false) evsB →
  attentionData (run (evsA ++ [fin] ++ evsM ++ [ld] ++ evsB) init) = [].
Proof.
  intros Hfin HM Hld HB.
  rewrite !run_app in *. simpl in *.
  set (s := run evsA init) in *.
  assert (Hi : timerInv s) by apply timerInv_run, timerInv_init.
  assert (Hi1 : timerInv (step fin s)) by by apply timerInv_step.
  assert (Hn1 : trackingIntervalRef (step fin s) = None)
    by by apply finishes_stops.
  set (s2 := run evsM (step fin s)) in *.
  assert (Hi2 : timerInv s2) by by apply timerInv_run.
  assert (Hn2 : trackingIntervalRef s2 = None) by by apply idle_run_ref.
  apply idle_run; try done.
  - by apply timerInv_step.
  - apply trackingRef_step; try done. by eapply loads_not_start.
  - by apply loads_clears.
Qed.

(** A sample is collected during a first file, the file ends, a second
    file is selected: the buffer is empty. *)
Lemma C5_buffer_empty_after_reload_witness :
  let reading :=
    {| Types.type := Types.emotions;
       Types.data :=
         {| Types.rel_relaxation := None; Types.rel_attention := Some 0.7%Q;
            Types.inst_relaxation := None; Types.inst_attention := None;
            Types.calibration_percent := None;
            Types.is_both_sides_artifacted := None;
            Types.is_sequence_artifacted := None |} |} in
  let evsA :=
    [ClickFileMode; FileChange (Some {| type := "video/mp4" |}) "blob:a" true;
     WsMessage reading; VideoPlay; VideoTimeUpdate 3; IntervalFire 1 0] in
  let ld := FileChange (Some {| type := "video/webm" |}) "blob:b" true in
  attentionData (run evsA init) = [{| time := 3; attention := 0.7 |}]
  ∧ attentionData
      (run (evsA ++ [VideoEnded] ++ [] ++ [ld] ++ [VideoTimeUpdate 0]) init)
    = [].
Proof.
  intros reading evsA ld. split; [reflexivity|].
  apply (C5_buffer_empty_after_reload evsA VideoEnded [] ld
           [VideoTimeUpdate 0]).
  - right. split; [reflexivity|]. eexists. vm_compute. reflexivity.
  - constructor.
  - right. exists {| type := "video/webm" |}, "blob:b"%string, true.
    split; [reflexivity|]. split; reflexivity.
  - repeat constructor.
Defined.

(** ** The end of the video *)

Lemma onPlayerStateChange_ENDED p s :
  onPlayerStateChange p PlayerState.ENDED s
  = let s1 := set_showGraph true (stopAttentionTracking s) in
    ifHandle (youtubeSeekCheckIntervalRef s1)
      (fun h s => set_youtubeSeekCheckIntervalRef None (clearInterval h s)) s1.
Proof. reflexivity. Qed.

(** C6.  The video ends while calibration is not complete: the sampling
    timer is stopped, the results view is shown, the series buffer is empty
    and no error message is set.  This holds for the player notification
    and for the [ended] event of the element. *)
Theorem C6_ended_while_calibrating (evs : list Event) (p : YTPlayer) :
  let s := run evs init in
  isCalibrated s = false →
  let yt := onPlayerStateChange p PlayerState.ENDED s in
  let el := handleEnded s in
  (timerRunning yt = false ∧ trackingIntervalRef yt = None
   ∧ showGraph yt = true ∧ attentionData yt = []
   ∧ errorMessage yt = errorMessage s)
  ∧ (timerRunning el = false ∧ trackingIntervalRef el = None
     ∧ showGraph el = true ∧ attentionData el = []
     ∧ errorMessage el = errorMessage s).
Proof.
  intros s Hcal yt el.
  assert (Ht : timerInv s) by apply timerInv_run, timerInv_init.
  assert (Hc : calInv s) by apply calInv_run, calInv_init.
  destruct (Hc Hcal) as [_ Hd].
  assert (Hyt : timerInv yt) by by apply timerInv_onPlayerStateChange.
  assert (Hr : trackingIntervalRef yt = None)
    by by (unfold yt; rewrite trackingIntervalRef_onPlayerStateChange).
  assert (Hstop : trackingIntervalRef (stopAttentionTracking s) = None)
    by by apply stop_ref_None.
  assert (Hbuf : attentionData (stopAttentionTracking s) = [])
    by (pose proof (calView_stopAttentionTracking s) as Hv;
        unfold calView in Hv; congruence).
  assert (Hmsg : errorMessage (stopAttentionTracking s) = errorMessage s).
  { unfold stopAttentionTracking, ifHandle. by frame s. }
  split; repeat split.
  - by rewrite timerRunning_ref, Hr.
  - done.
  - unfold yt. rewrite onPlayerStateChange_ENDED. simpl.
    generalize (stopAttentionTracking s). intros s'. unfold ifHandle.
    by frame s'.
  - rewrite <- Hbuf. unfold yt.
    rewrite onPlayerStateChange_ENDED. simpl.
    generalize (stopAttentionTracking s). intros s'. unfold ifHandle.
    by frame s'.
  - rewrite <- Hmsg. unfold yt. rewrite onPlayerStateChange_ENDED. simpl.
    generalize (stopAttentionTracking s). intros s'. unfold ifHandle.
    by frame s'.
  - by apply timerRunning_handleEnded.
  - unfold el, handleEnded. rewrite <- Hstop.
    by destruct (stopAttentionTracking s).
  - unfold el, handleEnded. by destruct (stopAttentionTracking s).
  - rewrite <- Hbuf. unfold el, handleEnded.
    by destruct (stopAttentionTracking s).
  - rewrite <- Hmsg. unfold el, handleEnded.
    by destruct (stopAttentionTracking s).
Qed.

(** A video is loaded, reported playing and then ended, with a
    calibration at 50 percent in between. *)
Lemma C6_ended_while_calibrating_witness :
  let half :=
    {| Types.type := Types.emotions;
       Types.data :=
         {| Types.rel_relaxation := None; Types.rel_attention := None;
            Types.inst_relaxation := None; Types.inst_attention := None;
            Types.calibration_percent := Some 50%Q;
            Types.is_both_sides_artifacted := None;
            Types.is_sequence_artifacted := None |} |} in
  let evs := [YTApiLoaded; SetYoutubeUrl "https://youtu.be/abc"; UrlSubmit;
              PlayerReady true; PlayerStateChange PlayerState.PLAYING;
              WsMessage half; IntervalFire 2 1] in
  timerRunning (run evs init) = true
  ∧ ytPlayer (run (evs ++ [PlayerStateChange PlayerState.ENDED]) init)
    ≠ None
  ∧ timerRunning (run (evs ++ [PlayerStateChange PlayerState.ENDED]) init)
    = false
  ∧ attentionData (run (evs ++ [PlayerStateChange PlayerState.ENDED]) init)
    = [].
Proof.
  intros half evs.
  pose proof (C6_ended_while_calibrating evs
                {| yt_id := 0; yt_seekedTo := None; yt_isStreaming := false;
                   yt_closure := capture init |} eq_refl) as [H _].
  split; [by vm_compute|]. split; [by vm_compute|].
  destruct H as (H1 & _ & _ & H4 & _). split; [exact H1|exact H4].
Defined.

(** ** One sampling timer *)

Lemma size_samplingTimers s : timerInv s → size (samplingTimers s) ≤ 1.
Proof.
  intros H. destruct (trackingIntervalRef s) as [h|] eqn:Hr.
  - destruct (samplingTimers_Some s h H Hr) as [c ->].
    by rewrite map_size_singleton.
  - rewrite (samplingTimers_None s H Hr), map_size_empty. lia.
Qed.

Lemma starts_one_timer cs s :
  timerInv s → is_Some (trackingIntervalRef s) →
  size (samplingTimers (foldl (fun s c => startAttentionTracking c s) s cs))
  = 1.
Proof.
  revert s. induction cs as [|c cs IH]; intros s H [h Hr]; simpl.
  - destruct (samplingTimers_Some s h H Hr) as [c ->].
    by rewrite map_size_singleton.
  - apply IH; [by apply timerInv_start|apply start_ref_Some].
Qed.

(** C7.  In every reachable state at most one sampling interval is live;
    after any non-empty sequence of [startAttentionTracking] calls exactly
    one is; and [stopAttentionTracking] with no timer running returns the
    state unchanged. *)
Theorem C7_single_sampling_timer (evs : list Event) (c : Closure)
    (cs : list Closure) :
  let s := run evs init in
  size (samplingTimers s) ≤ 1
  ∧ size (samplingTimers
            (foldl (fun s c => startAttentionTracking c s) s (c :: cs))) = 1
  ∧ (timerRunning s = false → stopAttentionTracking s = s).
Proof.
  intros s.
  assert (Ht : timerInv s) by apply timerInv_run, timerInv_init.
  split; [by apply size_samplingTimers|]. split.
  - simpl. apply starts_one_timer; [by apply timerInv_start|].
    apply start_ref_Some.
  - rewrite (timerRunning_ref s Ht). intros Hn.
    apply bool_decide_eq_false in Hn. unfold stopAttentionTracking.
    destruct (trackingIntervalRef s) as [h|]; [|done]. destruct Hn. eauto.
Qed.

(** Three starts in a row on the mounted component leave one timer, and a
    stop before any start changes nothing. *)
Lemma C7_single_sampling_timer_witness :
  let c := capture init in
  size (samplingTimers
          (startAttentionTracking c
             (startAttentionTracking c (startAttentionTracking c init)))) = 1
  ∧ stopAttentionTracking init = init.
Proof.
  intros c.
  destruct (C7_single_sampling_timer [] c [c; c]) as (_ & H2 & H3).
  split; [exact H2|]. apply H3. reflexivity.
Defined.

(** ** Invalid references *)

Lemma runEffects_same prev r :
  videoId prev = videoId r → uploadedVideoUrl prev = uploadedVideoUrl r →
  videoMode prev = videoMode r → runEffects prev r = r.
Proof.
  intros H1 H2 H3. unfold runEffects.
  by rewrite !bool_decide_eq_true_2 by done.
Qed.

(** C8.  A submitted URL without a video id, and a selected file that is
    not a video, only set the error message: [videoId], [uploadedVideoUrl],
    the series buffer and the graph flag are unchanged, and so is the rest
    of the state. *)
Theorem C8_invalid_reference_rejected (s : State) (f : File) (url : string)
    (ok : bool) :
  (videoMode s = youtube → VideoUrl.extractVideoId (youtubeUrl s) = None →
   let s' := step UrlSubmit s in
   truthy_string (errorMessage s') = true
   ∧ videoId s' = videoId s ∧ uploadedVideoUrl s' = uploadedVideoUrl s
   ∧ attentionData s' = attentionData s ∧ showGraph s' = showGraph s
   ∧ s' = set_errorMessage (errorMessage s') s)
  ∧ (videoMode s = file → String.prefix "video/" (type f) = false →
     let s' := step (FileChange (Some f) url ok) s in
     truthy_string (errorMessage s') = true
     ∧ videoId s' = videoId s ∧ uploadedVideoUrl s' = uploadedVideoUrl s
     ∧ attentionData s' = attentionData s ∧ showGraph s' = showGraph s
     ∧ s' = set_errorMessage (errorMessage s') s).
Proof.
  split.
  - intros Hm Hx. unfold step. rewrite bool_decide_eq_true_2 by done.
    assert (Hh : handleUrlSubmit s
                 = set_errorMessage
                     (Some "Неверная ссылка на YouTube. Пожалуйста, введите корректную ссылку.")
                     s).
    { unfold handleUrlSubmit. rewrite Hx. by destruct s. }
    rewrite Hh. rewrite runEffects_same by by destruct s.
    simpl. by destruct s.
  - intros Hm Hx. unfold step. rewrite bool_decide_eq_true_2 by done.
    assert (Hh : handleFileUpload (Some f) url ok s
                 = set_errorMessage (Some "Пожалуйста, выберите видео файл.")
                     s).
    { unfold handleFileUpload. by rewrite Hx. }
    rewrite Hh. rewrite runEffects_same by by destruct s.
    simpl. by destruct s.
Qed.

(** A page address that is not a YouTube link, and a picture. *)
Lemma C8_invalid_reference_rejected_witness :
  let s1 := run [SetYoutubeUrl "https://example.org/video.mp4"] init in
  let s2 := run [ClickFileMode] init in
  let png := {| type := "image/png" |} in
  (truthy_string (errorMessage (step UrlSubmit s1)) = true
   ∧ videoId (step UrlSubmit s1) = None)
  ∧ (truthy_string
       (errorMessage (step (FileChange (Some png) "blob:p" true) s2)) = true
     ∧ uploadedVideoUrl (step (FileChange (Some png) "blob:p" true) s2)
       = None).
Proof.
  intros s1 s2 png. split.
  - destruct (proj1 (C8_invalid_reference_rejected s1 png "blob:p" true)
                eq_refl eq_refl) as (H1 & H2 & _).
    split; [exact H1|exact H2].
  - destruct (proj2 (C8_invalid_reference_rejected s2 png "blob:p" true)
                eq_refl eq_refl) as (H1 & _ & H3 & _).
    split; [exact H1|exact H3].
Defined.

(** ** Calibration across videos *)

Lemma showGraph_runEffects prev r :
  showGraph r = false → showGraph (runEffects prev r) = false.
Proof.
  assert (Hpe : ∀ r s, showGraph s = false →
                       showGraph (playerEffect r s) = false).
  { intros r' s. unfold playerEffect, destroyPlayer. by frame s. }
  assert (Hve : ∀ r s, showGraph (videoEffect r s) = showGraph s).
  { intros r' s. unfold videoEffect. by frame s. }
  assert (Huc : ∀ s, showGraph (unmountCleanup s) = showGraph s).
  { intros s. unfold unmountCleanup, stopAttentionTracking, ifHandle.
    by frame s. }
  assert (Hpc : ∀ s, showGraph (playerCleanup s) = showGraph s).
  { intros s. unfold playerCleanup, destroyPlayer. by frame s. }
  assert (Hvc : ∀ s, showGraph (videoCleanup s) = showGraph s).
  { intros s. by destruct s. }
  intros H. unfold runEffects.
  repeat (case_match; simpl);
    rewrite ?Hve; try apply Hpe; rewrite ?Huc, ?Hvc, ?Hpc; done.
Qed.

Lemma loads_hides_graph e s : loads e s → showGraph (step e s) = false.
Proof.
  intros [(-> & Hm & [id Hid])|(f & url & ok & -> & Hm & Hp)]; unfold step;
    rewrite bool_decide_eq_true_2 by done; apply showGraph_runEffects.
  - unfold handleUrlSubmit. rewrite Hid.
    assert (Ht : truthy_string (Some id) = true).
    { unfold VideoUrl.extractVideoId in Hid.
      destruct (VideoUrl.regexMatch (youtubeUrl s)); [|done].
      by destruct (truthy_string (Some s0)) eqn:E; simplify_eq. }
    rewrite Ht. by destruct s.
  - unfold handleFileUpload, startEmotionsStream. rewrite Hp. simpl.
    by frame s.
Qed.

(** C9.  Once [isCalibrated] is true no event resets it.  Loading a video
    (submitting a URL with a video id, or selecting a video file) clears
    the series buffer and the graph flag and leaves [isCalibrated] true, and
    so does the creation of a player. *)
Theorem C9_calibration_survives_reload (s : State) (evs : list Event)
    (ld : Event) (r : State) :
  isCalibrated s = true →
  isCalibrated (run evs s) = true
  ∧ (loads ld s →
     attentionData (step ld s) = [] ∧ showGraph (step ld s) = false
     ∧ isCalibrated (step ld s) = true)
  ∧ isCalibrated (playerEffect r s) = true
  ∧ (if truthy_string (videoId r) && windowYT s
     then attentionData (playerEffect r s) = []
          ∧ showGraph (playerEffect r s) = false
     else playerEffect r s = s).
Proof.
  intros Hc. split; [by rewrite isCalibrated_run, Hc|].
  split; [|split].
  - intros Hl. split; [by apply loads_clears|]. split; [by apply loads_hides_graph|].
    by rewrite isCalibrated_step, Hc.
  - destruct (calFrame_playerEffect r s) as (-> & _). done.
  - unfold playerEffect, destroyPlayer.
    destruct (truthy_string (videoId r)), (windowYT s); simpl; try done.
    by frame s.
Qed.

(** Calibration completes, a first video is loaded and played, a second
    one is submitted. *)
Lemma C9_calibration_survives_reload_witness :
  let full :=
    {| Types.type := Types.emotions;
       Types.data :=
         {| Types.rel_relaxation := None; Types.rel_attention := None;
            Types.inst_relaxation := None; Types.inst_attention := None;
            Types.calibration_percent := Some 100%Q;
            Types.is_both_sides_artifacted := None;
            Types.is_sequence_artifacted := None |} |} in
  let s :=
    run [YTApiLoaded; WsMessage full; SetYoutubeUrl "https://youtu.be/abc";
         UrlSubmit; PlayerStateChange PlayerState.PLAYING;
         SetYoutubeUrl "https://youtu.be/xyz"] init in
  videoId s = Some "abc"%string
  ∧ videoId (step UrlSubmit s) = Some "xyz"%string
  ∧ attentionData (step UrlSubmit s) = []
  ∧ isCalibrated (step UrlSubmit s) = true.
Proof.
  intros full s. split; [reflexivity|]. split; [reflexivity|].
  assert (Hl : loads UrlSubmit s).
  { left. split; [reflexivity|]. split; [reflexivity|].
    eexists. vm_compute. reflexivity. }
  destruct (C9_calibration_survives_reload s [] UrlSubmit s eq_refl)
    as (_ & H & _).
  destruct (H Hl) as (H1 & _ & H3). split; [exact H1|exact H3].
Defined.

(** ** EmotionsViewer *)

(** C10.  In [EmotionsViewer] the flag is not latched: from any state, an
    emotions event that carries a percent (whatever its value) sets
    [isCalibrating], and one without a percent that carries
    [rel_relaxation] or [rel_attention] clears it, so the flag alternates
    along an alternating sequence. *)
Theorem C10_isCalibrating_not_latched (s : EmotionsViewer.State)
    (m1 m2 : Types.WebSocketMessage) :
  Types.type m1 = Types.emotions →
  is_Some (Types.calibration_percent (Types.data m1)) →
  Types.type m2 = Types.emotions →
  Types.calibration_percent (Types.data m2) = None →
  is_Some (Types.rel_relaxation (Types.data m2))
  ∨ is_Some (Types.rel_attention (Types.data m2)) →
  EmotionsViewer.isCalibrating (EmotionsViewer.handler m1 s) = true
  ∧ EmotionsViewer.isCalibrating (EmotionsViewer.handler m2 s)
    = false
  ∧ EmotionsViewer.isCalibrating (EmotionsViewer.run [m1; m2] s) = false
  ∧ EmotionsViewer.isCalibrating (EmotionsViewer.run [m1; m2; m1] s) = true.
Proof.
  intros T1 P1 T2 P2 R2.
  assert (H1 : ∀ s, EmotionsViewer.isCalibrating
                      (EmotionsViewer.handler m1 s) = true).
  { intros s'. unfold EmotionsViewer.handler.
    by rewrite !bool_decide_eq_true_2 by done. }
  assert (H2 : ∀ s, EmotionsViewer.isCalibrating
                      (EmotionsViewer.handler m2 s) = false).
  { intros s'. unfold EmotionsViewer.handler.
    rewrite bool_decide_eq_true_2 by done. rewrite P2.
    rewrite bool_decide_eq_false_2 by (by intros [? [=]]). simpl.
    destruct R2 as [R2|R2].
    - by rewrite (bool_decide_eq_true_2 _ R2).
    - rewrite (bool_decide_eq_true_2 _ R2). by rewrite orb_true_r. }
  unfold EmotionsViewer.run. simpl. by rewrite !H1, !H2.
Qed.

(** A calibration event at 100 percent shows the indicator again after a
    reading has hidden it. *)
Lemma C10_isCalibrating_not_latched_witness :
  let mk p a :=
    {| Types.type := Types.emotions;
       Types.data :=
         {| Types.rel_relaxation := None; Types.rel_attention := a;
            Types.inst_relaxation := None; Types.inst_attention := None;
            Types.calibration_percent := p;
            Types.is_both_sides_artifacted := None;
            Types.is_sequence_artifacted := None |} |} in
  let full := mk (Some 100%Q) None in
  let reading := mk None (Some 0.7%Q) in
  EmotionsViewer.isCalibrating
    (EmotionsViewer.run [full; reading] EmotionsViewer.init) = false
  ∧ EmotionsViewer.isCalibrating
      (EmotionsViewer.run [full; reading; full] EmotionsViewer.init) = true.
Proof.
  intros mk full reading.
  destruct (C10_isCalibrating_not_latched EmotionsViewer.init full reading)
    as (_ & _ & H3 & H4); try reflexivity.
  - eexists. reflexivity.
  - right. eexists. reflexivity.
  - split; [exact H3|exact H4].
Defined.

(** ** extractVideoId on sample addresses *)

Example extractVideoId_watch :
  VideoUrl.extractVideoId "https://www.youtube.com/watch?v=dQw4w9WgXcQ&t=42"
  = Some "dQw4w9WgXcQ"%string.
Proof. reflexivity. Qed.

Example extractVideoId_short :
  VideoUrl.extractVideoId "https://youtu.be/abc123?si=x" = Some "abc123"%string.
Proof. reflexivity. Qed.

Example extractVideoId_none :
  VideoUrl.extractVideoId "https://example.org/video.mp4" = None.
Proof. reflexivity. Qed.

Example extractVideoId_empty_capture :
  VideoUrl.extractVideoId "youtube.com/watch?v=&x" = None.
Proof. reflexivity. Qed.

(** * Further properties *)

(** ** extractVideoId *)

Lemma append_cons c s t :
  String.append (String c s) t = String c (String.append s t).
Proof. reflexivity. Qed.

Lemma append_nil t : String.append EmptyString t = t.
Proof. reflexivity. Qed.

Lemma takeId_split s :
  ∃ post, s = String.append (VideoUrl.takeId s) post
          ∧ match post with
            | EmptyString => True
            | String c _ => VideoUrl.idChar c = false
            end.
Proof.
  induction s as [|c s IH]; simpl.
  - by exists EmptyString.
  - destruct (VideoUrl.idChar c) eqn:Hc.
    + destruct IH as (post & Heq & Hpost). exists post.
      rewrite append_cons. split; [by rewrite <- Heq|done].
    + by exists (String c s).
Qed.

Lemma takeId_idChars s c :
  c ∈ String.list_ascii_of_string (VideoUrl.takeId s) → VideoUrl.idChar c = true.
Proof.
  induction s as [|a s IH]; simpl; [by intros ?%elem_of_nil|].
  destruct (VideoUrl.idChar a) eqn:Ha; simpl; [|by intros ?%elem_of_nil].
  intros [->|Hin]%elem_of_cons; auto.
Qed.

Lemma takeId_append id tail :
  (∀ c, c ∈ String.list_ascii_of_string id → VideoUrl.idChar c = true) →
  match tail with
  | EmptyString => True
  | String c _ => VideoUrl.idChar c = false
  end →
  VideoUrl.takeId (String.append id tail) = id.
Proof.
  intros Hid Htail. induction id as [|a id IH];
    rewrite ?append_cons, ?append_nil; simpl.
  - destruct tail as [|c tail]; [done|]. simpl. by rewrite Htail.
  - rewrite (Hid a) by (simpl; apply elem_of_cons; auto).
    rewrite IH; [done|]. intros c Hc. apply Hid. simpl.
    apply elem_of_cons. auto.
Qed.

Lemma dropPrefix_append p s rest :
  VideoUrl.dropPrefix p s = Some rest ↔ s = String.append p rest.
Proof.
  revert s. induction p as [|a p IH]; intros s;
    rewrite ?append_cons, ?append_nil; simpl.
  - split; [by intros [= ->]|by intros ->].
  - destruct s as [|b s]; [by split|].
    destruct (Ascii.eqb_spec a b) as [->|Hne].
    + rewrite IH. split; [by intros ->|by intros [= ->]].
    + split; [done|]. intros [= -> _]. done.
Qed.

Lemma matchAlt_Some s p id :
  VideoUrl.matchAlt s p = Some id ↔
  ∃ rest, s = String.append p rest ∧ VideoUrl.takeId rest = id
          ∧ id ≠ EmptyString.
Proof.
  unfold VideoUrl.matchAlt. split.
  - destruct (VideoUrl.dropPrefix p s) as [rest|] eqn:Hd; [|done].
    apply dropPrefix_append in Hd.
    destruct (VideoUrl.takeId rest) eqn:Ht; [done|]. intros [= <-].
    exists rest. by rewrite Ht.
  - intros (rest & Hs & Ht & Hne). apply dropPrefix_append in Hs.
    rewrite Hs, Ht. by destruct id.
Qed.

Lemma firstSome_Some {A B} (f : A → option B) l b :
  VideoUrl.firstSome f l = Some b → ∃ a, a ∈ l ∧ f a = Some b.
Proof.
  induction l as [|a l IH]; simpl; [done|].
  destruct (f a) as [b'|] eqn:Hf.
  - intros [= ->]. exists a. split; [apply elem_of_cons; auto|done].
  - intros H. destruct (IH H) as (a' & Hin & Ha').
    exists a'. split; [apply elem_of_cons; auto|done].
Qed.

Lemma firstSome_None {A B} (f : A → option B) l :
  VideoUrl.firstSome f l = None ↔ ∀ a, a ∈ l → f a = None.
Proof.
  induction l as [|a l IH]; simpl.
  - split; [by intros _ a ?%elem_of_nil|done].
  - destruct (f a) as [b|] eqn:Hf.
    + split; [done|]. intros H. rewrite H in Hf; [done|].
      apply elem_of_cons; auto.
    + rewrite IH. split.
      * intros H a' [->|Hin]%elem_of_cons; auto.
      * intros H a' Hin. apply H, elem_of_cons. auto.
Qed.

Lemma regexMatch_Some url id :
  VideoUrl.regexMatch url = Some id →
  ∃ pre alt rest,
    alt ∈ VideoUrl.alternatives
    ∧ url = String.append pre (String.append alt rest)
    ∧ VideoUrl.takeId rest = id ∧ id ≠ EmptyString.
Proof.
  induction url as [|c url IH]; simpl; [done|].
  - destruct (VideoUrl.matchHere (String c url)) as [id'|] eqn:Hm.
    + intros [= ->]. apply firstSome_Some in Hm as (alt & Hin & Ha).
      apply matchAlt_Some in Ha as (rest & Hs & Ht & Hne).
      by exists EmptyString, alt, rest.
    + intros H. destruct (IH H) as (pre & alt & rest & Hin & Hs & Ht & Hne).
      exists (String c pre), alt, rest. rewrite append_cons.
      by rewrite <- Hs.
Qed.

Lemma regexMatch_None url :
  VideoUrl.regexMatch url = None ↔
  ∀ pre alt rest,
    alt ∈ VideoUrl.alternatives →
    url = String.append pre (String.append alt rest) →
    VideoUrl.takeId rest = EmptyString.
Proof.
  assert (Hhere : ∀ s, VideoUrl.matchHere s = None ↔
            ∀ alt rest, alt ∈ VideoUrl.alternatives →
                        s = String.append alt rest →
                        VideoUrl.takeId rest = EmptyString).
  { intros s. unfold VideoUrl.matchHere. rewrite firstSome_None. split.
    - intros H alt rest Hin ->. specialize (H alt Hin).
      destruct (VideoUrl.takeId rest) as [|a t] eqn:Ht; [done|].
      assert (Hs : VideoUrl.matchAlt (String.append alt rest) alt
                   = Some (String a t)).
      { apply matchAlt_Some. exists rest. by rewrite Ht. }
      congruence.
    - intros H alt Hin.
      destruct (VideoUrl.matchAlt s alt) as [id|] eqn:Hm; [|done].
      apply matchAlt_Some in Hm as (rest & Hs & Ht & Hne).
      rewrite (H alt rest Hin Hs) in Ht. congruence. }
  induction url as [|c url IH]; simpl.
  - split; [|done]. intros _ pre alt rest Hin Hs.
    destruct pre; [|done]. rewrite append_nil in Hs.
    by eapply (proj1 (Hhere EmptyString) eq_refl).
  - destruct (VideoUrl.matchHere (String c url)) as [id|] eqn:Hm.
    + split; [done|]. intros H.
      assert (Hn : VideoUrl.matchHere (String c url) = None)
        by (apply Hhere; intros alt rest Hin Hs;
            by apply (H EmptyString alt rest)).
      congruence.
    + rewrite IH. split.
      * intros H pre alt rest Hin Hs. destruct pre as [|a pre].
        -- rewrite append_nil in Hs. by eapply Hhere.
        -- rewrite append_cons in Hs. injection Hs as -> Hs. by eapply H.
      * intros H pre alt rest Hin Hs.
        apply (H (String c pre) alt rest Hin). rewrite append_cons.
        by rewrite Hs.
Qed.

Lemma takeId_empty_iff s :
  VideoUrl.takeId s = EmptyString ↔
  match s with
  | EmptyString => True
  | String c _ => VideoUrl.idChar c = false
  end.
Proof.
  destruct s as [|c s]; simpl; [done|].
  destruct (VideoUrl.idChar c); split; done.
Qed.

Lemma extractVideoId_regexMatch url :
  VideoUrl.extractVideoId url = VideoUrl.regexMatch url.
Proof.
  unfold VideoUrl.extractVideoId.
  destruct (VideoUrl.regexMatch url) as [id|] eqn:Hm; [|done].
  apply regexMatch_Some in Hm as (_ & _ & _ & _ & _ & _ & Hne).
  by destruct id.
Qed.

(** X1.  An extracted id is a piece of the address: it is not empty, it
    stands right after one of the three prefixes, it contains none of
    [&], newline, [?], [#], and it ends where the address ends or where
    such a character stands. *)
Theorem X1_extractVideoId_sound (url id : string) :
  VideoUrl.extractVideoId url = Some id →
  id ≠ EmptyString
  ∧ (∀ c, c ∈ String.list_ascii_of_string id →
          c ≠ "&"%char ∧ c ≠ "010"%char ∧ c ≠ "?"%char ∧ c ≠ "#"%char)
  ∧ ∃ pre alt post,
      alt ∈ ["youtube.com/watch?v="; "youtu.be/"; "youtube.com/embed/"]
      ∧ url = String.append pre (String.append alt (String.append id post))
      ∧ match post with
        | EmptyString => True
        | String c _ =>
            c = "&"%char ∨ c = "010"%char ∨ c = "?"%char ∨ c = "#"%char
        end.
Proof.
  assert (Hch : ∀ c, VideoUrl.idChar c = true ↔
            c ≠ "&"%char ∧ c ≠ "010"%char ∧ c ≠ "?"%char ∧ c ≠ "#"%char).
  { intros c. unfold VideoUrl.idChar.
    rewrite negb_true_iff, !orb_false_iff, !Ascii.eqb_neq. tauto. }
  rewrite extractVideoId_regexMatch. intros Hm.
  apply regexMatch_Some in Hm as (pre & alt & rest & Hin & Hs & Ht & Hne).
  split; [done|]. split.
  - intros c Hc. apply Hch. apply (takeId_idChars rest). by rewrite Ht.
  - destruct (takeId_split rest) as (post & Hrest & Hpost).
    exists pre, alt, post. split; [done|]. split.
    + by rewrite <- Ht, <- Hrest.
    + destruct post as [|c post]; [done|].
      destruct (Ascii.eqb_spec c "&"); [auto|].
      destruct (Ascii.eqb_spec c "010"); [auto|].
      destruct (Ascii.eqb_spec c "?"); [auto|].
      destruct (Ascii.eqb_spec c "#"); [auto|].
      assert (VideoUrl.idChar c = true) by by apply Hch. congruence.
Qed.

Lemma X1_extractVideoId_sound_witness :
  ∃ pre post,
    "https://www.youtube.com/watch?v=dQw4w9WgXcQ&t=42"%string
    = String.append pre (String.append "youtube.com/watch?v="
                           (String.append "dQw4w9WgXcQ" post)).
Proof.
  destruct (X1_extractVideoId_sound
              "https://www.youtube.com/watch?v=dQw4w9WgXcQ&t=42"
              "dQw4w9WgXcQ" eq_refl)
    as (_ & _ & pre & alt & post & Hin & Hs & _).
  exists "https://www."%string, "&t=42"%string. reflexivity.
Defined.


(** X3.  The three usual shapes of a YouTube address give back the id
    they were built from: the id may be any non-empty string without [&],
    newline, [?], [#], followed by nothing or by a separator and
    anything. *)
Theorem X3_extractVideoId_roundtrip (id tail : string) :
  id ≠ EmptyString →
  (∀ c, c ∈ String.list_ascii_of_string id → VideoUrl.idChar c = true) →
  match tail with
  | EmptyString => True
  | String c _ => VideoUrl.idChar c = false
  end →
  VideoUrl.extractVideoId
    (String.append "https://www.youtube.com/watch?v=" (String.append id tail))
  = Some id
  ∧ VideoUrl.extractVideoId
      (String.append "https://youtu.be/" (String.append id tail)) = Some id
  ∧ VideoUrl.extractVideoId
      (String.append "https://www.youtube.com/embed/" (String.append id tail))
    = Some id.
Proof.
  intros Hne Hid Htail.
  pose proof (takeId_append id tail Hid Htail) as Ht.
  rewrite !extractVideoId_regexMatch.
  repeat split; rewrite !append_cons, append_nil; simpl;
    unfold VideoUrl.matchHere, VideoUrl.matchAlt; simpl;
    rewrite Ht; by destruct id.
Qed.

Lemma X3_extractVideoId_roundtrip_witness :
  VideoUrl.extractVideoId "https://youtu.be/abc123?si=x" = Some "abc123"%string.
Proof.
  refine (proj1 (proj2 (X3_extractVideoId_roundtrip "abc123" "?si=x" _ _ _))).
  - done.
  - intros c Hc. simpl in Hc.
    repeat (apply elem_of_cons in Hc as [->|Hc]; [reflexivity|]).
    by apply elem_of_nil in Hc.
  - reflexivity.
Defined.

(** ** formatTime *)

Lemma length_append s t :
  String.length (String.append s t) = String.length s + String.length t.
Proof.
  induction s as [|c s IH]; [done|]. rewrite append_cons. simpl.
  by rewrite IH.
Qed.

Lemma append_inj_suffix s1 s2 t1 t2 :
  String.append s1 t1 = String.append s2 t2 →
  String.length t1 = String.length t2 → s1 = s2 ∧ t1 = t2.
Proof.
  revert s2. induction s1 as [|c s1 IH]; intros [|d s2];
    rewrite ?append_cons, ?append_nil; intros Heq Hlen.
  - done.
  - rewrite Heq in Hlen. simpl in Hlen. rewrite length_append in Hlen. lia.
  - rewrite <- Heq in Hlen. simpl in Hlen. rewrite length_append in Hlen.
    lia.
  - injection Heq as -> Heq. destruct (IH s2 Heq Hlen) as [-> ->]. done.
Qed.

Lemma Number_toString_inj a b :
  Number_toString a = Number_toString b → a = b.
Proof.
  unfold Number_toString. intros H. apply to_int_inj.
  assert (Hisi : ∀ z, NilZero.int_of_string
                        (NilZero.string_of_int (Z.to_int z))
                      = Some (Z.to_int z)).
  { intros z. apply NilZero.isi; destruct z as [|p|p]; simpl; try done;
      intros [= Hp]; by apply Unsigned.to_uint_nonnil in Hp. }
  apply (f_equal NilZero.int_of_string) in H. rewrite !Hisi in H.
  congruence.
Qed.

(** The two characters of the seconds field, for a remainder below 60. *)
Lemma seconds_field (n : nat) :
  n < 60 →
  padStart 2 "0" (Number_toString (Z.of_nat n))
  = String (ascii_of_nat (48 + n / 10))
      (String (ascii_of_nat (48 + n mod 10)) EmptyString).
Proof.
  intros Hn.
  assert (Hall : forallb
            (fun n => bool_decide
               (padStart 2 "0" (Number_toString (Z.of_nat n))
                = String (ascii_of_nat (48 + n / 10))
                    (String (ascii_of_nat (48 + n mod 10)) EmptyString)))
            (seq 0 60) = true) by by vm_compute.
  rewrite forallb_forall in Hall.
  eapply bool_decide_eq_true_1, Hall, in_seq. lia.
Qed.

Lemma formatTime_nonneg (seconds : Z) :
  (0 ≤ seconds)%Z →
  formatTime seconds
  = String.append (Number_toString (seconds / 60))
      (String ":"
         (String (ascii_of_nat (48 + Z.to_nat (seconds mod 60) / 10))
            (String (ascii_of_nat (48 + Z.to_nat (seconds mod 60) mod 10))
               EmptyString))).
Proof.
  intros H. unfold formatTime. rewrite Z.rem_mod_nonneg by lia.
  assert (Hm : (0 ≤ seconds mod 60 < 60)%Z) by (apply Z.mod_pos_bound; lia).
  rewrite <- (Z2Nat.id (seconds mod 60)) at 1 by lia.
  rewrite seconds_field by lia. done.
Qed.



(** ** A proof principle for [step]

    A reflexive and transitive relation that is respected by the handlers
    and effects an event runs holds between a state and its successor.
    Each handler comes with what [step] knows when it calls it; an effect
    body comes with the rendered state [r], whose mode, address and player
    are those of the state it runs in. *)

Section StepRel.

Variable R : State → State → Prop.
Variable e : Event.
Hypothesis R_refl : ∀ s, R s s.
Hypothesis R_trans : ∀ s1 s2 s3, R s1 s2 → R s2 s3 → R s1 s3.

Hypothesis R_set_youtubeUrl :
  ∀ u, e = SetYoutubeUrl u → ∀ s, R s (set_youtubeUrl u s).
Hypothesis R_handleUrlSubmit :
  e = UrlSubmit → ∀ s, videoMode s = youtube → R s (handleUrlSubmit s).
Hypothesis R_handleFileUpload :
  ∀ f url ok, e = FileChange f url ok →
  ∀ s, videoMode s = file → R s (handleFileUpload f url ok s).
Hypothesis R_clickYoutubeMode :
  e = ClickYoutubeMode → ∀ s, R s (clickYoutubeMode s).
Hypothesis R_clickFileMode :
  e = ClickFileMode → ∀ s, R s (clickFileMode s).
Hypothesis R_playerCleanup :
  rendersAnew e = true → ∀ s, R s (playerCleanup s).
Hypothesis R_videoCleanup :
  rendersAnew e = true → ∀ s, R s (videoCleanup s).
Hypothesis R_unmountCleanup :
  rendersAnew e = true → ∀ s, R s (unmountCleanup s).
Hypothesis R_playerEffect :
  rendersAnew e = true →
  ∀ r s, videoMode r = videoMode s → player r = player s →
         R s (playerEffect r s).
Hypothesis R_videoEffect :
  rendersAnew e = true →
  ∀ r s, videoMode r = videoMode s →
         uploadedVideoUrl r = uploadedVideoUrl s →
         R s (videoEffect r s).
Hypothesis R_set_windowYT :
  e = YTApiLoaded → ∀ s, R s (set_windowYT true s).
Hypothesis R_onPlayerReady :
  ∀ ok, e = PlayerReady ok →
  ∀ p s, ytPlayer s = Some p → R s (onPlayerReady p ok s).
Hypothesis R_onPlayerStateChange :
  ∀ st, e = PlayerStateChange st →
  ∀ p s, ytPlayer s = Some p → R s (onPlayerStateChange p st s).
Hypothesis R_handler : ∀ m, e = WsMessage m → ∀ s, R s (handler m s).
Hypothesis R_trackingTick :
  ∀ h t, e = IntervalFire h t →
  ∀ c s, timers s !! h = Some (TrackingTick c) → R s (trackingTick c t s).
Hypothesis R_seekCheck :
  ∀ h t, e = IntervalFire h t →
  ∀ c s, timers s !! h = Some (SeekCheck c) → R s (seekCheck c t s).
Hypothesis R_handlePlay :
  e = VideoPlay → ∀ l s, videoListeners s = Some l → R s (handlePlay l s).
Hypothesis R_handlePause :
  e = VideoPause → ∀ s, is_Some (videoListeners s) → R s (handlePause s).
Hypothesis R_handleEnded :
  e = VideoEnded → ∀ s, is_Some (videoListeners s) → R s (handleEnded s).
Hypothesis R_set_video :
  isElementEvent e = true →
  ∀ v s, is_Some (videoListeners s) → R s (set_video v s).
Hypothesis R_handleSeeking :
  ∀ t, e = VideoSeeking t →
  ∀ l s, videoListeners s = Some l → R s (handleSeeking l s).
Hypothesis R_handleTimeUpdate :
  ∀ t, e = VideoTimeUpdate t →
  ∀ l s, videoListeners s = Some l → R s (handleTimeUpdate l s).

Lemma runEffects_rel prev r : rendersAnew e = true → R r (runEffects prev r).
Proof.
  intros He.
  assert (Hpc : ∀ s, videoMode (playerCleanup s) = videoMode s
                     ∧ player (playerCleanup s) = player s
                     ∧ uploadedVideoUrl (playerCleanup s)
                       = uploadedVideoUrl s).
  { intros s. unfold playerCleanup, destroyPlayer. by frame s. }
  assert (Hvc : ∀ s, videoMode (videoCleanup s) = videoMode s
                     ∧ player (videoCleanup s) = player s
                     ∧ uploadedVideoUrl (videoCleanup s)
                       = uploadedVideoUrl s).
  { intros s. by destruct s. }
  assert (Huc : ∀ s, videoMode (unmountCleanup s) = videoMode s
                     ∧ player (unmountCleanup s) = player s
                     ∧ uploadedVideoUrl (unmountCleanup s)
                       = uploadedVideoUrl s).
  { intros s. unfold unmountCleanup, stopAttentionTracking, ifHandle.
    by frame s. }
  assert (Hpe : ∀ r s, videoMode (playerEffect r s) = videoMode s
                       ∧ uploadedVideoUrl (playerEffect r s)
                         = uploadedVideoUrl s).
  { intros r' s. unfold playerEffect, destroyPlayer. by frame s. }
  unfold runEffects.
  set (s1 := if negb (bool_decide (videoId prev = videoId r))
             then playerCleanup r else r).
  assert (H1 : R r s1 ∧ videoMode s1 = videoMode r ∧ player s1 = player r
               ∧ uploadedVideoUrl s1 = uploadedVideoUrl r).
  { unfold s1. case_match; [|by auto]. split; [by apply R_playerCleanup|].
    apply Hpc. }
  set (s2 := if _ : bool then videoCleanup s1 else s1).
  assert (H2 : R r s2 ∧ videoMode s2 = videoMode r ∧ player s2 = player r
               ∧ uploadedVideoUrl s2 = uploadedVideoUrl r).
  { destruct H1 as (H1 & E1 & E2 & E3). unfold s2. case_match; [|by auto].
    destruct (Hvc s1) as (-> & -> & ->).
    split; [|done]. eapply R_trans; [exact H1|by apply R_videoCleanup]. }
  set (s3 := if _ : bool then unmountCleanup s2 else s2).
  assert (H3 : R r s3 ∧ videoMode s3 = videoMode r ∧ player s3 = player r
               ∧ uploadedVideoUrl s3 = uploadedVideoUrl r).
  { destruct H2 as (H2 & E1 & E2 & E3). unfold s3. case_match; [|by auto].
    destruct (Huc s2) as (-> & -> & ->).
    split; [|done]. eapply R_trans; [exact H2|by apply R_unmountCleanup]. }
  set (s4 := if _ : bool then playerEffect r s3 else s3).
  assert (H4 : R r s4 ∧ videoMode s4 = videoMode r
               ∧ uploadedVideoUrl s4 = uploadedVideoUrl r).
  { destruct H3 as (H3 & E1 & E2 & E3). unfold s4. case_match; [|by auto].
    destruct (Hpe r s3) as (-> & ->).
    split; [|done]. eapply R_trans; [exact H3|by apply R_playerEffect]. }
  destruct H4 as (H4 & E1 & E2). case_match; [|done].
  eapply R_trans; [exact H4|by apply R_videoEffect].
Qed.

Lemma step_rel s : R s (step e s).
Proof.
  assert (Hsv : ∀ v s, videoListeners (set_video v s) = videoListeners s)
    by (intros v s'; by destruct s').
  assert (Hsome : ∀ s l, videoListeners s = Some l →
                         is_Some (videoListeners s))
    by (intros s' l ->; by eexists).
  assert (Hmode : ∀ (m : VideoMode) s,
            bool_decide (videoMode s = m) = true → videoMode s = m)
    by (intros m s'; apply bool_decide_eq_true_1).
  pose proof runEffects_rel as Hre.
  destruct e; simpl; unfold withPlayer, withListeners.
  - case_match; [by apply R_set_youtubeUrl|apply R_refl].
  - case_match eqn:Hm; [|apply R_refl].
    eapply R_trans; [by apply R_handleUrlSubmit, Hmode|].
    by apply Hre.
  - case_match eqn:Hm; [|apply R_refl].
    eapply R_trans; [by apply R_handleFileUpload, Hmode|].
    by apply Hre.
  - eapply R_trans; [by apply R_clickYoutubeMode|by apply Hre].
  - eapply R_trans; [by apply R_clickFileMode|by apply Hre].
  - by apply R_set_windowYT.
  - case_match; [by eapply R_onPlayerReady|apply R_refl].
  - case_match; [by eapply R_onPlayerStateChange|apply R_refl].
  - by apply R_handler.
  - case_match eqn:Hl; [|apply R_refl]. case_match.
    + by eapply R_trackingTick.
    + by eapply R_seekCheck.
  - case_match; [by apply R_handlePlay|apply R_refl].
  - case_match eqn:Hl; [|apply R_refl]. apply R_handlePause; by eauto.
  - case_match eqn:Hl; [|apply R_refl]. apply R_handleEnded; by eauto.
  - case_match eqn:Hl; [|apply R_refl].
    eapply R_trans; [apply R_set_video; by eauto|].
    eapply R_handleSeeking; [done|]. by rewrite Hsv.
  - case_match eqn:Hl; [|apply R_refl]. apply R_set_video; by eauto.
  - case_match eqn:Hl; [|apply R_refl].
    eapply R_trans; [apply R_set_video; by eauto|].
    eapply R_handleTimeUpdate; [done|]. by rewrite Hsv.
Qed.

End StepRel.

(** ** The latest values of the feed *)

Lemma lastOf_snoc {A} (f : Event → option A) evs e :
  lastOf f (evs ++ [e])
  = match f e with Some a => Some a | None => lastOf f evs end.
Proof. unfold lastOf. by rewrite foldl_app. Qed.

Lemma feed_step e s :
  currentAttention (step e s)
  = match attentionOf e with
    | Some a => Some a
    | None => currentAttention s
    end
  ∧ currentAttentionRef (step e s)
    = match attentionOf e with
      | Some a => Some a
      | None => currentAttentionRef s
      end
  ∧ calibrationPercent (step e s)
    = match percentOf e with
      | Some p => p
      | None => calibrationPercent s
      end.
Proof.
  destruct e;
    try (simpl attentionOf; simpl percentOf; cbv beta iota;
         apply (step_rel
                  (fun s s' =>
                     currentAttention s' = currentAttention s
                     ∧ currentAttentionRef s' = currentAttentionRef s
                     ∧ calibrationPercent s' = calibrationPercent s));
         [ done
         | by intros s1 s2 s3 (-> & -> & ->) (-> & -> & ->)
         | prim_frame .. ]).
  simpl. unfold handler. destruct message as [ty d]; simpl.
  destruct (bool_decide (ty = Types.emotions)); [|done].
  destruct (Types.calibration_percent d) as [p|].
  - by frame s.
  - destruct (Types.rel_attention d); by frame s.
Qed.

Lemma feed_run evs :
  currentAttention (run evs init) = lastOf attentionOf evs
  ∧ currentAttentionRef (run evs init) = lastOf attentionOf evs
  ∧ calibrationPercent (run evs init) = default 0%Q (lastOf percentOf evs).
Proof.
  induction evs as [|e evs IH] using rev_ind; [done|].
  rewrite run_snoc, !lastOf_snoc.
  destruct IH as (IH1 & IH2 & IH3).
  destruct (feed_step e (run evs init)) as (-> & -> & ->).
  rewrite IH1, IH2, IH3.
  by destruct (attentionOf e), (percentOf e).
Qed.

(** X5.  After any sequence of events, the attention value on screen and
    the one the sampling callback reads are the same, the [rel_attention]
    of the last emotions event that carried one and no percent (none
    before the first); and the percent of the calibration bar is that of
    the last emotions event that carried one (0 before the first). *)
Theorem X5_latest_feed_values (evs : list Event) :
  let s := run evs init in
  currentAttention s = lastOf attentionOf evs
  ∧ currentAttentionRef s = lastOf attentionOf evs
  ∧ calibrationPercent s = default 0%Q (lastOf percentOf evs).
Proof. apply feed_run. Qed.

(** ** The series buffer *)

Lemma buffer_step e s :
  attentionData (step e s) = attentionData s
  ∨ attentionData (step e s) = []
  ∨ ∃ t a, currentAttentionRef s = Some a
           ∧ attentionData (step e s)
             = attentionData s
               ++ [{| time := Math_round t; attention := a |}].
Proof.
  destruct e;
    try (match goal with
         | |- context [step ?e s] =>
             assert (calFrame s (step e s)) as (_ & _ & [H|H])
               by (apply calFrame_step; intros; discriminate)
         end; [by left|by auto]).
  - left. apply attentionData_emotionsHandler.
  - simpl. destruct (timers s !! h) as [[c|c]|]; [| |by left].
    + unfold trackingTick. destruct (currentAttentionRef s) as [a|];
        [|by left].
      repeat case_match; try (by left); right; right; eexists _, a;
        (split; [done|]); by destruct s.
    + left. apply (f_equal (fun v => v.2) (calView_seekCheck c t s)).
Qed.


Lemma lastOf_Some {A} (f : Event → option A) evs a :
  lastOf f evs = Some a → ∃ e, e ∈ evs ∧ f e = Some a.
Proof.
  induction evs as [|e evs IH] using rev_ind; [done|].
  rewrite lastOf_snoc. destruct (f e) as [a'|] eqn:Hf.
  - intros [= ->]. exists e. split; [|done]. apply elem_of_app. right.
    by apply list_elem_of_singleton.
  - intros H. destruct (IH H) as (e' & Hin & He').
    exists e'. split; [|done]. apply elem_of_app. by left.
Qed.

(** X7.  Every attention value in the series buffer was delivered by the
    feed: it is the [rel_attention] of an emotions event without a percent
    that occurred before. *)
Theorem X7_samples_come_from_feed (evs : list Event)
    (p : AttentionDataPoint) :
  p ∈ attentionData (run evs init) →
  ∃ e, e ∈ evs ∧ attentionOf e = Some (attention p).
Proof.
  revert p. induction evs as [|e evs IH] using rev_ind; intros p.
  - by intros ?%elem_of_nil.
  - rewrite run_snoc.
    destruct (buffer_step e (run evs init)) as [->|[->|(t & a & Ha & ->)]].
    + intros Hp. destruct (IH p Hp) as (e' & Hin & He').
      exists e'. split; [|done]. apply elem_of_app. by left.
    + by intros ?%elem_of_nil.
    + intros [Hp|Hp]%elem_of_app.
      * destruct (IH p Hp) as (e' & Hin & He').
        exists e'. split; [|done]. apply elem_of_app. by left.
      * apply list_elem_of_singleton in Hp as ->. simpl.
        destruct (feed_run evs) as (_ & Href & _). rewrite Href in Ha.
        destruct (lastOf_Some _ _ _ Ha) as (e' & Hin & He').
        exists e'. split; [|done]. apply elem_of_app. by left.
Qed.

Lemma X7_samples_come_from_feed_witness :
  let reading :=
    {| Types.type := Types.emotions;
       Types.data :=
         {| Types.rel_relaxation := None; Types.rel_attention := Some 0.7%Q;
            Types.inst_relaxation := None; Types.inst_attention := None;
            Types.calibration_percent := None;
            Types.is_both_sides_artifacted := None;
            Types.is_sequence_artifacted := None |} |} in
  let evs :=
    [ClickFileMode; FileChange (Some {| type := "video/mp4" |}) "blob:a" true;
     WsMessage reading; VideoPlay; VideoTimeUpdate 3; IntervalFire 1 0] in
  ∃ e, e ∈ evs ∧ attentionOf e = Some 0.7%Q.
Proof.
  intros reading evs.
  apply (X7_samples_come_from_feed evs {| time := 3; attention := 0.7 |}).
  vm_compute. apply list_elem_of_singleton. reflexivity.
Defined.

(** ** The first YouTube video *)

Lemma noPlayerCaptured_delete tm h :
  noPlayerCaptured tm → noPlayerCaptured (delete h tm).
Proof.
  intros H h' c. rewrite lookup_delete_Some. intros [_ Hl]. by eapply H.
Qed.

Lemma noPlayerCaptured_insert tm h cb :
  noPlayerCaptured tm →
  (∀ c, cb = TrackingTick c → c_videoMode c = youtube → c_player c = None) →
  noPlayerCaptured (<[h := cb]> tm).
Proof.
  intros H Hc h' c. rewrite lookup_insert_Some. intros [[_ ->]|[_ Hl]].
  - by apply Hc.
  - by eapply H.
Qed.

Lemma firstPlayerInv_step e s : firstPlayerInv s → firstPlayerInv (step e s).
Proof.
  revert s.
  apply (step_rel (fun s s' => firstPlayerInv s → firstPlayerInv s'));
    [ done | by eauto | .. ].
  all: fp_prim.
  all: simpl.
  all: repeat first
         [ apply noPlayerCaptured_delete
         | apply noPlayerCaptured_insert;
           [|intros; simplify_eq; simpl; eauto; try done] ].
  all: try (apply K1; lia).
  all: try (apply K3; lia).
  all: try (eapply K2; [lia|done|done]).
  all: try (eapply K2; [lia|done]).
  all: try (by eapply K4).
  all: try (exfalso;
            match goal with
            | H : c_videoMode (vl_closure ?l) = youtube |- _ =>
                rewrite (K4 l eq_refl) in H; discriminate
            end).
  all: try (split_bools; try done).
  all: try (exfalso;
            match goal with
            | Hl : _ !! ?h = Some (TrackingTick ?c),
              Hm : c_videoMode ?c = youtube,
              Hs : is_Some (c_player ?c) |- _ =>
                rewrite (K3 ltac:(assumption) h c Hl Hm) in Hs;
                by destruct Hs
            end).
Qed.

Lemma firstPlayerInv_run evs : firstPlayerInv (run evs init).
Proof.
  induction evs as [|e evs IH] using rev_ind.
  - by repeat split.
  - rewrite run_snoc. by apply firstPlayerInv_step.
Qed.

(** X8.  Nothing is recorded for the first YouTube video.  The sampling
    callback reads the [player] of the render in which the player was
    created, and for the first player that is [null]: as long as no file is
    loaded and at most one player has been created, the series buffer is
    empty. *)
Theorem X8_first_youtube_video_records_nothing (evs : list Event) :
  let s := run evs init in
  uploadedVideoUrl s = None → nextPlayer s ≤ 1 → attentionData s = [].
Proof. intros s. apply (firstPlayerInv_run evs). Qed.

(** Calibrated, playing, an attention value known, the sampling interval
    firing: the buffer stays empty. *)
Lemma X8_first_youtube_video_records_nothing_witness :
  let reading :=
    {| Types.type := Types.emotions;
       Types.data :=
         {| Types.rel_relaxation := None; Types.rel_attention := Some 0.7%Q;
            Types.inst_relaxation := None; Types.inst_attention := None;
            Types.calibration_percent := None;
            Types.is_both_sides_artifacted := None;
            Types.is_sequence_artifacted := None |} |} in
  let evs := [YTApiLoaded; SetYoutubeUrl "https://youtu.be/abc"; UrlSubmit;
              PlayerReady true; WsMessage reading;
              PlayerStateChange PlayerState.PLAYING;
              IntervalFire 2 5; IntervalFire 2 6] in
  (isCalibrated (run evs init) = true
   ∧ timerRunning (run evs init) = true
   ∧ currentAttentionRef (run evs init) = Some 0.7%Q)
  ∧ attentionData (run evs init) = [].
Proof.
  intros reading evs. split; [by vm_compute|].
  apply (X8_first_youtube_video_records_nothing evs); [reflexivity|].
  vm_compute. lia.
Defined.

(** ** The results view *)

Lemma showGraph_step e s :
  isEnd e = false → showGraph s = false → showGraph (step e s) = false.
Proof.
  intros He. revert s.
  apply (step_rel (fun s s' => showGraph s = false → showGraph s' = false));
    [ done | by eauto | .. ];
    intros; simpl in *; try discriminate; simplify_eq; simpl in *;
    unfold_tracker;
    match goal with H : showGraph ?s = false |- _ => revert H; frame s end;
    congruence.
Qed.

Lemma showGraph_run evs s :
  Forall (fun e => isEnd e = false) evs →
  showGraph s = false → showGraph (run evs s) = false.
Proof.
  revert s. induction evs as [|e evs IH]; intros s Hf Hs; [done|].
  apply Forall_cons in Hf as [He Hf]. simpl. apply IH; [done|].
  by apply showGraph_step.
Qed.

(** X9.  The results view is hidden from the loading of a video until the
    video ends, and the end of the video shows it. *)
Theorem X9_results_shown_from_end_to_load (s : State) (ld fin : Event)
    (evs : list Event) :
  loads ld s →
  Forall (fun e => isEnd e = false) evs →
  finishes fin (run evs (step ld s)) →
  showGraph (run evs (step ld s)) = false
  ∧ showGraph (step fin (run evs (step ld s))) = true.
Proof.
  intros Hl Hf Hfin. split.
  - apply showGraph_run; [done|]. by apply loads_hides_graph.
  - generalize dependent (run evs (step ld s)). intros s'.
    intros [[-> [p Hp]]|[-> [l Hl']]]; simpl;
      unfold withPlayer, withListeners.
    + rewrite Hp. unfold_tracker. by frame s'.
    + rewrite Hl'. unfold_tracker. by frame s'.
Qed.

Lemma X9_results_shown_from_end_to_load_witness :
  let s := run [ClickFileMode] init in
  let ld := FileChange (Some {| type := "video/mp4" |}) "blob:a" true in
  let evs := [VideoPlay; VideoTimeUpdate 1; VideoPause; VideoPlay] in
  showGraph (run evs (step ld s)) = false
  ∧ showGraph (step VideoEnded (run evs (step ld s))) = true.
Proof.
  intros s ld evs.
  apply (X9_results_shown_from_end_to_load s ld VideoEnded evs).
  - right. exists {| type := "video/mp4" |}, "blob:a"%string, true.
    split; [reflexivity|]. split; reflexivity.
  - repeat constructor.
  - right. split; [reflexivity|]. eexists. vm_compute. reflexivity.
Defined.

(** ** The seek check of the YouTube player *)

Lemma size_filter_le_1 {A} (P : nat * A → Prop) `{∀ x, Decision (P x)}
    (m : gmap nat A) h0 :
  (∀ h a, m !! h = Some a → P (h, a) → h = h0) →
  size (filter P m) ≤ 1.
Proof.
  intros Hall. destruct (filter P m !! h0) as [a|] eqn:Hl.
  - assert (Heq : filter P m = {[ h0 := a ]}).
    { apply map_eq. intros h. destruct (decide (h = h0)) as [->|Hne].
      - by rewrite lookup_singleton_eq.
      - rewrite lookup_singleton_ne by done.
        apply map_lookup_filter_None. right. intros a' Hl' HP.
        by apply Hall in HP. }
    by rewrite Heq, map_size_singleton.
  - assert (Heq : filter P m = ∅).
    { apply map_empty. intros h. destruct (decide (h = h0)) as [->|Hne].
      - done.
      - apply map_lookup_filter_None. right. intros a' Hl' HP.
        by apply Hall in HP. }
    rewrite Heq, map_size_empty. lia.
Qed.

Lemma seekInv_step e s :
  seekInv s ∧ 0 < nextTimer s → seekInv (step e s) ∧ 0 < nextTimer (step e s).
Proof.
  revert s.
  apply (step_rel (fun s s' => seekInv s ∧ 0 < nextTimer s →
                               seekInv s' ∧ 0 < nextTimer s'));
    [ done | by eauto | .. ];
    intros; simpl in *; try discriminate; simplify_eq; simpl in *;
    unfold_tracker;
    match goal with
    | H : seekInv ?s ∧ _ |- _ => revert H; unfold seekInv; frame s
    end;
    intros [[S1 S2] S3]; (split; [split|]); simpl; try lia; try done;
    intros h' c'; rewrite ?lookup_insert_Some, ?lookup_delete_Some;
    intros; destruct_and?; destruct_or?; destruct_and?; simpl in *;
    simplify_eq; try done; try lia; eauto;
    try (match goal with
         | Hl : _ !! _ = Some (SeekCheck _) |- _ =>
             apply S1 in Hl; simplify_eq; try done; try lia
         end);
    try (match goal with
         | H : Some 0 = Some _ |- _ => apply S2 in H; lia
         | H : ∀ h, Some 0 = Some h → _ |- _ =>
             specialize (H 0 eq_refl); lia
         end).
Qed.

Lemma seekInv_run evs :
  seekInv (run evs init) ∧ 0 < nextTimer (run evs init).
Proof.
  induction evs as [|e evs IH] using rev_ind.
  - split; [split|]; simpl; [|done|lia]. intros h c.
    by rewrite lookup_empty.
  - rewrite run_snoc. by apply seekInv_step.
Qed.

(** X10.  In every reachable state at most one seek check of the YouTube
    player is live, the one whose handle [youtubeSeekCheckIntervalRef]
    holds; when the player reports "ended" none is left. *)
Theorem X10_single_seek_check (evs : list Event) :
  let s := run evs init in
  size (seekCheckTimers s) ≤ 1
  ∧ (∀ h c, timers s !! h = Some (SeekCheck c) →
            youtubeSeekCheckIntervalRef s = Some h)
  ∧ (∀ p, seekCheckTimers (onPlayerStateChange p PlayerState.ENDED s) = ∅).
Proof.
  intros s. destruct (seekInv_run evs) as [[S1 S2] S3]. fold s in S1, S2, S3.
  split; [|split; [done|]].
  - unfold seekCheckTimers.
    apply (size_filter_le_1 _ _
             (default 0 (youtubeSeekCheckIntervalRef s))).
    intros h [c|c] Hl; simpl; [done|]. intros _.
    by rewrite (S1 h c Hl).
  - intros p. apply map_empty. intros h.
    apply map_lookup_filter_None. right. intros [c|c] Hl; simpl; [done|].
    exfalso. revert Hl. rewrite onPlayerStateChange_ENDED. simpl.
    unfold stopAttentionTracking, ifHandle, clearInterval.
    revert S1 S2. generalize s. clear. intros s S1 S2.
    destruct s; simpl in *.
    repeat (case_match; simpl in *); simplify_eq;
      rewrite ?lookup_delete_Some; intros; destruct_and?;
      try (match goal with
           | Hl : _ !! _ = Some (SeekCheck _) |- _ =>
               apply S1 in Hl; simplify_eq; try done
           end);
      try (specialize (S2 0 eq_refl); lia).
Qed.

(** ** The last valid time of the YouTube player *)

Lemma lastYouTubeTime_step e s :
  nextPlayer s ≤ nextPlayer (step e s)
  ∧ (nextPlayer s = nextPlayer (step e s) →
     (lastYouTubeTimeRef s <= lastYouTubeTimeRef (step e s))%Q).
Proof.
  revert s.
  apply (step_rel
           (fun s s' =>
              nextPlayer s ≤ nextPlayer s'
              ∧ (nextPlayer s = nextPlayer s' →
                 (lastYouTubeTimeRef s <= lastYouTubeTimeRef s')%Q)));
    [ intros s; split; [lia|]; intros _; apply Qle_refl
    | intros s1 s2 s3 [H1 H1'] [H2 H2']; split; [lia|]; intros Heq;
      eapply Qle_trans; [apply H1'|apply H2']; lia
    | .. ].
  all: try (prim_frame; (split; [lia|intros _; apply Qle_refl]); fail).
  all: try (intros _ r s _ _; unfold playerEffect, destroyPlayer;
            frame s; (split; [lia|intros; try lia; apply Qle_refl]); fail).
  intros h t _ c s _. split.
  - apply Nat.eq_le_incl. unfold seekCheck, seekTo. by frame s.
  - intros _. apply seekCheck_lastYouTubeTime_mono.
Qed.

Lemma lastYouTubeTime_run evs s :
  nextPlayer s ≤ nextPlayer (run evs s)
  ∧ (nextPlayer s = nextPlayer (run evs s) →
     (lastYouTubeTimeRef s <= lastYouTubeTimeRef (run evs s))%Q).
Proof.
  revert s. induction evs as [|e evs IH]; intros s; simpl.
  - split; [lia|]. intros _. apply Qle_refl.
  - destruct (lastYouTubeTime_step e s) as [H1 H1'].
    destruct (IH (step e s)) as [H2 H2']. split; [lia|]. intros Heq.
    eapply Qle_trans; [apply H1'|apply H2']; lia.
Qed.

(** X11.  While no new player is created the last valid time of the
    YouTube player never goes down, whatever happens; a seek check moves it
    to the maximum of its value and the time the player reports. *)
Theorem X11_lastYouTubeTime_monotone (evs : list Event) (s : State)
    (c : Closure) (t : Q) :
  (nextPlayer (run evs s) = nextPlayer s →
   (lastYouTubeTimeRef s <= lastYouTubeTimeRef (run evs s))%Q)
  ∧ (is_Some (playerRef s) → c_videoMode c = youtube →
     lastYouTubeTimeRef (seekCheck c t s)
     = Math_max (lastYouTubeTimeRef s) t).
Proof.
  split.
  - intros H. by apply lastYouTubeTime_run.
  - apply seekCheck_lastYouTubeTime.
Qed.

Lemma X11_lastYouTubeTime_monotone_witness :
  let s := run [YTApiLoaded; SetYoutubeUrl "https://youtu.be/abc"; UrlSubmit;
                PlayerReady true; IntervalFire 1 10] init in
  lastYouTubeTimeRef s = 10%Q
  ∧ (10 <= lastYouTubeTimeRef
             (run [IntervalFire 1 4; PlayerStateChange PlayerState.PAUSED;
                   IntervalFire 1 9.5] s))%Q
  ∧ lastYouTubeTimeRef (seekCheck (capture init) 12 s) = 12%Q.
Proof.
  intros s.
  destruct (X11_lastYouTubeTime_monotone
              [IntervalFire 1 4; PlayerStateChange PlayerState.PAUSED;
               IntervalFire 1 9.5] s (capture init) 12) as [H1 H2].
  split; [reflexivity|]. split.
  - apply H1. reflexivity.
  - rewrite H2; [reflexivity|by eexists|reflexivity].
Defined.

(** ** What the seek guards guarantee *)

Lemma Qltb_ge x y : Qltb x y = false ↔ (y <= x)%Q.
Proof.
  split.
  - intros H. apply Qnot_lt_le. intros Hlt. apply Qltb_lt in Hlt. congruence.
  - intros H. destruct (Qltb x y) eqn:E; [|done].
    apply Qltb_lt in E. apply Qle_not_lt in H. done.
Qed.

(** X12.  After a seek on the element is handled, the position is never
    more than the tolerance behind the last valid time: a seek to a
    position at least [lastValidTime - 0.5] (every forward seek among
    them) is left alone, any other is answered by [lastValidTime].  The
    seek check of the YouTube player, too, sends no [seekTo] when the
    reported time is at least [lastYouTubeTime - 1]. *)
Theorem X12_seek_guard_postcondition (s : State) (l : VideoListeners)
    (t : Q) (c : Closure) :
  videoListeners s = Some l →
  let s' := step (VideoSeeking t) s in
  (lastValidTime l - SEEK_TOLERANCE <= currentTime (video s'))%Q
  ∧ ((lastValidTime l - SEEK_TOLERANCE <= t)%Q → currentTime (video s') = t)
  ∧ ((t < lastValidTime l - SEEK_TOLERANCE)%Q →
     currentTime (video s') = lastValidTime l)
  ∧ ((lastYouTubeTimeRef s - YOUTUBE_SEEK_THRESHOLD <= t)%Q →
     ytPlayer (seekCheck c t s) = ytPlayer s).
Proof.
  intros Hl. simpl. unfold withListeners. rewrite Hl.
  unfold handleSeeking, seekCheck, seekTo. destruct s; simpl in *.
  unfold SEEK_TOLERANCE, YOUTUBE_SEEK_THRESHOLD.
  repeat split.
  - destruct (Qltb t _) eqn:E; simpl.
    + lra.
    + by apply Qltb_ge in E.
  - intros H. apply Qltb_ge in H. by rewrite H.
  - intros H. apply Qltb_lt in H. by rewrite H.
  - intros H. apply Qltb_ge in H. rewrite H. by repeat case_match.
Qed.

Lemma X12_seek_guard_postcondition_witness :
  let s := run [ClickFileMode;
                FileChange (Some {| type := "video/mp4" |}) "blob:a" true;
                VideoPlay; VideoTimeUpdate 10] init in
  (9.5 <= currentTime (video (step (VideoSeeking 3) s)))%Q
  ∧ currentTime (video (step (VideoSeeking 42) s)) = 42%Q.
Proof.
  intros s.
  destruct (X12_seek_guard_postcondition s
              {| lastValidTime := 10; vl_closure := capture (run [ClickFileMode] init) |}
              3 (capture init) eq_refl) as (H1 & _).
  destruct (X12_seek_guard_postcondition s
              {| lastValidTime := 10; vl_closure := capture (run [ClickFileMode] init) |}
              42 (capture init) eq_refl) as (_ & H2 & _).
  split; [exact H1|]. apply H2. by vm_compute.
Defined.

(** ** The listeners of the video element *)

Lemma listenersInv_view s s' :
  listenersView s' = listenersView s → listenersInv s → listenersInv s'.
Proof.
  unfold listenersView, listenersInv, htmlVideoRef. by intros [= -> -> ->].
Qed.

Lemma listenersView_runEffects prev r :
  listenersView (runEffects prev r)
  = if negb (bool_decide (uploadedVideoUrl prev = uploadedVideoUrl r))
       || negb (bool_decide (videoMode prev = videoMode r))
    then (if htmlVideoRef r
          then Some {| lastValidTime := 0; vl_closure := capture r |}
          else None,
          videoMode r, uploadedVideoUrl r)
    else listenersView r.
Proof.
  assert (Hpc : ∀ s, videoListeners (playerCleanup s) = videoListeners s
                     ∧ videoMode (playerCleanup s) = videoMode s
                     ∧ uploadedVideoUrl (playerCleanup s)
                       = uploadedVideoUrl s).
  { intros s. unfold playerCleanup, destroyPlayer. by frame s. }
  assert (Huc : ∀ s, videoListeners (unmountCleanup s) = videoListeners s
                     ∧ videoMode (unmountCleanup s) = videoMode s
                     ∧ uploadedVideoUrl (unmountCleanup s)
                       = uploadedVideoUrl s).
  { intros s. unfold unmountCleanup, stopAttentionTracking, ifHandle.
    by frame s. }
  assert (Hpe : ∀ r s, videoListeners (playerEffect r s) = videoListeners s
                       ∧ videoMode (playerEffect r s) = videoMode s
                       ∧ uploadedVideoUrl (playerEffect r s)
                         = uploadedVideoUrl s).
  { intros r' s. unfold playerEffect, destroyPlayer. by frame s. }
  assert (Hvc : ∀ s, videoListeners (videoCleanup s) = None
                     ∧ videoMode (videoCleanup s) = videoMode s
                     ∧ uploadedVideoUrl (videoCleanup s)
                       = uploadedVideoUrl s).
  { intros s. by destruct s. }
  assert (Hve : ∀ r s, videoListeners (videoEffect r s)
                       = (if htmlVideoRef r
                          then Some {| lastValidTime := 0;
                                       vl_closure := capture r |}
                          else videoListeners s)
                       ∧ videoMode (videoEffect r s) = videoMode s
                       ∧ uploadedVideoUrl (videoEffect r s)
                         = uploadedVideoUrl s).
  { intros r' s. unfold videoEffect, htmlVideoRef. destruct s; simpl.
    destruct (bool_decide (videoMode r' = file)); simpl; [|done].
    by destruct (truthy_string (uploadedVideoUrl r')). }
  unfold runEffects, listenersView.
  destruct (negb (bool_decide (videoId prev = videoId r)));
    destruct (negb (bool_decide (uploadedVideoUrl prev = uploadedVideoUrl r)));
    destruct (negb (bool_decide (videoMode prev = videoMode r))); simpl;
    repeat first
      [ rewrite (proj1 (Hve _ _))
      | rewrite (proj1 (proj2 (Hve _ _)))
      | rewrite (proj2 (proj2 (Hve _ _)))
      | rewrite (proj1 (Hpe _ _))
      | rewrite (proj1 (proj2 (Hpe _ _)))
      | rewrite (proj2 (proj2 (Hpe _ _)))
      | rewrite (proj1 (Huc _))
      | rewrite (proj1 (proj2 (Huc _)))
      | rewrite (proj2 (proj2 (Huc _)))
      | rewrite (proj1 (Hvc _))
      | rewrite (proj1 (proj2 (Hvc _)))
      | rewrite (proj2 (proj2 (Hvc _)))
      | rewrite (proj1 (Hpc _))
      | rewrite (proj1 (proj2 (Hpc _)))
      | rewrite (proj2 (proj2 (Hpc _))) ];
    done.
Qed.

Lemma listenersInv_runEffects prev r :
  listenersInv prev → videoListeners r = videoListeners prev →
  listenersInv (runEffects prev r).
Proof.
  intros [I1 I2] Hl.
  pose proof (listenersView_runEffects prev r) as Hv.
  destruct (negb (bool_decide (uploadedVideoUrl prev = uploadedVideoUrl r))
            || negb (bool_decide (videoMode prev = videoMode r))) eqn:Ed.
  - unfold listenersView in Hv. injection Hv as Hv1 Hv2 Hv3.
    unfold listenersInv, htmlVideoRef. rewrite Hv1, Hv2, Hv3.
    fold (htmlVideoRef r). destruct (htmlVideoRef r) eqn:Eh.
    + split; [by split; eauto|]. intros l [= <-]. simpl.
      unfold htmlVideoRef in Eh. by split_bools.
    + split; [|done]. split; [by intros [? ?]|done].
  - apply orb_false_elim in Ed as [Eu Em]. split_bools.
    apply (listenersInv_view prev); [|done].
    rewrite Hv. unfold listenersView. by rewrite Hl, Eu, Em.
Qed.

Lemma listenersInv_step e s : listenersInv s → listenersInv (step e s).
Proof.
  destruct (rendersAnew e) eqn:He.
  - intros Hi. destruct e; try discriminate; simpl; try case_match;
      try done; apply listenersInv_runEffects; try done; unfold_tracker;
      by frame s.
  - revert s.
    apply (step_rel (fun s s' => listenersInv s → listenersInv s'));
      [ done | by eauto | .. ];
      intros; simpl in *; try discriminate; simplify_eq; try congruence;
      match goal with H : listenersInv ?s |- _ => revert H end;
      try (apply listenersInv_view; unfold_tracker;
           match goal with s : State |- _ => by frame s end).
    (* handleTimeUpdate keeps the closure *)
    unfold handleTimeUpdate, listenersInv, htmlVideoRef.
    destruct s; simpl in *. case_match; [|done].
    intros [I1 I2]. simpl. split.
    + split; [intros _; apply I1; by eauto|by eauto].
    + intros l' [= <-]. simpl. by apply I2.
Qed.

(** X13.  In every reachable state the listeners of the video element
    are attached exactly while the element is rendered (file mode with a
    file loaded), and the closure they hold was made in file mode: the
    element's events are handled if and only if the element is there. *)
Theorem X13_listeners_follow_element (evs : list Event) :
  let s := run evs init in
  (is_Some (videoListeners s) ↔ htmlVideoRef s = true)
  ∧ (∀ l, videoListeners s = Some l → c_videoMode (vl_closure l) = file).
Proof.
  induction evs as [|e evs IH] using rev_ind.
  - simpl. split; [|done]. split; [by intros [? ?]|done].
  - simpl in *. rewrite run_snoc. by apply listenersInv_step.
Qed.

(** ** Loading while a video plays *)

Lemma timerView_step_UrlSubmit s : timerView (step UrlSubmit s) = timerView s.
Proof.
  assert (Hu : uploadedVideoUrl (handleUrlSubmit s) = uploadedVideoUrl s
               ∧ videoMode (handleUrlSubmit s) = videoMode s).
  { unfold handleUrlSubmit. by frame s. }
  destruct Hu as [Hu Hm]. unfold step. case_match; [|done].
  unfold runEffects.
  rewrite Hu, Hm, !(bool_decide_eq_true_2 (_ = _) eq_refl). cbn [negb orb].
  case_match;
    rewrite ?timerView_playerEffect, ?timerView_playerCleanup;
    apply timerView_handleUrlSubmit.
Qed.

(** X14.  Submitting a URL never touches the intervals: a sampling timer
    that runs for the video being replaced keeps running, with the closure
    it has.  Selecting a new video file, on the contrary, always stops the
    sampling timer. *)
Theorem X14_reload_and_sampling_timer (evs : list Event) (f : File)
    (url : string) (ok : bool) :
  let s := run evs init in
  (timers (step UrlSubmit s) = timers s
   ∧ trackingIntervalRef (step UrlSubmit s) = trackingIntervalRef s
   ∧ timerRunning (step UrlSubmit s) = timerRunning s)
  ∧ (videoMode s = file → String.prefix "video/" (type f) = true →
     uploadedVideoUrl s ≠ Some url →
     timerRunning (step (FileChange (Some f) url ok) s) = false).
Proof.
  intros s. split.
  - pose proof (timerView_step_UrlSubmit s) as Hv.
    assert (H1 : timers (step UrlSubmit s) = timers s)
      by exact (f_equal (fun v => v.1.1.1) Hv).
    split; [done|]. split; [exact (f_equal (fun v => v.1.2) Hv)|].
    unfold timerRunning, samplingTimers. by rewrite H1.
  - intros Hm Hp Hne.
    assert (Hi : timerInv s) by apply timerInv_run, timerInv_init.
    assert (Hi' : timerInv (step (FileChange (Some f) url ok) s))
      by by apply timerInv_step.
    rewrite timerRunning_ref by done.
    apply bool_decide_eq_false_2. intros [h Hh]. revert Hh.
    unfold step. rewrite bool_decide_eq_true_2 by done.
    set (r := handleFileUpload (Some f) url ok s).
    assert (Hr : uploadedVideoUrl r = Some url ∧ timerInv r).
    { split.
      - unfold r, handleFileUpload, startEmotionsStream. rewrite Hp.
        simpl. by frame s.
      - eapply timerInv_view; [apply timerView_handleFileUpload|done]. }
    destruct Hr as [Hr Hir]. unfold runEffects.
    rewrite Hr. rewrite (bool_decide_eq_false_2 (uploadedVideoUrl s = _))
      by done.
    cbn [negb orb].
    set (s2 := videoCleanup _).
    assert (H2 : timerInv s2).
    { unfold s2. eapply timerInv_view; [apply timerView_videoCleanup|].
      case_match; [|done].
      eapply timerInv_view; [apply timerView_playerCleanup|done]. }
    assert (H3 : trackingIntervalRef (unmountCleanup s2) = None).
    { unfold unmountCleanup.
      pose proof (stop_ref_None s2 H2) as Hn. revert Hn.
      generalize (stopAttentionTracking s2). intros s3. unfold ifHandle.
      by frame s3. }
    rewrite (trackingRef_view _ _ (timerView_videoEffect _ _)).
    case_match.
    + rewrite (trackingRef_view _ _ (timerView_playerEffect _ _)).
      by rewrite H3.
    + by rewrite H3.
Qed.

Lemma X14_reload_and_sampling_timer_witness :
  let evs :=
    [ClickFileMode; FileChange (Some {| type := "video/mp4" |}) "blob:a" true;
     VideoPlay] in
  timerRunning (run evs init) = true
  ∧ timerRunning
      (step (FileChange (Some {| type := "video/webm" |}) "blob:b" true)
         (run evs init)) = false.
Proof.
  intros evs. split; [by vm_compute|].
  apply (X14_reload_and_sampling_timer evs {| type := "video/webm" |}
           "blob:b" true); [reflexivity|reflexivity|].
  by vm_compute.
Defined.

(** ** The attention panel *)

Lemma lastOf_is_Some {A} (f : Event → option A) evs :
  is_Some (lastOf f evs) ↔ ∃ e, e ∈ evs ∧ is_Some (f e).
Proof.
  induction evs as [|e evs IH] using rev_ind.
  - split; [by intros [? ?]|]. intros (e & He & _). by apply elem_of_nil in He.
  - rewrite lastOf_snoc. destruct (f e) as [a|] eqn:Hf.
    + split; [|by eauto]. intros _. exists e. rewrite Hf.
      split; [apply elem_of_app; right; by apply list_elem_of_singleton|
              by eauto].
    + rewrite IH. split.
      * intros (e' & He' & Hs). exists e'. split; [|done].
        apply elem_of_app. by left.
      * intros (e' & He' & Hs). apply elem_of_app in He' as [He'|He'].
        -- by eauto.
        -- apply list_elem_of_singleton in He' as ->. rewrite Hf in Hs.
           by destruct Hs.
Qed.

Lemma currentAttention_kept evs s :
  is_Some (currentAttention s) → is_Some (currentAttention (run evs s)).
Proof.
  revert s. induction evs as [|e evs IH]; intros s Hs; [done|].
  simpl. apply IH. destruct (feed_step e s) as [-> _].
  by destruct (attentionOf e).
Qed.

(** X15.  The panel with the current attention value is shown exactly when
    a reading with [rel_attention] and no percent has been received since
    the component was mounted; from then on it stays, and the calibration
    bar never shows again, whatever is loaded or played. *)
Theorem X15_attention_panel_stays (evs evs' : list Event) :
  let s := run evs init in
  (showsCurrentAttention s = true ↔ ∃ e, e ∈ evs ∧ is_Some (attentionOf e))
  ∧ (showsCurrentAttention s = true →
     showsCurrentAttention (run evs' s) = true
     ∧ showsCalibration (run evs' s) = false).
Proof.
  intros s.
  assert (Hcal : ∀ evs0, is_Some (currentAttention (run evs0 init)) →
                         isCalibrated (run evs0 init) = true).
  { intros evs0 Hs. destruct (feed_run evs0) as (Ha & Hr & _).
    destruct (isCalibrated (run evs0 init)) eqn:Hc; [done|].
    destruct (calInv_run evs0 init calInv_init Hc) as [Hn _].
    rewrite Hr, <- Ha in Hn. rewrite Hn in Hs. by destruct Hs. }
  assert (Hshow : ∀ evs0, showsCurrentAttention (run evs0 init) = true
                          ↔ is_Some (currentAttention (run evs0 init))).
  { intros evs0. unfold showsCurrentAttention. split.
    - intros H. apply andb_true_iff in H as [_ H].
      by apply bool_decide_eq_true_1 in H.
    - intros H. rewrite (Hcal _ H). simpl. by apply bool_decide_eq_true_2. }
  subst s. split.
  - rewrite (Hshow evs). destruct (feed_run evs) as (-> & _ & _).
    apply lastOf_is_Some.
  - intros H. apply (Hshow evs) in H.
    assert (Hk : is_Some (currentAttention (run (evs ++ evs') init))).
    { unfold run. rewrite foldl_app. by apply currentAttention_kept. }
    unfold run. rewrite <- !foldl_app. fold (run (evs ++ evs') init).
    split; [by apply Hshow|].
    unfold showsCalibration. rewrite (Hcal _ Hk).
    by rewrite andb_false_r.
Qed.

Lemma X15_attention_panel_stays_witness :
  let m := {| Types.type := Types.emotions;
              Types.data :=
                {| Types.calibration_percent := None;
                   Types.rel_relaxation := None;
                   Types.rel_attention := Some 0.7%Q;
                   Types.inst_relaxation := None;
                   Types.inst_attention := None;
                   Types.is_both_sides_artifacted := None;
                   Types.is_sequence_artifacted := None |} |} in
  showsCurrentAttention (run [WsMessage m; ClickFileMode] init) = true
  ∧ showsCalibration (run [WsMessage m; ClickFileMode] init) = false.
Proof.
  intros m.
  apply (proj2 (X15_attention_panel_stays [WsMessage m] [ClickFileMode])).
  by vm_compute.
Defined.

(** * The WebSocket service *)

Import WebSocketService.

Lemma ws_run_snoc evs e s : run (evs ++ [e]) s = step e (run evs s).
Proof. unfold run. by rewrite foldl_app. Qed.

(** ** The set of message handlers *)

Lemma messageHandlers_step e s :
  messageHandlers (step e s)
  = match e with
    | AddMessageHandler h =>
        if bool_decide (h ∈ messageHandlers s) then messageHandlers s
        else messageHandlers s ++ [h]
    | RemoveMessageHandler h =>
        filter (fun h' => h' ≠ h) (messageHandlers s)
    | _ => messageHandlers s
    end.
Proof. destruct e; simpl; svc s. Qed.

Lemma registered_snoc h evs e :
  registered h (evs ++ [e])
  = match e with
    | AddMessageHandler h' =>
        if decide (h' = h) then true else registered h evs
    | RemoveMessageHandler h' =>
        if decide (h' = h) then false else registered h evs
    | _ => registered h evs
    end.
Proof. unfold registered. by rewrite foldl_app. Qed.

Lemma handlers_run evs :
  NoDup (messageHandlers (run evs init))
  ∧ ∀ h, h ∈ messageHandlers (run evs init) ↔ registered h evs = true.
Proof.
  induction evs as [|e evs [IHn IHm]] using rev_ind.
  - split; [constructor|]. intros h. simpl. split; [|done].
    intros H. by apply elem_of_nil in H.
  - rewrite ws_run_snoc, messageHandlers_step.
    set (s := run evs init) in *.
    destruct e as [| |?|h0|h0|?|? ?|?|?|?];
      try (split; [done|]; intros x; rewrite registered_snoc; apply IHm).
    + (* add *)
      destruct (bool_decide (h0 ∈ messageHandlers s)) eqn:Hin.
      * apply bool_decide_eq_true_1 in Hin. split; [done|]. intros h.
        rewrite registered_snoc. destruct (decide (h0 = h)) as [<-|Hne].
        -- done.
        -- apply IHm.
      * apply bool_decide_eq_false_1 in Hin. split.
        -- apply NoDup_app. split; [done|]. split; [|apply NoDup_singleton].
           intros x Hx Hx'. by apply list_elem_of_singleton in Hx' as ->.
        -- intros h. rewrite registered_snoc, elem_of_app,
             list_elem_of_singleton.
           destruct (decide (h0 = h)) as [<-|Hne]; [split; by auto|].
           rewrite IHm. split; [intros [?|?]; [done|congruence]|by auto].
    + (* remove *)
      split; [by apply NoDup_filter|]. intros h.
      rewrite registered_snoc, list_elem_of_filter.
      destruct (decide (h0 = h)) as [<-|Hne].
      * split; [by intros [? _]|done].
      * rewrite IHm. split; [by intros [_ ?]|]. intros ?. by split.
Qed.

(** X16.  The handlers behave as a set: after any calls and browser events
    no handler is registered twice, and a handler is registered exactly
    when its last [addMessageHandler] or [removeMessageHandler] was an
    add. *)
Theorem X16_handlers_form_a_set (evs : list Event) :
  NoDup (messageHandlers (run evs init))
  ∧ ∀ h, h ∈ messageHandlers (run evs init) ↔ registered h evs = true.
Proof. apply handlers_run. Qed.



(** ** Reconnection *)

Lemma off_step e s :
  shouldReconnect s = false →
  shouldReconnect (step e s) = false
  ∧ nextTimeout (step e s) = nextTimeout s
  ∧ timeouts (step e s) ⊆ timeouts s.
Proof.
  intros H. destruct e; simpl; svc s;
    (split; [done|]; split; [done|]);
    try done; try apply delete_subseteq.
Qed.

Lemma off_run evs s :
  shouldReconnect s = false →
  shouldReconnect (run evs s) = false
  ∧ nextTimeout (run evs s) = nextTimeout s
  ∧ timeouts (run evs s) ⊆ timeouts s.
Proof.
  revert s. induction evs as [|e evs IH]; intros s H; [done|].
  change (run (e :: evs) s) with (run evs (step e s)).
  destruct (off_step e s H) as (H1 & H2 & H3).
  destruct (IH _ H1) as (H4 & H5 & H6).
  split; [done|]. split; [congruence|]. by etrans.
Qed.

(** X18.  After [disconnect()] the service never schedules a reconnection
    again, whatever follows, a later [connect()] included: no method sets
    [shouldReconnect] back, so no timeout is created and the pending ones
    can only go. *)
Theorem X18_no_reconnect_after_disconnect (evs : list Event) (s : Service) :
  let s' := run evs (disconnect s) in
  shouldReconnect s' = false
  ∧ nextTimeout s' = nextTimeout s
  ∧ timeouts s' ⊆ timeouts s.
Proof.
  intros s'.
  assert (Hd : shouldReconnect (disconnect s) = false
               ∧ nextTimeout (disconnect s) = nextTimeout s
               ∧ timeouts (disconnect s) ⊆ timeouts s).
  { svc s; (split; [done|]; split; [done|]); try done;
      apply delete_subseteq. }
  destruct Hd as (H1 & H2 & H3).
  destruct (off_run evs _ H1) as (H4 & H5 & H6). subst s'.
  split; [done|]. split; [congruence|]. by etrans.
Qed.

(** ** One connection at a time *)

Lemma SingleOK_connect n rt sr socks nt :
  1 ≤ nt → (∀ id st, socks !! id = Some st → st = CLOSED) →
  SingleOK (Some n) rt sr (<[n := CONNECTING]> socks) ∅ nt.
Proof.
  intros Hn Hc. repeat split.
  - by rewrite lookup_empty in H.
  - by rewrite lookup_empty in H.
  - by rewrite lookup_empty in H.
  - done.
  - intros id st Hl Hne.
    apply lookup_insert_Some in Hl as [[<- <-]|[? Hl]]; [by left|].
    by apply Hc in Hl.
  - intros id id' st st' Hl Hl' H1 H2.
    apply lookup_insert_Some in Hl as [[<- <-]|[? Hl]];
      apply lookup_insert_Some in Hl' as [[<- <-]|[? Hl']]; try done.
    + by apply Hc in Hl'.
    + by apply Hc in Hl.
    + by apply Hc in Hl.
Qed.

Lemma SingleOK_timer w rt rt' sr socks nt :
  SingleOK w rt sr socks ∅ nt → SingleOK w rt' sr socks ∅ nt.
Proof.
  intros (_ & H2 & H3 & H4 & _). repeat split; try done;
    by rewrite lookup_empty in H.
Qed.

Lemma SingleOK_live w rt sr socks tos nt id st :
  SingleOK w rt sr socks tos nt → socks !! id = Some st → st ≠ CLOSED →
  tos = ∅.
Proof.
  intros (H1 & _) Hl Hne. apply map_empty. intros h.
  destruct (tos !! h) as [d|] eqn:Ht; [|done].
  destruct (H1 _ _ Ht) as (_ & _ & Hc). by apply Hc in Hl.
Qed.

Lemma SingleOK_pending w rt sr socks tos nt h d :
  SingleOK w rt sr socks tos nt → tos !! h = Some d →
  delete h tos = ∅ ∧ rt = Some h ∧ 1 ≤ h ∧ 1 ≤ nt
  ∧ ∀ id st, socks !! id = Some st → st = CLOSED.
Proof.
  intros (H1 & H2 & _) Ht. destruct (H1 _ _ Ht) as (Hr & Hh & Hc).
  split; [|done]. apply map_empty. intros k.
  destruct (decide (k = h)) as [->|Hne]; [by rewrite lookup_delete_eq|].
  rewrite lookup_delete_ne by done.
  destruct (tos !! k) as [d'|] eqn:Hk; [|done].
  destruct (H1 _ _ Hk) as (Hr' & _). congruence.
Qed.

Lemma SingleOK_open w rt sr socks nt id :
  SingleOK w rt sr socks ∅ nt → socks !! id = Some CONNECTING →
  SingleOK w rt sr (<[id := OPEN]> socks) ∅ nt.
Proof.
  intros (_ & H2 & H3 & H4 & _) Hl. repeat split; try done;
    try by rewrite lookup_empty in H.
  - intros id' st Hl' Hne.
    apply lookup_insert_Some in Hl' as [[<- <-]|[? Hl']]; [|by eauto].
    destruct (H3 _ _ Hl) as [?|(_ & ? & _)]; by auto.
  - intros i i' st st' Hi Hi' Hn Hn'.
    apply lookup_insert_Some in Hi as [[<- <-]|[? Hi]];
      apply lookup_insert_Some in Hi' as [[<- <-]|[? Hi']]; try done.
    + by apply (H4 _ _ _ _ Hl Hi').
    + by apply (H4 _ _ _ _ Hi Hl).
    + by apply (H4 _ _ _ _ Hi Hi').
Qed.

Lemma SingleOK_closed w rt sr socks nt id st :
  SingleOK w rt sr socks ∅ nt → socks !! id = Some st → st ≠ CLOSED →
  ∀ id' st', <[id := CLOSED]> socks !! id' = Some st' → st' = CLOSED.
Proof.
  intros (_ & _ & _ & H4 & _) Hl Hne id' st' Hl'.
  apply lookup_insert_Some in Hl' as [[<- <-]|[Hd Hl']]; [done|].
  destruct (decide (st' = CLOSED)) as [|Hne']; [done|].
  by destruct Hd; apply (H4 _ _ _ _ Hl Hl').
Qed.

Lemma SingleOK_close_retry w rt socks nt id st d :
  SingleOK w rt true socks ∅ nt → socks !! id = Some st → st ≠ CLOSED →
  SingleOK None (Some nt) true (<[id := CLOSED]> socks) (<[nt := d]> ∅)
    (S nt).
Proof.
  intros Hok Hl Hne. pose proof (SingleOK_closed _ _ _ _ _ _ _ Hok Hl Hne) as Hc.
  destruct Hok as (_ & H2 & _). repeat split; try done; try lia.
  - apply lookup_insert_Some in H as [[<- _]|[_ H]]; [done|].
    by rewrite lookup_empty in H.
  - apply lookup_insert_Some in H as [[<- _]|[_ H]]; [done|].
    by rewrite lookup_empty in H.
  - intros i s' Hi Hn. by apply Hc in Hi.
  - intros i i' s1 s2 Hi _ Hn _. by apply Hc in Hi.
Qed.

Lemma SingleOK_close_off w rt socks nt id st :
  SingleOK w rt false socks ∅ nt → socks !! id = Some st → st ≠ CLOSED →
  SingleOK None rt false (<[id := CLOSED]> socks) ∅ nt.
Proof.
  intros Hok Hl Hne. pose proof (SingleOK_closed _ _ _ _ _ _ _ Hok Hl Hne) as Hc.
  destruct Hok as (_ & H2 & _). repeat split; try done;
    try by rewrite lookup_empty in H.
  - intros i s' Hi Hn. by apply Hc in Hi.
  - intros i i' s1 s2 Hi _ Hn _. by apply Hc in Hi.
Qed.

(** [disconnect()] on the sockets: the current one starts closing. *)
Lemma SingleOK_disconnect w rt sr socks tos nt :
  SingleOK w rt sr socks tos nt →
  match rt with
  | Some h => if truthy_handle (Some h) then delete h tos else tos
  | None => tos
  end = ∅
  ∧ SingleOK None None false
      match w with
      | Some id =>
          match socks !! id with
          | Some CONNECTING | Some OPEN => <[id := CLOSING]> socks
          | _ => socks
          end
      | None => socks
      end ∅ nt.
Proof.
  intros Hok.
  assert (Ht : match rt with
               | Some h => if truthy_handle (Some h) then delete h tos else tos
               | None => tos
               end = ∅).
  { destruct Hok as (H1 & _). apply map_empty. intros k.
    destruct rt as [h|].
    - destruct (truthy_handle (Some h)) eqn:Htr.
      + destruct (decide (k = h)) as [->|Hne]; [by rewrite lookup_delete_eq|].
        rewrite lookup_delete_ne by done.
        destruct (tos !! k) as [d|] eqn:Hk; [|done].
        destruct (H1 _ _ Hk) as (? & _). congruence.
      + destruct (tos !! k) as [d|] eqn:Hk; [|done].
        destruct (H1 _ _ Hk) as (Hr & Hge & _). simplify_eq.
        unfold truthy_handle in Htr. simpl in Htr.
        destruct k; [lia|done].
    - destruct (tos !! k) as [d|] eqn:Hk; [|done].
      by destruct (H1 _ _ Hk) as (? & _). }
  split; [done|].
  destruct Hok as (_ & H2 & H3 & H4 & _).
  assert (Hlive : ∀ id st, socks !! id = Some st → st ≠ CLOSED →
                  match w with
                  | Some id' => id' = id
                  | None => st = CLOSING
                  end).
  { intros id st Hl Hne. destruct (H3 _ _ Hl Hne) as [->|(-> & ? & _)]; done. }
  repeat split; try done; try by rewrite lookup_empty in H.
  - intros id st Hl Hne. right. split; [done|]. split; [|done].
    destruct w as [i|].
    + destruct (socks !! i) as [sti|] eqn:Hi.
      * destruct sti.
        -- apply lookup_insert_Some in Hl as [[<- <-]|[Hd Hl]]; [done|].
           by destruct Hd; apply (Hlive _ _ Hl Hne).
        -- apply lookup_insert_Some in Hl as [[<- <-]|[Hd Hl]]; [done|].
           by destruct Hd; apply (Hlive _ _ Hl Hne).
        -- pose proof (Hlive _ _ Hl Hne) as <-. congruence.
        -- pose proof (Hlive _ _ Hl Hne) as <-. congruence.
      * pose proof (Hlive _ _ Hl Hne) as <-. congruence.
    + by apply (Hlive _ _ Hl Hne).
  - intros i i' s1 s2 Hi Hi' Hn Hn'.
    assert (Hsub : ∀ k st, match w with
                     | Some id =>
                         match socks !! id with
                         | Some CONNECTING | Some OPEN =>
                             <[id := CLOSING]> socks
                         | _ => socks
                         end
                     | None => socks
                     end !! k = Some st → st ≠ CLOSED →
                     ∃ st0, socks !! k = Some st0 ∧ st0 ≠ CLOSED).
    { intros k st Hk Hne. destruct w as [j|]; [|by eauto].
      destruct (socks !! j) as [stj|] eqn:Hj; [|by eauto].
      destruct stj; try by eauto.
      - apply lookup_insert_Some in Hk as [[<- <-]|[? Hk]]; by eauto.
      - apply lookup_insert_Some in Hk as [[<- <-]|[? Hk]]; by eauto. }
    destruct (Hsub _ _ Hi Hn) as (? & ? & ?).
    destruct (Hsub _ _ Hi' Hn') as (? & ? & ?). by eapply H4.
Qed.

Lemma singleInv_view s s' : netView s' = netView s → singleInv s → singleInv s'.
Proof.
  unfold netView, singleInv. intros H. injection H as -> -> -> -> -> ->.
  done.
Qed.

Lemma singleInv_connect_init : singleInv (connect init).
Proof. apply (SingleOK_connect 0 None true ∅ 1); [lia|]. by intros. Qed.

Lemma singleInv_disconnect s : singleInv s → singleInv (disconnect s).
Proof.
  unfold singleInv. intros H. apply SingleOK_disconnect in H as [Ht H].
  revert Ht H. unfold_ws. destruct s; simpl.
  destruct reconnectTimer0 as [[|h]|]; simpl; intros -> H;
    (destruct ws0 as [id|]; simpl;
     [destruct (sockets0 !! id) as [[]|]; simpl|]);
    try done; by eapply SingleOK_timer.
Qed.

Lemma singleInv_step e s :
  isBrowserEvent e = true → singleInv s → singleInv (step e s).
Proof.
  intros He H. destruct e; try discriminate; simpl.
  - (* open *)
    destruct (sockets s !! id) as [[]|] eqn:Hl; try done.
    assert (Ht : timeouts s = ∅) by by eapply SingleOK_live.
    unfold singleInv in *. rewrite Ht in H.
    apply (SingleOK_open _ _ _ _ _ _ H) in Hl.
    revert Ht Hl. unfold_ws. destruct s; simpl. intros -> Hl.
    destruct reconnectTimer0 as [[|h]|]; simpl;
      repeat case_match; simpl; rewrite ?delete_empty;
      try done; by eapply SingleOK_timer.
  - (* message *)
    destruct (sockets s !! id) as [[]|]; try done.
    eapply singleInv_view; [|done]. by svc s.
  - (* error *)
    destruct (sockets s !! id) as [[]|]; try done;
      (eapply singleInv_view; [|done]); by svc s.
  - (* close *)
    destruct (sockets s !! id) as [st|] eqn:Hl; [|done].
    destruct (decide (st = CLOSED)) as [->|Hne]; [done|].
    assert (Ht : timeouts s = ∅) by by eapply SingleOK_live.
    assert (Hgoal : singleInv
              (onclose (set_sockets (<[id := CLOSED]> (sockets s)) s))).
    { unfold singleInv in *. rewrite Ht in H. revert Ht Hl H. unfold_ws.
      destruct s; simpl. intros -> Hl H.
      destruct shouldReconnect0; simpl.
      - by eapply SingleOK_close_retry.
      - by eapply SingleOK_close_off. }
    by destruct st.
  - (* the reconnect timer fires *)
    destruct (timeouts s !! h) as [d|] eqn:Ht; [|done].
    unfold singleInv in *.
    destruct (SingleOK_pending _ _ _ _ _ _ _ _ H Ht) as (He' & _ & _ & Hn & Hc).
    revert He' Hn Hc. unfold_ws. destruct s; simpl. intros -> Hn Hc.
    by apply SingleOK_connect.
Qed.

Lemma size_le_1 {A} (m : gmap nat A) :
  (∀ k k' a a', m !! k = Some a → m !! k' = Some a' → k = k') → size m ≤ 1.
Proof.
  intros Hu. destruct (map_choose_or_empty m) as [(k & a & Hk)| ->].
  - assert (Heq : m = {[ k := a ]}).
    { apply map_eq. intros i. destruct (decide (i = k)) as [->|Hne].
      - by rewrite lookup_singleton_eq.
      - rewrite lookup_singleton_ne by done.
        destruct (m !! i) as [a'|] eqn:Hi; [|done].
        by destruct Hne; apply (Hu _ _ _ _ Hi Hk). }
    by rewrite Heq, map_size_singleton.
  - rewrite map_size_empty. lia.
Qed.

Lemma singleInv_sizes s :
  singleInv s → size (liveSockets s) + size (timeouts s) ≤ 1.
Proof.
  intros H.
  assert (Hl : size (liveSockets s) ≤ 1).
  { apply size_le_1. intros k k' a a' Hk Hk'. unfold liveSockets in *.
    apply map_lookup_filter_Some in Hk as [Hk ?].
    apply map_lookup_filter_Some in Hk' as [Hk' ?].
    destruct H as (_ & _ & _ & H4 & _). by eapply H4. }
  assert (Ht : size (timeouts s) ≤ 1).
  { apply size_le_1. intros k k' a a' Hk Hk'.
    destruct H as (H1 & _).
    destruct (H1 _ _ Hk) as (? & _), (H1 _ _ Hk') as (? & _). congruence. }
  destruct (map_choose_or_empty (liveSockets s)) as [(k & a & Hk)|He].
  - apply map_lookup_filter_Some in Hk as [Hk ?].
    rewrite (SingleOK_live _ _ _ _ _ _ _ _ H Hk) by done.
    rewrite map_size_empty. lia.
  - rewrite He, map_size_empty. lia.
Qed.

Lemma offInv_disconnect s : singleInv s → offInv (disconnect s).
Proof.
  intros H. pose proof (singleInv_disconnect s H) as (_ & _ & H3 & _ & H5).
  assert (Hv : shouldReconnect (disconnect s) = false ∧ ws (disconnect s) = None)
    by by svc s.
  destruct Hv as [Hs Hw]. split; [done|]. split; [by apply H5|].
  split; [done|]. intros id st Hl.
  destruct (decide (st = CLOSED)) as [|Hne]; [by right|]. left.
  destruct (H3 _ _ Hl Hne) as [?|(_ & ? & _)]; [congruence|done].
Qed.

Lemma offInv_step e s :
  isBrowserEvent e = true → offInv s →
  offInv (step e s)
  ∧ nextSocket (step e s) = nextSocket s ∧ calls (step e s) = calls s.
Proof.
  intros He (H1 & H2 & H3 & H4). destruct e; try discriminate; simpl.
  - destruct (sockets s !! id) as [st|] eqn:Hl; [|done].
    by destruct (H4 _ _ Hl) as [-> | ->].
  - destruct (sockets s !! id) as [st|] eqn:Hl; [|done].
    by destruct (H4 _ _ Hl) as [-> | ->].
  - destruct (sockets s !! id) as [st|] eqn:Hl; [|done].
    destruct (H4 _ _ Hl) as [-> | ->]; [|done].
    unfold offInv. by svc s.
  - destruct (sockets s !! id) as [st|] eqn:Hl; [|done].
    destruct (H4 _ _ Hl) as [-> | ->]; [|done].
    unfold offInv. revert H1 H2 H3 H4. unfold_ws. destruct s; simpl.
    intros -> -> -> H4. simpl. repeat split; try done.
    intros i st Hi. apply lookup_insert_Some in Hi as [[_ <-]|[_ Hi]];
      [by right|by eauto].
  - by rewrite H2, lookup_empty.
Qed.

Lemma offInv_handlers s :
  offInv s →
  (∀ h, offInv (addMessageHandler h s)
        ∧ nextSocket (addMessageHandler h s) = nextSocket s
        ∧ calls (addMessageHandler h s) = calls s)
  ∧ (∀ h, offInv (removeMessageHandler h s)
          ∧ nextSocket (removeMessageHandler h s) = nextSocket s
          ∧ calls (removeMessageHandler h s) = calls s)
  ∧ offInv (disconnect s)
  ∧ nextSocket (disconnect s) = nextSocket s
  ∧ calls (disconnect s) = calls s.
Proof.
  intros (H1 & H2 & H3 & H4). unfold offInv.
  split; [intros h; by svc s|]. split; [intros h; by svc s|].
  revert H1 H2 H3 H4. unfold_ws. destruct s; simpl. intros -> -> -> H4.
  destruct reconnectTimer0 as [[|h]|]; simpl;
    rewrite ?delete_empty; by repeat split.
Qed.

(** * The application *)

Import App.

Lemma app_run_app evs evs' :
  run (evs ++ evs') = foldl (fun s e => step e s) (run evs) evs'.
Proof. unfold run. by rewrite foldl_app. Qed.

Lemma app_run_snoc evs e : run (evs ++ [e]) = step e (run evs).
Proof. by rewrite app_run_app. Qed.

(** What an event other than the mount does through the service. *)
Lemma step_toService e s :
  isMount e = false →
  awaited (step e s) = awaited s
  ∧ match toService e with
    | Some e' =>
        service (step e s) = WebSocketService.step e' (service s)
        ∧ wsConnected (step e s)
          = if match awaited s with
               | Some id =>
                   resolvedNow id (service s)
                     (WebSocketService.step e' (service s))
               | None => false
               end
            then true else wsConnected s
    | None =>
        service (step e s) = service s
        ∧ wsConnected (step e s) = wsConnected s
    end.
Proof.
  intros He. destruct e as [| |e'| | | | |]; try done.
  simpl. by destruct (isBrowserEvent e').
Qed.

Lemma toService_cases e e' :
  toService e = Some e' →
  isBrowserEvent e' = true ∨ e' = Disconnect
  ∨ (∃ h, e' = AddMessageHandler h) ∨ (∃ h, e' = RemoveMessageHandler h).
Proof.
  destruct e as [| |e0| | | | |]; simpl; intros H; simplify_eq; eauto.
  destruct (isBrowserEvent e0) eqn:Hb; simplify_eq. by left.
Qed.

Lemma service_run_ind (P : Service → Prop) evs :
  P (connect WebSocketService.init) →
  (∀ s, P s → P (disconnect s)) →
  (∀ e s, isBrowserEvent e = true → P s → P (WebSocketService.step e s)) →
  (∀ h s, P s → P (addMessageHandler h s)) →
  (∀ h s, P s → P (removeMessageHandler h s)) →
  Forall (fun e => isMount e = false) evs →
  P (service (run evs)).
Proof.
  intros Hi Hd Hb Ha Hr. induction evs as [|e evs IH] using rev_ind; [done|].
  intros Hf. apply Forall_app in Hf as [Hf He].
  apply Forall_cons in He as [He _]. rewrite app_run_snoc.
  destruct (step_toService e (run evs) He) as [_ Hs].
  destruct (toService e) as [e'|] eqn:Ht.
  - destruct Hs as [-> _].
    destruct (toService_cases _ _ Ht) as [?|[->|[[h ->]|[h ->]]]];
      simpl; by auto.
  - destruct Hs as [-> _]. by auto.
Qed.

Lemma singleInv_run evs :
  Forall (fun e => isMount e = false) evs → singleInv (service (run evs)).
Proof.
  apply service_run_ind.
  - apply singleInv_connect_init.
  - apply singleInv_disconnect.
  - intros e s. apply singleInv_step.
  - intros h s. apply singleInv_view. by svc s.
  - intros h s. apply singleInv_view. by svc s.
Qed.

(** X19.  In an application that is mounted once there is one connection
    at a time: at most one socket that is not closed, at most one pending
    reconnect timeout, and never both. *)
Theorem X19_one_connection_at_a_time (evs : list Event) :
  Forall (fun e => isMount e = false) evs →
  size (liveSockets (service (run evs)))
  + size (timeouts (service (run evs))) ≤ 1.
Proof. intros Hf. by apply singleInv_sizes, singleInv_run. Qed.

Lemma X19_one_connection_at_a_time_witness :
  let evs := [Browser (SockOpen 0); Browser (SockClose 0);
              Browser (TimeoutFire 1)] in
  size (liveSockets (service (run evs)))
  + size (timeouts (service (run evs))) ≤ 1.
Proof.
  intros evs. apply (X19_one_connection_at_a_time evs).
  repeat constructor.
Defined.

Lemma offInv_run evs s :
  Forall (fun e => isMount e = false) evs →
  offInv (service s) →
  let s' := foldl (fun s e => step e s) s evs in
  offInv (service s')
  ∧ nextSocket (service s') = nextSocket (service s)
  ∧ calls (service s') = calls (service s).
Proof.
  intros Hf Ho. induction evs as [|e evs IH] using rev_ind; [done|].
  apply Forall_app in Hf as [Hf He]. apply Forall_cons in He as [He _].
  destruct (IH Hf) as (I1 & I2 & I3). simpl. rewrite foldl_app. simpl.
  set (s1 := foldl (fun s e => step e s) s evs) in *.
  destruct (step_toService e s1 He) as [_ Hs].
  destruct (toService e) as [e'|] eqn:Ht.
  - destruct Hs as [-> _]. rewrite <- I2, <- I3.
    destruct (offInv_handlers _ I1) as (Ha & Hr & Hd).
    destruct (toService_cases _ _ Ht) as [?|[->|[[h ->]|[h ->]]]]; simpl.
    + by apply offInv_step.
    + done.
    + apply Ha.
    + apply Hr.
  - destruct Hs as [-> _]. done.
Qed.

(** X20.  After the application is unmounted nothing happens any more: no
    socket is created, no handler is called, no timeout is pending and the
    service is not connected, whatever the browser delivers. *)
Theorem X20_nothing_after_unmount (evs evs' : list Event) :
  Forall (fun e => isMount e = false) evs →
  Forall (fun e => isMount e = false) evs' →
  let s1 := service (run (evs ++ [Unmount])) in
  let s2 := service (run (evs ++ Unmount :: evs')) in
  nextSocket s2 = nextSocket s1 ∧ calls s2 = calls s1
  ∧ timeouts s2 = ∅ ∧ isConnected s2 = false.
Proof.
  intros Hf Hf' s1 s2.
  assert (Ho : offInv s1).
  { unfold s1. rewrite app_run_snoc. simpl.
    by apply offInv_disconnect, singleInv_run. }
  assert (Hs2 : s2 = service (foldl (fun s e => step e s)
                                (run (evs ++ [Unmount])) evs')).
  { unfold s2. by rewrite (cons_middle Unmount), app_assoc, app_run_app. }
  destruct (offInv_run evs' (run (evs ++ [Unmount])) Hf' Ho)
    as ((_ & H2 & H3 & _) & H5 & H6).
  rewrite Hs2. split; [done|]. split; [done|]. split; [done|].
  unfold isConnected. by rewrite H3.
Qed.

Lemma X20_nothing_after_unmount_witness :
  let m := {| Types.type := Types.pong;
              Types.data :=
                {| Types.calibration_percent := None;
                   Types.rel_relaxation := None;
                   Types.rel_attention := None;
                   Types.inst_relaxation := None;
                   Types.inst_attention := None;
                   Types.is_both_sides_artifacted := None;
                   Types.is_sequence_artifacted := None |} |} in
  let evs := [ChildMount 3; Browser (SockOpen 0)] in
  let evs' := [Browser (SockMessage 0 (Some m)); Browser (SockClose 0)] in
  calls (service (run (evs ++ Unmount :: evs')))
  = calls (service (run (evs ++ [Unmount]))).
Proof.
  intros m evs evs'.
  apply (X20_nothing_after_unmount evs evs'); repeat constructor.
Defined.

(** ** The connection indicator *)

(** A promise settles once, and only [onopen] of its socket resolves it. *)
Lemma promise_step e s id :
  id < nextSocket s →
  nextSocket s ≤ nextSocket (WebSocketService.step e s)
  ∧ (promises (WebSocketService.step e s) !! id = promises s !! id
     ∨ (promises s !! id = Some Pending
        ∧ (promises (WebSocketService.step e s) !! id = Some Rejected
           ∨ (promises (WebSocketService.step e s) !! id = Some Resolved
              ∧ e = SockOpen id)))).
Proof.
  intros Hlt.
  assert (Hsettle : ∀ i r s0,
            promises (settle i r s0) !! id = promises s0 !! id
            ∨ (promises s0 !! id = Some Pending ∧ i = id
               ∧ promises (settle i r s0) !! id = Some r)).
  { intros i r s0. unfold settle.
    destruct (promises s0 !! i) as [[]|] eqn:Hp; try by left.
    destruct s0; simpl in *. destruct (decide (i = id)) as [->|Hne].
    - right. by rewrite lookup_insert_eq.
    - left. by rewrite lookup_insert_ne. }
  destruct e as [| |?|?|?|i|j ?|i|j|h]; simpl.
  - split; [destruct s; simpl; lia|]. left. destruct s; simpl in *.
    rewrite lookup_insert_ne; [done|lia].
  - split; [by svc s|]. left. by svc s.
  - split; [by svc s|]. left. by svc s.
  - split; [by svc s|]. left. by svc s.
  - split; [by svc s|]. left. by svc s.
  - destruct (sockets s !! i) as [[]|]; try (split; [done|by left]).
    split; [by svc s|]. unfold onopen.
    destruct (Hsettle i Resolved
                (clearReconnectTimer
                   (set_sockets (<[i := OPEN]> (sockets s)) s)))
      as [Hs|(Hs & -> & Hr)].
    + left. rewrite Hs. by svc s.
    + right. split; [|right; by split]. rewrite <- Hs. by svc s.
  - destruct (sockets s !! j) as [[]|]; try (split; [done|by left]).
    split; [by svc s|]. left. by svc s.
  - unfold onerror.
    destruct (Hsettle i Rejected s) as [Hs|(Hs & -> & Hr)].
    + destruct (sockets s !! i) as [[]|]; (split; [by svc s|]);
        left; by rewrite ?Hs.
    + destruct (sockets s !! id) as [[]|]; (split; [by svc s|]);
        try (by left); right; split; by auto.
  - destruct (sockets s !! j) as [st|]; [|split; [done|by left]].
    assert (Hc : nextSocket s
                 ≤ nextSocket
                     (onclose (set_sockets (<[j := CLOSED]> (sockets s)) s))
                 ∧ promises
                     (onclose (set_sockets (<[j := CLOSED]> (sockets s)) s))
                   !! id = promises s !! id) by by svc s.
    destruct st; try (split; [done|by left]);
      (split; [apply Hc|left; apply Hc]).
  - destruct (timeouts s !! h) as [d|]; [|split; [done|by left]].
    split; [destruct s; simpl; lia|]. left. destruct s; simpl in *.
    rewrite lookup_insert_ne; [done|lia].
Qed.

Lemma indicatorInv_step e s :
  isMount e = false → indicatorInv s →
  indicatorInv (step e s)
  ∧ (wsConnected s = true → wsConnected (step e s) = true)
  ∧ (promises (service s) !! 0 = Some Rejected →
     promises (service (step e s)) !! 0 = Some Rejected)
  ∧ (wsConnected s = false → wsConnected (step e s) = true →
     e = Browser (SockOpen 0)).
Proof.
  intros He (Ha & Hn & Hp & Hw).
  destruct (step_toService e s He) as [Haw Hs].
  unfold indicatorInv. rewrite Haw.
  destruct (toService e) as [e'|] eqn:Ht.
  - destruct Hs as [Hsvc Hws]. rewrite Hsvc, Hws, Ha.
    destruct (promise_step e' (service s) 0 Hn) as [Hle Hpr].
    unfold resolvedNow. clear Hsvc Hws. revert Hle Hpr.
    generalize (WebSocketService.step e' (service s)).
    intros svc' Hle [Heq|(Hpend & [Hrej|[Hres ->]])].
    + rewrite Heq.
      assert (Hno : bool_decide (promises (service s) !! 0 = Some Pending)
                    && bool_decide (promises (service s) !! 0 = Some Resolved)
                    = false).
      { destruct (promises (service s) !! 0) as [[]|]; done. }
      rewrite Hno. split; [split; [done|]; split; [lia|]; by split|].
      split; [done|]. split; [done|]. congruence.
    + rewrite Hrej, Hpend. simpl.
      split; [split; [done|]; split; [lia|]; split; [by eauto|]|].
      * rewrite Hw, Hpend. split; intros; discriminate.
      * split; [done|]. split; [congruence|]. congruence.
    + rewrite Hres, Hpend. simpl.
      split; [split; [done|]; split; [lia|]; split; [by eauto|done]|].
      split; [done|]. split; [congruence|]. intros _ _.
      destruct e as [| |e0| | | | |]; simpl in Ht; simplify_eq.
      by destruct (isBrowserEvent e0); simplify_eq.
  - destruct Hs as [-> ->]. split; [done|]. split; [done|].
    split; [done|]. congruence.
Qed.

Lemma indicatorInv_init : indicatorInv (step Mount init).
Proof.
  unfold indicatorInv. simpl. split; [done|]. split; [lia|].
  rewrite lookup_insert_eq. split; [by eauto|]. split; intros; discriminate.
Qed.

Lemma indicatorInv_fold evs s :
  Forall (fun e => isMount e = false) evs → indicatorInv s →
  let s' := foldl (fun s e => step e s) s evs in
  indicatorInv s'
  ∧ (wsConnected s = true → wsConnected s' = true)
  ∧ (promises (service s) !! 0 = Some Rejected →
     promises (service s') !! 0 = Some Rejected)
  ∧ (wsConnected s = false → wsConnected s' = true →
     Browser (SockOpen 0) ∈ evs).
Proof.
  intros Hf Hi. induction evs as [|e evs IH] using rev_ind.
  - simpl. split; [done|]. split; [done|]. split; [done|]. congruence.
  - apply Forall_app in Hf as [Hf He]. apply Forall_cons in He as [He _].
    destruct (IH Hf) as (I1 & I2 & I3 & I4). simpl. rewrite foldl_app. simpl.
    set (s1 := foldl (fun s e => step e s) s evs) in *.
    destruct (indicatorInv_step e s1 He I1) as (J1 & J2 & J3 & J4).
    split; [done|]. split; [by auto|]. split; [by auto|].
    intros Hw Hw'. apply elem_of_app.
    destruct (wsConnected s1) eqn:Hw1.
    + left. by apply I4.
    + right. apply list_elem_of_singleton. symmetry. by apply J4.
Qed.

(** X21.  The indicator of the header follows the promise of the first
    [connect()] only.  It turns green when the first socket opens and
    never turns red again, a closed socket or the unmount notwithstanding;
    and when the first attempt failed it stays red for good, whatever the
    reconnections achieve. *)
Theorem X21_indicator_follows_first_attempt (evs evs' : list Event) :
  Forall (fun e => isMount e = false) evs →
  Forall (fun e => isMount e = false) evs' →
  (wsConnected (run evs) = true
   ↔ promises (service (run evs)) !! 0 = Some Resolved)
  ∧ (wsConnected (run evs) = true → Browser (SockOpen 0) ∈ evs)
  ∧ (wsConnected (run evs) = true → wsConnected (run (evs ++ evs')) = true)
  ∧ (promises (service (run evs)) !! 0 = Some Rejected →
     wsConnected (run (evs ++ evs')) = false).
Proof.
  intros Hf Hf'.
  destruct (indicatorInv_fold evs _ Hf indicatorInv_init)
    as (I1 & _ & _ & I4).
  fold (run evs) in I1, I4.
  destruct (indicatorInv_fold evs' _ Hf' I1) as (J1 & J2 & J3 & _).
  rewrite <- app_run_app in J1, J2, J3.
  split; [apply I1|]. split; [by apply I4|]. split; [done|].
  intros Hr. apply J3 in Hr. destruct J1 as (_ & _ & _ & Hw).
  destruct (wsConnected (run (evs ++ evs'))); [|done].
  rewrite (proj1 Hw eq_refl) in Hr. discriminate.
Qed.

Lemma X21_indicator_follows_first_attempt_witness :
  let evs := [Browser (SockError 0); Browser (SockClose 0)] in
  let evs' := [Browser (TimeoutFire 1); Browser (SockOpen 1)] in
  isConnected (service (run (evs ++ evs'))) = true
  ∧ wsConnected (run (evs ++ evs')) = false.
Proof.
  intros evs evs'. split; [by vm_compute|].
  apply (X21_indicator_follows_first_attempt evs evs');
    [repeat constructor|repeat constructor|by vm_compute].
Defined.

(** * The signal chart *)

Import SignalViewer.

Lemma slice_last_short {A} n (l : list A) : length l ≤ n → slice_last n l = l.
Proof.
  intros H. unfold slice_last. by replace (length l - n) with 0 by lia.
Qed.

Lemma slice_last_length {A} n (l : list A) : length (slice_last n l) ≤ n.
Proof. unfold slice_last. rewrite length_drop. lia. Qed.

Lemma slice_last_app {A} n (l k : list A) :
  slice_last n (slice_last n l ++ k) = slice_last n (l ++ k).
Proof.
  destruct (decide (length l ≤ n)) as [Hle|Hgt].
  - by rewrite (slice_last_short n l).
  - unfold slice_last at 2.
    rewrite <- (take_drop (length l - n) l) at 3.
    set (a := take (length l - n) l). set (b := drop (length l - n) l).
    assert (Ha : length a = length l - n)
      by (unfold a; rewrite length_take; lia).
    assert (Hb : length b = n) by (unfold b; rewrite length_drop; lia).
    unfold slice_last. rewrite <- app_assoc, !length_app, Ha, Hb.
    replace (length l - n + (n + length k) - n)
      with (length a + length k) by lia.
    replace (n + length k - n) with (length k) by lia.
    by rewrite <- drop_drop, drop_app_length.
Qed.

(** X22.  The chart shows a sliding window: whatever the sizes of the
    batches, the buffer holds the last hundred of the samples received, in
    order and with their stamps, and never more than a hundred. *)
Theorem X22_signal_buffer_is_a_window (ms : list (Z * Message)) (s : State) :
  length (signalData s) ≤ maxDataPoints →
  signalData (run ms s)
  = slice_last maxDataPoints (signalData s ++ received ms)
  ∧ length (signalData (run ms s)) ≤ maxDataPoints.
Proof.
  revert s. induction ms as [|[now m] ms IH]; intros s Hs.
  - simpl. by rewrite app_nil_r, slice_last_short.
  - change (run ((now, m) :: ms) s) with (run ms (handler now m s)).
    unfold received. rewrite map_cons, concat_cons. fold (received ms).
    unfold handler. simpl.
    destruct (bool_decide (type m = Types.signal));
      [destruct (data m) as [d|]|]; try by apply IH.
    destruct (IH {| isStreaming := isStreaming s;
                    signalData :=
                      slice_last maxDataPoints (signalData s ++ stamp now d)
                 |}) as [-> Hl]; [apply slice_last_length|].
    split; [|done]. simpl. by rewrite slice_last_app, app_assoc.
Qed.

Lemma X22_signal_buffer_is_a_window_witness :
  let x := {| O1 := 0; O2 := 0; T3 := 0; T4 := 0 |} in
  let m := {| type := Types.signal; data := Some (replicate 60 x) |} in
  length (signalData (run [(0%Z, m); (1000%Z, m)] init)) ≤ maxDataPoints.
Proof.
  intros x m. apply (X22_signal_buffer_is_a_window [(0%Z, m); (1000%Z, m)]).
  simpl. unfold maxDataPoints. lia.
Defined.

(** * The emotions panel *)

Import EmotionsViewer.

(** X23.  The label and the colour of the relaxation value go together:
    two values get the same label exactly when they get the same colour. *)
Theorem X23_relaxation_label_matches_colour (v w : option Q) :
  getRelaxationLevel v = getRelaxationLevel w
  ↔ getRelaxationColor v = getRelaxationColor w.
Proof.
  unfold getRelaxationLevel, getRelaxationColor.
  destruct v as [v|], w as [w|];
    repeat match goal with
           | |- context [below ?q ?l] => destruct (below q l)
           end;
    simpl; split; intros H; try done; discriminate H.
Qed.

Lemma lastEmotions_snoc ms m :
  lastEmotions (ms ++ [m])
  = if bool_decide (Types.type m = Types.emotions)
    then Some (Types.data m) else lastEmotions ms.
Proof. unfold lastEmotions. by rewrite foldl_app. Qed.

(** X24.  After an emotions message the panel follows that message,
    whatever came before: the calibration bar is shown exactly when the
    message carries a percent (a percent of 100 included), the metrics
    only when it carries none, and they are shown when it carries a
    relative value and no percent. *)
Theorem X24_panel_follows_last_message
    (ms : list Types.WebSocketMessage) (s : State) (d : Types.EmotionsData) :
  lastEmotions ms = Some d →
  showsCalibration (run ms s)
  = bool_decide (is_Some (Types.calibration_percent d))
  ∧ (showsMetrics (run ms s) = true → Types.calibration_percent d = None)
  ∧ (is_Some (Types.rel_relaxation d) ∨ is_Some (Types.rel_attention d) →
     Types.calibration_percent d = None →
     showsMetrics (run ms s) = true).
Proof.
  induction ms as [|m ms IH] using rev_ind; [done|].
  rewrite lastEmotions_snoc. unfold run. rewrite foldl_app. simpl.
  fold (run ms s). unfold handler.
  destruct (bool_decide (Types.type m = Types.emotions)); [|done].
  intros [= <-]. unfold showsCalibration, showsMetrics.
  destruct (Types.calibration_percent (Types.data m)) as [p|] eqn:Hp.
  - rewrite !bool_decide_eq_true_2 by eauto. simpl. rewrite Hp.
    rewrite bool_decide_eq_true_2 by eauto. by repeat split.
  - rewrite (bool_decide_eq_false_2 (is_Some None)) by by intros [? ?].
    destruct (bool_decide (is_Some (Types.rel_relaxation (Types.data m)))
              || bool_decide (is_Some (Types.rel_attention (Types.data m))))
      eqn:Hr; simpl; rewrite ?Hp.
    + done.
    + rewrite andb_false_r. split; [done|]. split; [done|].
      intros [Hs|Hs] _; apply orb_false_elim in Hr as [H1 H2].
      * by apply bool_decide_eq_false_1 in H1.
      * by apply bool_decide_eq_false_1 in H2.
Qed.

Lemma X24_panel_follows_last_message_witness :
  let d := {| Types.calibration_percent := Some 100%Q;
              Types.rel_relaxation := None;
              Types.rel_attention := Some 0.7%Q;
              Types.inst_relaxation := None;
              Types.inst_attention := None;
              Types.is_both_sides_artifacted := None;
              Types.is_sequence_artifacted := None |} in
  let m := {| Types.type := Types.emotions; Types.data := d |} in
  showsCalibration (run [m] init) = true.
Proof.
  intros d m.
  by destruct (X24_panel_follows_last_message [m] init d eq_refl) as [-> _].
Defined.
